(** * Ahead-of-time native code emission: a model of [src/aotcompile.cpp]

    The development follows the source file top to bottom:
    - the backend IR as far as the file touches it (globals, functions,
      modules, constants), with a global value identified by its name;
    - [addComdat], the per-platform finalisation of a definition;
    - the process-wide registry of global values ([jl_value_to_llvm],
      [jl_sysimg_gvars]) with [jl_emit_and_add_to_shadow] and
      [jl_get_global_for];
    - the offset-table emitter ([emit_offset_table],
      [jl_gen_llvm_globaldata]);
    - the session driver [jl_create_native] and the lookups
      [jl_get_llvm_gv], [jl_get_function_id];
    - the emission entry point [jl_dump_native];
    - [jl_add_to_shadow], the copy of a module into the shadow module.

    Process-wide C++ globals are the fields of one record [runtime] that is
    passed explicitly; a call that can stop the process (a failed [assert],
    a [cast<>] of the wrong value in a backend built with assertions, a
    null dereference) returns [Abort]. The counter [globalUnique] is a C++
    [int] and is stepped with its wrap-around. Memory exhaustion and the
    renaming of a value whose name is already taken in its module are
    outside the model. *)

From stdpp Require Import gmap strings list fin_maps sorting.
From Stdlib Require Import ZArith DecimalString DecimalZ.

Local Open Scope Z_scope.
Local Set Warnings "-register-all".

(* ================================================================== *)
(** ** Build configuration *)

(** The preprocessor conditions the file is compiled under. With
    [JL_NDEBUG] the header julia_assert.h, included last, compiles the
    file's own [assert]s away. [LLVM_ASSERTIONS] says whether the backend
    library was built with its assertions, which decides what its
    [cast<>] does with a pointer of the wrong class. *)
Class BuildConfig := {
  OS_WINDOWS : bool;            (* _OS_WINDOWS_ *)
  COMPILER_MICROSOFT : bool;    (* _COMPILER_MICROSOFT_ *)
  CPU_X86_64 : bool;            (* _CPU_X86_64_ *)
  sizeof_size_t : Z;            (* sizeof(size_t) *)
  JL_LLVM_VERSION : Z;
  JL_NDEBUG : bool;
  LLVM_ASSERTIONS : bool;
}.

(* ================================================================== *)
(** ** Outcomes of a call *)

Inductive failure :=
  | AssertionFailure   (* assert(...) or a failed cast<> *)
  | NullDereference    (* a null or dangling pointer is dereferenced *)
  | NameCollision      (* two definitions of one name meet in a merge *)
  | WildPointer        (* a null or foreign pointer is kept and used as it is *)
  | OutOfFuel.         (* the model's loop bound was reached *)

Inductive result (A : Type) :=
  | Ok (a : A)
  | Abort (why : failure).
Arguments Ok {A} a.
Arguments Abort {A} why.

#[global] Instance result_ret : MRet result := λ A a, Ok a.
#[global] Instance result_bind : MBind result := λ A B f m,
  match m with
  | Ok a => f a
  | Abort why => Abort why
  end.

#[global] Instance result_fmap : FMap result := λ A B f m,
  match m with
  | Ok a => Ok (f a)
  | Abort why => Abort why
  end.

(** [assert(b)] of the C++ source: without [JL_NDEBUG] a false condition
    stops the process, with it the condition is not looked at. *)
Definition assert {cfg : BuildConfig} (b : bool) : result unit :=
  if JL_NDEBUG || b then Ok tt else Abort AssertionFailure.

(** Dereference of a pointer that may be null. *)
Definition deref {A} (p : option A) : result A :=
  match p with Some a => Ok a | None => Abort NullDereference end.

(** [cast<T>(p)] of the backend library: the pointer must be non-null and
    of class [T]. A library built with assertions stops the process when
    it is not. A library built without them hands the pointer on as it is:
    [as_it_is] is what the caller goes on with. *)
Definition cast {cfg : BuildConfig} {A} (p : option A) (as_it_is : result A)
  : result A :=
  match p with
  | Some a => Ok a
  | None => if LLVM_ASSERTIONS then Abort AssertionFailure else as_it_is
  end.

(* ================================================================== *)
(** ** Fixed-width integers of the source *)

(** Conversion of a [size_t] to [uint32_t]. *)
Definition to_uint32 (z : Z) : Z := z mod 2 ^ 32.

(** Conversion of a [size_t] to [int32_t] (two's complement). *)
Definition to_int32 (z : Z) : Z := (z + 2 ^ 31) mod 2 ^ 32 - 2 ^ 31.

(** Conversion of an [int] to [uint64_t] (sign extension, then the bits
    read as unsigned). *)
Definition to_uint64 (z : Z) : Z := z mod 2 ^ 64.

(** [std::vector::size()] as a mathematical integer. *)
Definition vec_size {A} (v : list A) : Z := Z.of_nat (length v).

(** Decimal rendering of an [int] by [operator<<]. *)
Definition string_of_Z (z : Z) : string :=
  NilZero.string_of_int (Z.to_int z).

(* ================================================================== *)
(** ** Backend IR, as far as the file observes it *)

Inductive llvm_type :=
  | IntegerTy (bits : Z)
  | PointerTy (pointee : llvm_type)
  | ArrayTy (elt : llvm_type) (n : Z)
  | OpaqueTy (name : string).

Inductive LinkageTypes := ExternalLinkage | InternalLinkage.
#[global] Instance LinkageTypes_eq_dec : EqDecision LinkageTypes.
Proof. solve_decision. Defined.
Inductive DLLStorageClassTypes := DefaultStorageClass | DLLExportStorageClass.
Inductive SelectionKind := AnyComdat | NoDuplicates.

(** Constants. A reference to a global value is the value's name. *)
Inductive Constant :=
  | ConstantPointerNull (T : llvm_type)
  | ConstantInt (T : llvm_type) (v : Z)
  | ConstantBitCast (gv : string) (T : llvm_type)
  | ConstantArray (T : llvm_type) (elts : list Constant)
  | ConstantDataArray (bytes : list Z)
  | GlobalAddress (gv : string).

(** [ConstantInt::get(T, v)]: the value is truncated to the width of [T]. *)
Definition ConstantInt_get (T : llvm_type) (v : Z) : Constant :=
  match T with
  | IntegerTy bits => ConstantInt T (v mod 2 ^ bits)
  | _ => ConstantInt T v
  end.

Record GlobalVariable := {
  gv_name : string;
  gv_type : llvm_type;                 (* the value type *)
  gv_isConstant : bool;
  gv_linkage : LinkageTypes;
  gv_initializer : option Constant;    (* [None]: a declaration *)
  gv_alignment : Z;
  gv_comdat : option (string * SelectionKind);
  gv_dllStorage : DLLStorageClassTypes;
}.

Record Function := {
  fn_name : string;
  fn_type : llvm_type;                 (* the function type, kept opaque *)
  fn_hasBody : bool;
  fn_linkage : LinkageTypes;
  fn_comdat : option (string * SelectionKind);
  fn_dllStorage : DLLStorageClassTypes;
  fn_personality : option string;
}.

(** [new GlobalVariable(T, isConstant, linkage, init, name)]. *)
Definition new_GlobalVariable (T : llvm_type) (isConstant : bool)
    (linkage : LinkageTypes) (init : option Constant) (name : string)
  : GlobalVariable :=
  {| gv_name := name; gv_type := T; gv_isConstant := isConstant;
     gv_linkage := linkage; gv_initializer := init; gv_alignment := 0;
     gv_comdat := None; gv_dllStorage := DefaultStorageClass |}.

Definition gv_setInitializer (c : Constant) (g : GlobalVariable) :=
  {| gv_name := gv_name g; gv_type := gv_type g;
     gv_isConstant := gv_isConstant g; gv_linkage := gv_linkage g;
     gv_initializer := Some c; gv_alignment := gv_alignment g;
     gv_comdat := gv_comdat g; gv_dllStorage := gv_dllStorage g |}.

Definition gv_setLinkage (l : LinkageTypes) (g : GlobalVariable) :=
  {| gv_name := gv_name g; gv_type := gv_type g;
     gv_isConstant := gv_isConstant g; gv_linkage := l;
     gv_initializer := gv_initializer g; gv_alignment := gv_alignment g;
     gv_comdat := gv_comdat g; gv_dllStorage := gv_dllStorage g |}.

Definition gv_setAlignment (a : Z) (g : GlobalVariable) :=
  {| gv_name := gv_name g; gv_type := gv_type g;
     gv_isConstant := gv_isConstant g; gv_linkage := gv_linkage g;
     gv_initializer := gv_initializer g; gv_alignment := a;
     gv_comdat := gv_comdat g; gv_dllStorage := gv_dllStorage g |}.

Definition gv_setComdat (c : string * SelectionKind) (g : GlobalVariable) :=
  {| gv_name := gv_name g; gv_type := gv_type g;
     gv_isConstant := gv_isConstant g; gv_linkage := gv_linkage g;
     gv_initializer := gv_initializer g; gv_alignment := gv_alignment g;
     gv_comdat := Some c; gv_dllStorage := gv_dllStorage g |}.

Definition gv_setDLLStorageClass (d : DLLStorageClassTypes) (g : GlobalVariable) :=
  {| gv_name := gv_name g; gv_type := gv_type g;
     gv_isConstant := gv_isConstant g; gv_linkage := gv_linkage g;
     gv_initializer := gv_initializer g; gv_alignment := gv_alignment g;
     gv_comdat := gv_comdat g; gv_dllStorage := d |}.

Definition fn_setLinkage (l : LinkageTypes) (f : Function) :=
  {| fn_name := fn_name f; fn_type := fn_type f; fn_hasBody := fn_hasBody f; fn_linkage := l;
     fn_comdat := fn_comdat f; fn_dllStorage := fn_dllStorage f;
     fn_personality := fn_personality f |}.

Definition fn_setComdat (c : string * SelectionKind) (f : Function) :=
  {| fn_name := fn_name f; fn_type := fn_type f; fn_hasBody := fn_hasBody f;
     fn_linkage := fn_linkage f; fn_comdat := Some c;
     fn_dllStorage := fn_dllStorage f; fn_personality := fn_personality f |}.

Definition fn_setDLLStorageClass (d : DLLStorageClassTypes) (f : Function) :=
  {| fn_name := fn_name f; fn_type := fn_type f; fn_hasBody := fn_hasBody f;
     fn_linkage := fn_linkage f; fn_comdat := fn_comdat f;
     fn_dllStorage := d; fn_personality := fn_personality f |}.

Definition fn_setPersonalityFn (p : option string) (f : Function) :=
  {| fn_name := fn_name f; fn_type := fn_type f; fn_hasBody := fn_hasBody f;
     fn_linkage := fn_linkage f; fn_comdat := fn_comdat f;
     fn_dllStorage := fn_dllStorage f; fn_personality := p |}.

(** The interface [addComdat] is instantiated at (the source's template
    parameter "for GlobalObject's"). *)
Class GlobalObject (T : Type) := {
  getName : T → string;
  isDeclaration : T → bool;
  getLinkage : T → LinkageTypes;
  setComdat : string * SelectionKind → T → T;
  setDLLStorageClass : DLLStorageClassTypes → T → T;
  (* [if (Function *F = dyn_cast<Function>(G)) F->setPersonalityFn(p)] *)
  setPersonalityFn_dyn : option string → T → T;
}.

#[global] Instance GlobalVariable_object : GlobalObject GlobalVariable := {|
  getName := gv_name;
  isDeclaration g := match gv_initializer g with None => true | Some _ => false end;
  getLinkage := gv_linkage;
  setComdat := gv_setComdat;
  setDLLStorageClass := gv_setDLLStorageClass;
  setPersonalityFn_dyn _ g := g;
|}.

#[global] Instance Function_object : GlobalObject Function := {|
  getName := fn_name;
  isDeclaration f := negb (fn_hasBody f);
  getLinkage := fn_linkage;
  setComdat := fn_setComdat;
  setDLLStorageClass := fn_setDLLStorageClass;
  setPersonalityFn_dyn := fn_setPersonalityFn;
|}.

Record Module := {
  mod_globals : list GlobalVariable;
  mod_functions : list Function;
  mod_targetTriple : string;
  mod_dataLayout : string;
}.

Definition Module_with_globals (gs : list GlobalVariable) (m : Module) :=
  {| mod_globals := gs; mod_functions := mod_functions m;
     mod_targetTriple := mod_targetTriple m;
     mod_dataLayout := mod_dataLayout m |}.

Definition Module_with_functions (fs : list Function) (m : Module) :=
  {| mod_globals := mod_globals m; mod_functions := fs;
     mod_targetTriple := mod_targetTriple m;
     mod_dataLayout := mod_dataLayout m |}.

Definition setTargetTriple (t : string) (m : Module) :=
  {| mod_globals := mod_globals m; mod_functions := mod_functions m;
     mod_targetTriple := t; mod_dataLayout := mod_dataLayout m |}.

Definition setDataLayout (d : string) (m : Module) :=
  {| mod_globals := mod_globals m; mod_functions := mod_functions m;
     mod_targetTriple := mod_targetTriple m; mod_dataLayout := d |}.

(** [new GlobalVariable( *M, ...)]: the new global is appended to the
    module's global list. *)
Definition Module_add_global (g : GlobalVariable) (m : Module) : Module :=
  Module_with_globals (mod_globals m ++ [g]) m.

Definition getGlobalVariable (m : Module) (name : string) : option GlobalVariable :=
  find (λ g, bool_decide (gv_name g = name)) (mod_globals m).

Definition getFunction (m : Module) (name : string) : option Function :=
  find (λ f, bool_decide (fn_name f = name)) (mod_functions m).

(** The names a module's symbol table knows ([getNamedValue] succeeds). *)
Definition Module_names (m : Module) : list string :=
  (gv_name <$> mod_globals m) ++ (fn_name <$> mod_functions m).

Definition hasNamedValue (m : Module) (name : string) : bool :=
  bool_decide (name ∈ Module_names m).

(* ================================================================== *)
(** ** Process-wide state *)

(** One [jl_method_instance_t], as far as the driver reads it. *)
Record jl_method_instance_t := {
  min_world : Z;
  max_world : Z;
  inferred : Z;        (* jl_value_t*, 0 when NULL *)
  def_method : Z;      (* def.method *)
  rettype : Z;         (* jl_value_t* *)
}.

(** An entry of [jl_value_to_llvm]. *)
Record jl_value_llvm := {
  gv : GlobalVariable;
  index : Z;           (* int32_t, uses 1-based indexing *)
}.

(** The personality routine, with whether its parent is [shadow_output]. *)
Record personality_ref := {
  pf_name : string;
  pf_in_shadow : bool;
}.

(** The process-wide variables the file reads and writes. [imaging_mode],
    [globalUnique], [shadow_output], [juliapersonality_func],
    [jl_ExecutionEngine], [jl_world_counter] and [jl_typeinf_world] are
    declared in other files of the runtime; [jl_sysimg_gvars] and
    [jl_value_to_llvm] are the file's own statics. Global values held in
    [jl_sysimg_gvars] are pointers into [shadow_output] and are represented
    by their names. *)
Record runtime := {
  imaging_mode : bool;
  globalUnique : Z;                (* a C++ int *)
  shadow_output : Module;
  juliapersonality_func : option personality_ref;
  jl_sysimg_gvars : list string;
  jl_value_to_llvm : gmap Z jl_value_llvm;
  (* addGlobalMapping(gv, slot): global name and index of its cell *)
  jl_ExecutionEngine : list (string * nat);
  (* the cells handed out by calloc(1, sizeof(void* )) *)
  slots : list Z;
  jl_world_counter : Z;
  jl_typeinf_world : Z;
  method_instances : gmap Z jl_method_instance_t;
}.

Definition set_imaging_mode (b : bool) (s : runtime) : runtime :=
  {| imaging_mode := b; globalUnique := globalUnique s;
     shadow_output := shadow_output s;
     juliapersonality_func := juliapersonality_func s;
     jl_sysimg_gvars := jl_sysimg_gvars s;
     jl_value_to_llvm := jl_value_to_llvm s;
     jl_ExecutionEngine := jl_ExecutionEngine s; slots := slots s;
     jl_world_counter := jl_world_counter s;
     jl_typeinf_world := jl_typeinf_world s;
     method_instances := method_instances s |}.

Definition set_globalUnique (n : Z) (s : runtime) : runtime :=
  {| imaging_mode := imaging_mode s; globalUnique := n;
     shadow_output := shadow_output s;
     juliapersonality_func := juliapersonality_func s;
     jl_sysimg_gvars := jl_sysimg_gvars s;
     jl_value_to_llvm := jl_value_to_llvm s;
     jl_ExecutionEngine := jl_ExecutionEngine s; slots := slots s;
     jl_world_counter := jl_world_counter s;
     jl_typeinf_world := jl_typeinf_world s;
     method_instances := method_instances s |}.

Definition set_shadow_output (m : Module) (s : runtime) : runtime :=
  {| imaging_mode := imaging_mode s; globalUnique := globalUnique s;
     shadow_output := m;
     juliapersonality_func := juliapersonality_func s;
     jl_sysimg_gvars := jl_sysimg_gvars s;
     jl_value_to_llvm := jl_value_to_llvm s;
     jl_ExecutionEngine := jl_ExecutionEngine s; slots := slots s;
     jl_world_counter := jl_world_counter s;
     jl_typeinf_world := jl_typeinf_world s;
     method_instances := method_instances s |}.

(** Assignment to the two statics of the file, [jl_sysimg_gvars] and
    [jl_value_to_llvm]. *)
Definition set_registry (gvars : list string) (m : gmap Z jl_value_llvm)
    (s : runtime) : runtime :=
  {| imaging_mode := imaging_mode s; globalUnique := globalUnique s;
     shadow_output := shadow_output s;
     juliapersonality_func := juliapersonality_func s;
     jl_sysimg_gvars := gvars;
     jl_value_to_llvm := m;
     jl_ExecutionEngine := jl_ExecutionEngine s; slots := slots s;
     jl_world_counter := jl_world_counter s;
     jl_typeinf_world := jl_typeinf_world s;
     method_instances := method_instances s |}.

(** [slot = calloc(1, sizeof(void* )); addGlobalMapping(gv, slot)]: a new
    zeroed cell is appended and mapped to the global. *)
Definition add_global_mapping (name : string) (s : runtime) : nat * runtime :=
  (length (slots s),
   {| imaging_mode := imaging_mode s; globalUnique := globalUnique s;
      shadow_output := shadow_output s;
      juliapersonality_func := juliapersonality_func s;
      jl_sysimg_gvars := jl_sysimg_gvars s;
      jl_value_to_llvm := jl_value_to_llvm s;
      jl_ExecutionEngine := jl_ExecutionEngine s ++ [(name, length (slots s))];
      slots := slots s ++ [0];
      jl_world_counter := jl_world_counter s;
      jl_typeinf_world := jl_typeinf_world s;
      method_instances := method_instances s |}).

(** [*(void** )slot = v]. *)
Definition store_slot (slot : nat) (v : Z) (s : runtime) : runtime :=
  {| imaging_mode := imaging_mode s; globalUnique := globalUnique s;
     shadow_output := shadow_output s;
     juliapersonality_func := juliapersonality_func s;
     jl_sysimg_gvars := jl_sysimg_gvars s;
     jl_value_to_llvm := jl_value_to_llvm s;
     jl_ExecutionEngine := jl_ExecutionEngine s;
     slots := <[slot := v]> (slots s);
     jl_world_counter := jl_world_counter s;
     jl_typeinf_world := jl_typeinf_world s;
     method_instances := method_instances s |}.

(* ================================================================== *)
(** ** [addComdat] *)

Section AddComdat.
Context {cfg : BuildConfig} {T : Type} {obj : GlobalObject T}.

(** [parent_is_shadow] is the test [G->getParent() == shadow_output]. *)
Definition addComdat (s : runtime) (parent_is_shadow : bool) (G : T) : result T :=
  if OS_WINDOWS && imaging_mode s && negb (isDeclaration G) then
    G1 ← (if parent_is_shadow then
            let G' := if COMPILER_MICROSOFT
                      then setComdat (getName G, NoDuplicates) G else G in
            if CPU_X86_64 then
              _ ← assert (match juliapersonality_func s with
                          | None => true
                          | Some p => pf_in_shadow p
                          end);
              mret (setPersonalityFn_dyn (pf_name <$> juliapersonality_func s) G')
            else mret G'
          else mret G);
    mret (if bool_decide (getLinkage G1 = ExternalLinkage)
          then setDLLStorageClass DLLExportStorageClass G1
          else setDLLStorageClass DefaultStorageClass G1)
  else mret G.
End AddComdat.

(* ================================================================== *)
(** ** The global value registry *)

(** Modelled from the spec: [global_proto(G)] of jitlayers.h is not part of
    the file; the spec describes its result as a "shadow declaration" of the
    symbol. It is taken to copy the global under the same name and type as an
    external declaration without initializer. *)
Definition global_proto (G : GlobalVariable) : GlobalVariable :=
  new_GlobalVariable (gv_type G) (gv_isConstant G) ExternalLinkage None (gv_name G).

(** Modelled from the spec: [prepare_global_in(M, G)] of jitlayers.h is not
    part of the file; the spec says a repeated request "returns the existing
    placeholder symbol". It is taken to return the module's global of that
    name, declaring it in [M] first when [M] does not know the name. *)
Definition prepare_global_in (M : Module) (G : GlobalVariable)
  : GlobalVariable * Module :=
  match getGlobalVariable M (gv_name G) with
  | Some local => (local, M)
  | None => (global_proto G, Module_add_global (global_proto G) M)
  end.

Section Registry.
Context {cfg : BuildConfig}.

(** [jl_emit_and_add_to_shadow(gv, gvarinit)]; returns the cell [slot]. *)
Definition jl_emit_and_add_to_shadow (gv : GlobalVariable) (gvarinit : Z)
    (s : runtime) : result (nat * runtime) :=
  (* pointer is the only supported type here; without the library's
     assertions a type of another class is used as the pointer type *)
  T ← cast (match gv_type gv with PointerTy _ => Some (gv_type gv) | _ => None end)
         (Ok (gv_type gv));
  s1 ← (if imaging_mode s then
          (* shadowvar = global_proto(gv, shadow_output) *)
          let shadowvar :=
            gv_setLinkage InternalLinkage
              (gv_setInitializer (ConstantPointerNull T) (global_proto gv)) in
          shadowvar ← addComdat s true shadowvar;
          let s' := set_shadow_output
                      (Module_add_global shadowvar (shadow_output s)) s in
          if imaging_mode s && negb (bool_decide (gvarinit = 0)) then
            (* make the pointer valid for future sessions *)
            let gvars := jl_sysimg_gvars s' ++ [gv_name shadowvar] in
            let gv_struct := {| gv := global_proto gv;
                                index := to_int32 (vec_size gvars) |} in
            mret (set_registry gvars
                    (<[gvarinit := gv_struct]> (jl_value_to_llvm s')) s')
          else mret s'
        else mret s);
  (* make the pointer valid for this session *)
  mret (add_global_mapping (gv_name gv) s1).

(** [jl_get_global_for(cname, addr, M, T)]; returns the global and the
    updated module [M]. *)
Definition jl_get_global_for (cname : string) (addr : Z) (M : Module)
    (T : llvm_type) (s : runtime)
  : result (GlobalVariable * Module * runtime) :=
  (* first see if there already is a GlobalVariable for this address *)
  match jl_value_to_llvm s !! addr with
  | Some it =>
      let '(g, M') := prepare_global_in M (gv it) in mret (g, M', s)
  | None =>
      (* gvname << cname << globalUnique++, on an int *)
      let gvname := cname +:+ string_of_Z (globalUnique s) in
      let s1 := set_globalUnique (to_int32 (globalUnique s + 1)) s in
      (* no existing GlobalVariable, create one and store it *)
      let gv := new_GlobalVariable T false ExternalLinkage None gvname in
      let M' := Module_add_global gv M in
      '(slot, s2) ← jl_emit_and_add_to_shadow gv addr s1;
      mret (gv, M', store_slot slot addr s2)
  end.

(** [jl_get_llvm_gv(p)]: map a memory location to its table index. *)
Definition jl_get_llvm_gv (p : Z) (s : runtime) : Z :=
  match jl_value_to_llvm s !! p with
  | None => 0
  | Some it => index it
  end.
End Registry.

(* ================================================================== *)
(** ** Sessions and the offset-table emitter *)

(** A value of a module's symbol table. *)
Inductive GlobalValue :=
  | GV_variable (g : GlobalVariable)
  | GV_function (f : Function).

(** [M->getNamedValue(name)]: the symbol table holds no value under the
    empty name. *)
Definition getNamedValue (m : Module) (name : string) : option GlobalValue :=
  if bool_decide (name = "") then None
  else match getGlobalVariable m name with
       | Some g => Some (GV_variable g)
       | None => GV_function <$> getFunction m name
       end.

(** [V->getType()] of a global value: a pointer to its value type. *)
Definition GlobalValue_getType (v : GlobalValue) : llvm_type :=
  match v with
  | GV_variable g => PointerTy (gv_type g)
  | GV_function f => PointerTy (fn_type f)
  end.

Definition GlobalValue_getName (v : GlobalValue) : string :=
  match v with
  | GV_variable g => gv_name g
  | GV_function f => fn_name f
  end.

(** [cast<Function>(p)]. Without the library's assertions a null pointer
    or a global variable goes into the function table as it is; the tables
    of the model hold the names of the values they point to and have no
    entry for such a pointer, so the model stops there. *)
Definition cast_Function {cfg : BuildConfig} (p : option GlobalValue)
  : result Function :=
  cast (match p with Some (GV_function f) => Some f | _ => None end)
       (Abort WildPointer).

(** [jl_native_code_desc_t]. The vectors hold pointers into [M],
    represented by names; a triple of [jl_fvar_map] is kept in the order the
    tuple is built. *)
Module desc.
Record t := {
  M : Module;
  jl_sysimg_fvars : list string;
  jl_sysimg_gvars : list string;
  jl_fvar_map : gmap Z (Z * Z * Z);
}.

Definition set_M (m : Module) (data : t) : t :=
  {| M := m; jl_sysimg_fvars := jl_sysimg_fvars data;
     jl_sysimg_gvars := jl_sysimg_gvars data;
     jl_fvar_map := jl_fvar_map data |}.
End desc.

Section Emitter.
Context {cfg : BuildConfig}.

(** The global that [emit_offset_table] creates. *)
Definition offset_table (vars : list string) (name : string)
    (T_psize : llvm_type) : GlobalVariable :=
  let nvars := vec_size vars in
  let addrs := (λ v, ConstantBitCast v T_psize) <$> vars in
  let vars_type := ArrayTy T_psize nvars in
  new_GlobalVariable vars_type true ExternalLinkage
    (Some (ConstantArray vars_type addrs)) name.

(** [emit_offset_table(mod, vars, name, T_psize)]: a global variable with
    all the variable addresses. *)
Definition emit_offset_table (mod_ : Module) (vars : list string)
    (name : string) (T_psize : llvm_type) : result Module :=
  _ ← assert (negb (bool_decide (vars = [])));
  mret (Module_add_global (offset_table vars name T_psize) mod_).

(** [T_size] and [T_psize] of [jl_gen_llvm_globaldata]. *)
Definition T_size : llvm_type :=
  if bool_decide (sizeof_size_t = 8) then IntegerTy 64 else IntegerTy 32.
Definition T_psize : llvm_type := PointerTy T_size.

(** [addComdat(new GlobalVariable( *mod, ...))] for a global of the
    session module, whose parent is not [shadow_output]. *)
Definition add_session_global (s : runtime) (g : GlobalVariable)
    (post : GlobalVariable → GlobalVariable) (mod_ : Module) : result Module :=
  g' ← addComdat s false g;
  mret (Module_add_global (post g') mod_).

(** [jl_gen_llvm_globaldata(data, sysimg_data, sysimg_len)]; the payload
    pointer is [None] when null, otherwise the bytes it points to. *)
Definition jl_gen_llvm_globaldata (data : desc.t)
    (sysimg_data : option (list Z)) (sysimg_len : Z) (s : runtime)
  : result desc.t :=
  let mod_ := desc.M data in
  mod_ ← emit_offset_table mod_ (desc.jl_sysimg_gvars data) "jl_sysimg_gvars" T_psize;
  mod_ ← emit_offset_table mod_ (desc.jl_sysimg_fvars data) "jl_sysimg_fvars" T_psize;
  mod_ ← add_session_global s
           (* globalUnique+1 is an int, widened to the uint64_t that
              ConstantInt::get takes *)
           (new_GlobalVariable T_size true ExternalLinkage
              (Some (ConstantInt_get T_size
                       (to_uint64 (to_int32 (globalUnique s + 1)))))
              "jl_globalUnique") id mod_;
  (* reflect the address of the jl_RTLD_DEFAULT_handle variable
     back to the caller, so that we can check for consistency issues *)
  jlRTLD_DEFAULT_var ← deref (getNamedValue mod_ "jl_RTLD_DEFAULT_handle");
  mod_ ← add_session_global s
           (new_GlobalVariable (GlobalValue_getType jlRTLD_DEFAULT_var) true
              ExternalLinkage
              (Some (GlobalAddress (GlobalValue_getName jlRTLD_DEFAULT_var)))
              "jl_RTLD_DEFAULT_handle_pointer") id mod_;
  mod_ ← match sysimg_data with
         | Some bytes =>
             let payload := take (Z.to_nat sysimg_len) bytes in
             mod_ ← add_session_global s
                      (new_GlobalVariable (ArrayTy (IntegerTy 8) (vec_size payload))
                         false ExternalLinkage
                         (Some (ConstantDataArray payload))
                         "jl_system_image_data")
                      (gv_setAlignment 64) mod_;
             add_session_global s
               (new_GlobalVariable T_size true ExternalLinkage
                  (Some (ConstantInt_get T_size sysimg_len))
                  "jl_system_image_size") id mod_
         | None => mret mod_
         end;
  mret (desc.set_M mod_ data).
End Emitter.

(** [jl_get_function_id(native_code, linfo, api, func_idx, specfunc_idx)].
    The three output locations are passed with their current contents
    [( *api, *func_idx, *specfunc_idx)] and returned with their contents
    after the call. *)
Definition jl_get_function_id (data : desc.t) (linfo : Z) (out : Z * Z * Z)
  : Z * Z * Z :=
  (* get the function index in the fvar lookup table *)
  match desc.jl_fvar_map data !! linfo with
  | Some it => it      (* std::tie( *api, *func_idx, *specfunc_idx) = it->second *)
  | None => out
  end.

(* ================================================================== *)
(** ** External collaborators *)

(** Modelled from the spec: [jl_llvm_functions_t] is declared in another
    file of the runtime. The spec lists, among the results of code
    generation, "a generic entry-point declaration" and "an optional
    type-specialized entry-point declaration"; both are function names, the
    empty name standing for an absent declaration. *)
Record jl_llvm_functions_t := {
  functionObject : string;        (* generic entry point *)
  specFunctionObject : string;    (* type-specialized entry point *)
}.

(** [jl_compile_result_t]: the tuple read with [std::get<0..3>] in the
    driver: IR fragment (null on failure), declarations, return type,
    classification flag. *)
Definition jl_compile_result_t : Type :=
  option Module * jl_llvm_functions_t * Z * Z.

Definition get0 (r : jl_compile_result_t) : option Module := r.1.1.1.
Definition get1 (r : jl_compile_result_t) : jl_llvm_functions_t := r.1.1.2.
Definition get2 (r : jl_compile_result_t) : Z := r.1.2.
Definition get3 (r : jl_compile_result_t) : Z := r.2.

(** The engines the file calls but does not define. Inference and code
    generation run arbitrary runtime code, so they transform the process
    state; a work-queue item is reduced to the identity it names. *)
Class Collaborators := {
  jl_nothing : Z;
  jl_uncompress_ast : Z → Z → Z;
  jl_is_code_info : Z → bool;
  (* jl_type_infer(&mi, world, force): the possibly replaced [mi] and the
     inferred source *)
  jl_type_infer : Z → Z → Z → runtime → Z * Z * runtime;
  (* jl_compile_linfo1(mi, src, world, workqueue, cache, params): the
     result and the work queue after the call *)
  jl_compile_linfo1 :
    Z → Z → Z → list Z → bool → runtime → jl_compile_result_t * list Z * runtime;
  (* the optimization pipeline of addOptimizationPasses, as a function of
     the optimization level *)
  run_optimization : Z → Module → Module;
  jl_options_opt_level : Z;
  (* sys::fs::openFileForWrite: [Some msg] is an error code with message *)
  openFileForWrite : string → option string;
  (* TM->addPassesToEmitFile(...): [true] when the target cannot emit an
     object file, as in the backend's convention *)
  addPassesToEmitFile : bool;
  (* triple and data layout of the target machine built for emission *)
  TM_getTargetTriple : string;
  TM_createDataLayout : string;
}.

(* ================================================================== *)
(** ** The compilation driver [jl_create_native] *)

(** [std::map] iterates in key order. *)
Definition key_le {V} (x y : Z * V) : Prop := x.1 ≤ y.1.
#[global] Instance key_le_dec {V} (x y : Z * V) : Decision (key_le x y) :=
  Z_le_dec _ _.

Definition std_map_entries {V} (m : gmap Z V) : list (Z * V) :=
  merge_sort key_le (map_to_list m).

(** A loop over a vector whose body may stop the process. *)
Fixpoint for_each {A B} (body : A → B → result A) (a : A) (l : list B)
  : result A :=
  match l with
  | [] => mret a
  | b :: l' => a' ← body a b; for_each body a' l'
  end.

(** The locals of [jl_create_native] during the compile loops. [calls] is
    not in the source: it records every call of the code generator, with the
    identity passed and whether an IR fragment came back. *)
Record driver := {
  emitted : gmap Z jl_compile_result_t;
  workqueue : list Z;
  calls : list (Z * bool);
  env : runtime;
}.

(** Modelled from the spec: [jl_merge_module(dest, src)] is defined in
    another file of the runtime. The spec: "merge is a straightforward
    union; if a name collision is nonetheless detected this is a fatal
    invariant violation". A declaration joins a value of the same name; two
    definitions of one name collide. *)
Definition merge_global (dest : list GlobalVariable) (sG : GlobalVariable)
  : result (list GlobalVariable) :=
  match find (λ g, bool_decide (gv_name g = gv_name sG)) dest with
  | None => mret (dest ++ [sG])
  | Some dG =>
      if isDeclaration sG then mret dest
      else if isDeclaration dG
      then mret ((λ g, if bool_decide (gv_name g = gv_name sG) then sG else g) <$> dest)
      else Abort NameCollision
  end.

Definition merge_function (dest : list Function) (sF : Function)
  : result (list Function) :=
  match find (λ f, bool_decide (fn_name f = fn_name sF)) dest with
  | None => mret (dest ++ [sF])
  | Some dF =>
      if isDeclaration sF then mret dest
      else if isDeclaration dF
      then mret ((λ f, if bool_decide (fn_name f = fn_name sF) then sF else f) <$> dest)
      else Abort NameCollision
  end.

Definition jl_merge_module (dest src : Module) : result Module :=
  gs ← for_each merge_global (mod_globals dest) (mod_globals src);
  fs ← for_each merge_function (mod_functions dest) (mod_functions src);
  mret (Module_with_functions fs (Module_with_globals gs dest)).

Section Driver.
Context {cfg : BuildConfig} {eng : Collaborators}.

(** The code generator is entered here, and only here. *)
Definition codegen (mi src world : Z) (d : driver) : driver :=
  let '(result, wq, rt) :=
    jl_compile_linfo1 mi src world (workqueue d) false (env d) in
  {| emitted := match get0 result with
                | Some _ => <[mi := result]> (emitted d)
                | None => emitted d
                end;
     workqueue := wq;
     calls := calls d ++ [(mi, bool_decide (is_Some (get0 result)))];
     env := rt |}.

Definition with_env (rt : runtime) (d : driver) : driver :=
  {| emitted := emitted d; workqueue := workqueue d; calls := calls d;
     env := rt |}.

Definition with_workqueue (wq : list Z) (d : driver) : driver :=
  {| emitted := emitted d; workqueue := wq; calls := calls d;
     env := env d |}.

(** The test of line 286: whether pass [worlds], run for the world
    [world], looks at a specialization. *)
Definition in_pass (worlds world : Z) (li : jl_method_instance_t)
    (rt : runtime) : bool :=
  (bool_decide (worlds = 1)
   || bool_decide (max_world li < jl_world_counter rt))
  && bool_decide (min_world li ≤ world)
  && bool_decide (world ≤ max_world li).

(** Body of the loop over [methods], lines 285-298. *)
Definition compile_root (worlds world : Z) (d : driver) (mi : Z)
  : result driver :=
  li ← deref (method_instances (env d) !! mi);
  if in_pass worlds world li (env d)
  then
    let src := inferred li in
    let src := if negb (bool_decide (src = 0))
                  && negb (bool_decide (src = jl_nothing))
               then jl_uncompress_ast (def_method li) src else src in
    let '(mi, src, rt) :=
      if bool_decide (src = 0) || negb (jl_is_code_info src)
      then jl_type_infer mi world 0 (env d)
      else (mi, src, env d) in
    let d := with_env rt d in
    if bool_decide (is_Some (emitted d !! mi)) then mret d
    else mret (codegen mi src world d)
  else mret d.

(** Modelled from the spec: [jl_compile_workqueue] is defined in another
    file of the runtime. The spec: "drain the work queue: repeat step 2 for
    queued identities (which may themselves enqueue further callees) until
    empty", step 2 being "if the specialization has not already been
    compiled in this session [...] invoke the code-generation engine". The
    spec names no inferred source for a queued identity; the engine is
    given a null one. [fuel] bounds the number of items taken. *)
Fixpoint jl_compile_workqueue (fuel : nat) (world : Z) (d : driver)
  : result driver :=
  match workqueue d with
  | [] => mret d
  | mi :: rest =>
      match fuel with
      | O => Abort OutOfFuel
      | S fuel' =>
          let d := with_workqueue rest d in
          if bool_decide (is_Some (emitted d !! mi))
          then jl_compile_workqueue fuel' world d
          else jl_compile_workqueue fuel' world (codegen mi 0 world d)
      end
  end.

(** One iteration of [for (int worlds = 2; worlds > 0; worlds--)]. *)
Definition compile_pass (fuel : nat) (methods : list Z) (d : driver)
    (worlds : Z) : result driver :=
  let world := if bool_decide (worlds = 1)
               then jl_world_counter (env d) else jl_typeinf_world (env d) in
  if bool_decide (world = 0) then mret d
  else
    d ← for_each (compile_root worlds world) d methods;
    jl_compile_workqueue fuel world d.

(** Body of [for (auto &def : emitted)], lines 307-326. *)
Definition merge_entry (rt : runtime) (data : desc.t)
    (def : Z * jl_compile_result_t) : result desc.t :=
  fragment ← deref (get0 def.2);
  clone ← jl_merge_module (desc.M data) fragment;
  let this_li := def.1 in
  let decls := get1 def.2 in
  let rettype_ := get2 def.2 in
  let api := get3 def.2 in
  func ← cast_Function (getNamedValue clone (functionObject decls));
  cfunc ← (if negb (bool_decide (functionObject decls = ""))
           then Some <$> cast_Function (getNamedValue clone (functionObject decls))
           else mret None);
  '(fvars, cfunc_id) ←
    match cfunc with
    | Some cfunc =>
        li ← deref (method_instances rt !! this_li);
        if bool_decide (rettype li = rettype_) then
          let fvars := desc.jl_sysimg_fvars data ++ [fn_name cfunc] in
          mret (fvars, to_uint32 (vec_size fvars))
        else mret (desc.jl_sysimg_fvars data, 0)
    | None => mret (desc.jl_sysimg_fvars data, 0)
    end;
  let fvars := fvars ++ [fn_name func] in
  let func_id := to_uint32 (vec_size fvars) in
  mret {| desc.M := clone;
          desc.jl_sysimg_fvars := fvars;
          desc.jl_sysimg_gvars := desc.jl_sysimg_gvars data;
          desc.jl_fvar_map :=
            <[this_li := (api, cfunc_id, func_id)]> (desc.jl_fvar_map data) |}.

(** Body of the loop over the functions of the clone, lines 328-334. *)
Definition internalize (rt : runtime) (F : Function) : result Function :=
  if negb (isDeclaration F)
  then addComdat rt false (fn_setLinkage InternalLinkage F)
  else mret F.

(** [cast<llvm::GlobalValue>(VMap[v])]: the clone's value for a value of
    the module that was cloned; a value of another module has none, and
    the null pointer is treated as in [cast_Function]. *)
Definition VMap_lookup {cfg : BuildConfig} (cloned : Module) (v : string)
  : result string :=
  cast (if hasNamedValue cloned v then Some v else None) (Abort WildPointer).

(** The compile loops of [jl_create_native], lines 271-301. *)
Definition compile_all (fuel : nat) (methods : list Z) (s : runtime)
  : result driver :=
  let d := {| emitted := ∅; workqueue := []; calls := []; env := s |} in
  for_each (compile_pass fuel methods) d [2; 1].

(** [jl_create_native(methods)]. [fuel] bounds each drain of the work
    queue. *)
Definition jl_create_native (fuel : nat) (methods : list Z) (s : runtime)
  : result (desc.t * runtime) :=
  d ← compile_all fuel methods s;
  let s := env d in
  (* clones the contents of the module to the shadow_output collector *)
  let clone := shadow_output s in
  data ← for_each (merge_entry s)
           {| desc.M := clone; desc.jl_sysimg_fvars := [];
              desc.jl_sysimg_gvars := []; desc.jl_fvar_map := ∅ |}
           (std_map_entries (emitted d));
  fs ← mapM (internalize s) (mod_functions (desc.M data));
  gvars ← mapM (VMap_lookup (shadow_output s)) (jl_sysimg_gvars s);
  mret ({| desc.M := Module_with_functions fs (desc.M data);
           desc.jl_sysimg_fvars := desc.jl_sysimg_fvars data;
           desc.jl_sysimg_gvars := gvars;
           desc.jl_fvar_map := desc.jl_fvar_map data |}, s).
End Driver.

(* ================================================================== *)
(** ** Emission: [jl_dump_native] *)

(** The stages the pass manager is loaded with. A writer stage carries the
    name of the file its stream was opened on. *)
Inductive Pass :=
  | TargetPasses                       (* addTargetPasses *)
  | BitcodeWriterPass (os : string)    (* createBitcodeWriterPass *)
  | OptimizationPasses (opt_level : Z) (* addOptimizationPasses *)
  | ObjectFilePasses (os : string).    (* addPassesToEmitFile *)

(** What a writer stage leaves in its file: the module it saw. *)
Inductive artifact :=
  | Bitcode (m : Module)
  | ObjectFile (m : Module).

(** What one call of [jl_dump_native] leaves behind outside the process
    state: the files written, in the order of the pipeline, the lines
    printed by [jl_safe_printf], and the module as the pipeline got it. *)
Record emission := {
  written : list (string * artifact);
  diagnostics : list string;
  emitted_module : Module;
}.

(** The line feed of the format ["%s\n"]. *)
Definition newline : string := String (Ascii.ascii_of_nat 10) EmptyString.

(** The line printed when a destination cannot be opened; [flag] is the
    command-line flag the message names. *)
Definition open_error (flag fname msg : string) : string :=
  "ERROR: failed to open " +:+ flag +:+ " file '" +:+ fname +:+ "': "
  +:+ msg +:+ newline.

Definition no_object_files : string :=
  "ERROR: target does not support generation of object files" +:+ newline.

Section Emission.
Context {cfg : BuildConfig} {eng : Collaborators}.

(** [PM.run(M)]: the stages run in the order they were added. *)
Fixpoint PM_run (PM : list Pass) (m : Module)
  : list (string * artifact) :=
  match PM with
  | [] => []
  | TargetPasses :: PM' => PM_run PM' m
  | BitcodeWriterPass os :: PM' => (os, Bitcode m) :: PM_run PM' m
  | OptimizationPasses lvl :: PM' => PM_run PM' (run_optimization lvl m)
  | ObjectFilePasses os :: PM' => (os, ObjectFile m) :: PM_run PM' m
  end.

(** The three blocks that open a destination, lines 390-438. Each returns
    the stages it adds and the lines it prints. *)
Definition open_unopt_bc (unopt_bc_fname : option string)
  : list Pass * list string :=
  match unopt_bc_fname with
  | Some fname =>
      match openFileForWrite fname with
      | Some msg =>
          ([], [open_error "--output-unopt-bc" fname msg])
      | None => ([BitcodeWriterPass fname], [])
      end
  | None => ([], [])
  end.

Definition open_bc (bc_fname : option string) : list Pass * list string :=
  match bc_fname with
  | Some fname =>
      match openFileForWrite fname with
      | Some msg =>
          ([], [open_error "--output-bc" fname msg])
      | None => ([BitcodeWriterPass fname], [])
      end
  | None => ([], [])
  end.

Definition open_obj (obj_fname : option string) : list Pass * list string :=
  match obj_fname with
  | Some fname =>
      match openFileForWrite fname with
      | Some msg =>
          ([], [open_error "--output-o" fname msg])
      | None =>
          if addPassesToEmitFile
          then ([], [no_object_files])
          else ([ObjectFilePasses fname], [])
      end
  | None => ([], [])
  end.

(** The pass manager as loaded before the run, and the lines printed. *)
Definition build_pipeline (bc_fname unopt_bc_fname obj_fname : option string)
  : list Pass * list string :=
  let PM := [TargetPasses] in
  (* set up optimization passes *)
  let '(p1, e1) := open_unopt_bc unopt_bc_fname in
  let PM := PM ++ p1 in
  let PM := if bool_decide (is_Some bc_fname) || bool_decide (is_Some obj_fname)
            then PM ++ [OptimizationPasses jl_options_opt_level] else PM in
  let '(p2, e2) := open_bc bc_fname in
  let PM := PM ++ p2 in
  let '(p3, e3) := open_obj obj_fname in
  let PM := PM ++ p3 in
  (PM, e1 ++ e2 ++ e3).

(** Lines 440-452: the session module is retargeted and, in imaging
    mode, given its metadata. *)
Definition prepare_module (data : desc.t) (sysimg_data : option (list Z))
    (sysimg_len : Z) (s : runtime) : result desc.t :=
  (* Reset the target triple to make sure it matches the new target machine *)
  let data := desc.set_M (setTargetTriple TM_getTargetTriple (desc.M data)) data in
  let DL := if bool_decide (40000 ≤ JL_LLVM_VERSION)
            then TM_createDataLayout +:+ "-ni:10:11:12"
            else TM_createDataLayout in
  let data := desc.set_M (setDataLayout DL (desc.M data)) data in
  (* add metadata information *)
  if imaging_mode s
  then jl_gen_llvm_globaldata data sysimg_data sysimg_len s
  else mret data.

(** [jl_dump_native(native_code, bc_fname, unopt_bc_fname, obj_fname,
    sysimg_data, sysimg_len)]. The session is consumed. *)
Definition jl_dump_native (data : desc.t)
    (bc_fname unopt_bc_fname obj_fname : option string)
    (sysimg_data : option (list Z)) (sysimg_len : Z) (s : runtime)
  : result (emission * runtime) :=
  let '(PM, errs) := build_pipeline bc_fname unopt_bc_fname obj_fname in
  data ← prepare_module data sysimg_data sysimg_len s;
  (* do the actual work *)
  let out := PM_run PM (desc.M data) in
  mret ({| written := out; diagnostics := errs;
           emitted_module := desc.M data |},
        set_imaging_mode false s).
End Emission.

(* ================================================================== *)
(** ** [jl_add_to_shadow] *)

Section AddToShadow.
Context {cfg : BuildConfig}.

(** [jl_add_to_shadow(m)]: clones the contents of the module [m] to the
    [shadow_output] collector. The loop over the functions of the clone,
    lines 467-473, has the body of the loop of [jl_create_native]; the
    parent of a function of the clone is the clone, not [shadow_output]. *)
Definition jl_add_to_shadow (m : Module) (s : runtime) : result runtime :=
  fs ← mapM (internalize s) (mod_functions m);
  let clone := Module_with_functions fs m in
  shadow ← jl_merge_module (shadow_output s) clone;
  mret (set_shadow_output shadow s).
End AddToShadow.

(** The process state before anything was compiled. *)
Definition empty_module : Module :=
  {| mod_globals := []; mod_functions := [];
     mod_targetTriple := ""; mod_dataLayout := "" |}.

Definition initial_runtime (imaging : bool) : runtime :=
  {| imaging_mode := imaging; globalUnique := 0;
     shadow_output := empty_module; juliapersonality_func := None;
     jl_sysimg_gvars := []; jl_value_to_llvm := ∅;
     jl_ExecutionEngine := []; slots := [];
     jl_world_counter := 1; jl_typeinf_world := 0;
     method_instances := ∅ |}.


(* ================================================================== *)
(** ** Predicates used to state the properties *)

(** *** Names built from a prefix and the counter *)

Definition is_digit (a : Ascii.ascii) : bool :=
  (48 <=? Ascii.nat_of_ascii a)%nat && (Ascii.nat_of_ascii a <=? 57)%nat.

Fixpoint all_digits (s : string) : bool :=
  match s with
  | EmptyString => true
  | String a s' => is_digit a && all_digits s'
  end.

Fixpoint ends_in_digit (s : string) : bool :=
  match s with
  | EmptyString => false
  | String a EmptyString => is_digit a
  | String _ s' => ends_in_digit s'
  end.

(** *** The registry *)


(** The index of a registered address is the 1-based position of its
    symbol in [jl_sysimg_gvars], and the vector fits the [int32_t] index. *)
Definition registry_indexed (s : runtime) : Prop :=
  vec_size (jl_sysimg_gvars s) < 2 ^ 31
  ∧ ∀ p it, jl_value_to_llvm s !! p = Some it →
      1 ≤ index it ≤ vec_size (jl_sysimg_gvars s)
      ∧ jl_sysimg_gvars s !! Z.to_nat (index it - 1) = Some (gv_name (gv it)).

(** The values of [jl_sysimg_gvars] are values of the shadow module. *)
Definition registry_in_shadow (s : runtime) : Prop :=
  ∀ v, v ∈ jl_sysimg_gvars s → v ∈ Module_names (shadow_output s).

(** The largest index held by a registered address, 0 when there is none. *)
Definition high_water_index (s : runtime) : Z :=
  map_fold (λ _ it acc, Z.max (index it) acc) 0 (jl_value_to_llvm s).

(** *** Globals and tables *)

(** Two globals that differ at most in what [addComdat] sets. *)
Definition same_definition (g g' : GlobalVariable) : Prop :=
  gv_name g' = gv_name g ∧ gv_type g' = gv_type g
  ∧ gv_isConstant g' = gv_isConstant g
  ∧ gv_initializer g' = gv_initializer g
  ∧ gv_linkage g' = gv_linkage g.

(** The elements of a global initialized with a constant array. *)
Definition table_elements (g : GlobalVariable) : list Constant :=
  match gv_initializer g with
  | Some (ConstantArray _ elts) => elts
  | _ => []
  end.

(** *** The compile loops *)

(** A log of code-generator calls in which no identity is passed again once
    a call for it has returned an IR fragment. *)
Inductive calls_ok : list (Z * bool) → Prop :=
  | calls_ok_nil : calls_ok []
  | calls_ok_snoc l mi b :
      calls_ok l → (mi, true) ∉ l → calls_ok (l ++ [(mi, b)]).

(** The identities of the calls that returned an IR fragment, one
    element for each such call, in the order of the log. *)
Definition succeeded (log : list (Z * bool)) : list Z :=
  (filter (λ c : Z * bool, c.2 = true) log).*1.

(** Lines 287-292: the identity, the source and the process state with
    which a root reaches the test [emitted.count(mi)], after decompression
    of a stored source and, when there is none, inference. *)
Definition root_source {eng : Collaborators} (world mi : Z)
    (li : jl_method_instance_t) (rt : runtime) : Z * Z * runtime :=
  let src := inferred li in
  let src := if negb (bool_decide (src = 0))
                && negb (bool_decide (src = jl_nothing))
             then jl_uncompress_ast (def_method li) src else src in
  if bool_decide (src = 0) || negb (jl_is_code_info src)
  then jl_type_infer mi world 0 rt
  else (mi, src, rt).

(** The invariant of the compile loops: the log is as above, and the
    identities in [emitted] are those with a successful call. *)
Definition driver_ok (d : driver) : Prop :=
  calls_ok (calls d)
  ∧ ∀ mi, (mi, true) ∈ calls d ↔ is_Some (emitted d !! mi).

(** The invariant of the merge loop, for function tables within the range
    of the [uint32_t] indices: a recorded triple belongs to an entry already
    merged, its generic index is the 1-based position of that entry's generic
    function, and its specialized index is 0 or the position just before. *)
Definition triples_ok (seen : list (Z * jl_compile_result_t)) (data : desc.t)
  : Prop :=
  vec_size (desc.jl_sysimg_fvars data) < 2 ^ 32 →
  ∀ mi api c f,
    desc.jl_fvar_map data !! mi = Some (api, c, f) →
    ∃ r, (mi, r) ∈ seen ∧ api = get3 r
         ∧ 1 ≤ f ≤ vec_size (desc.jl_sysimg_fvars data)
         ∧ desc.jl_sysimg_fvars data !! Z.to_nat (f - 1)
             = Some (functionObject (get1 r))
         ∧ (c = 0 ∨ 1 ≤ c ∧ c = f - 1).

(** *** The files of an emission *)

(** What the writer of a destination leaves in its file: nothing when the
    destination was not requested or could not be opened. *)
Definition written_if_opened {eng : Collaborators} (fname : option string)
    (a : artifact) : list (string * artifact) :=
  match fname with
  | Some f =>
      match openFileForWrite f with
      | None => [(f, a)]
      | Some _ => []
      end
  | None => []
  end.

(** The data layout [jl_dump_native] gives the module. *)
Definition emission_data_layout {cfg : BuildConfig} {eng : Collaborators}
  : string :=
  if bool_decide (40000 ≤ JL_LLVM_VERSION)
  then TM_createDataLayout +:+ "-ni:10:11:12"
  else TM_createDataLayout.

(* ================================================================== *)
(** ** Concrete collaborators and states, used to run the model *)

Module Scenario.

(** A 64-bit Linux build against LLVM 6, with assertions. *)
#[export] Instance linux64 : BuildConfig := {|
  OS_WINDOWS := false; COMPILER_MICROSOFT := false; CPU_X86_64 := true;
  sizeof_size_t := 8; JL_LLVM_VERSION := 60000; JL_NDEBUG := false;
  LLVM_ASSERTIONS := true;
|}.

(** The same build without assertions. *)
Definition linux64_release : BuildConfig := {|
  OS_WINDOWS := false; COMPILER_MICROSOFT := false; CPU_X86_64 := true;
  sizeof_size_t := 8; JL_LLVM_VERSION := 60000; JL_NDEBUG := true;
  LLVM_ASSERTIONS := false;
|}.

Definition T_prjlvalue : llvm_type := PointerTy (OpaqueTy "jl_value_t").

(** A defined function of the given name. *)
Definition define (name : string) : Function :=
  {| fn_name := name; fn_type := OpaqueTy "jl_fptr_t"; fn_hasBody := true;
     fn_linkage := ExternalLinkage; fn_comdat := None;
     fn_dllStorage := DefaultStorageClass; fn_personality := None |}.

Definition fragment (names : list string) : Module :=
  {| mod_globals := []; mod_functions := define <$> names;
     mod_targetTriple := ""; mod_dataLayout := "" |}.

(** What the table-driven code generator answers for one identity: the
    result tuple and the callees it enqueues. *)
Definition answer : Type := jl_compile_result_t * list Z.

Definition no_code : answer :=
  ((None, {| functionObject := ""; specFunctionObject := "" |}, 0, 0), []).

(** A code generator that answers from a table, an inference engine that
    keeps the instance and returns source [1], a file system where the
    names in [unwritable] cannot be opened, and a target that emits object
    files unless [no_obj]. *)
Definition engine (table : Z → answer) (unwritable : list string)
    (no_obj : bool) : Collaborators := {|
  jl_nothing := 2;
  jl_uncompress_ast := λ _ src, src;
  jl_is_code_info := λ src, bool_decide (src = 1);
  jl_type_infer := λ mi _ _ rt, (mi, 1, rt);
  jl_compile_linfo1 := λ mi _ _ wq _ rt, ((table mi).1, wq ++ (table mi).2, rt);
  run_optimization := λ lvl m, setDataLayout (mod_dataLayout m +:+ "-O") m;
  jl_options_opt_level := 2;
  openFileForWrite := λ fname,
    if bool_decide (fname ∈ unwritable) then Some "Permission denied" else None;
  addPassesToEmitFile := no_obj;
  TM_getTargetTriple := "x86_64-unknown-linux-gnu";
  TM_createDataLayout := "e-m:e-i64:64-f80:128-n8:16:32:64-S128";
|}.

(** A specialization valid from world 1 on, with return type [rt]. *)
Definition instance (rt : Z) : jl_method_instance_t :=
  {| min_world := 1; max_world := 2 ^ 64 - 1; inferred := 0;
     def_method := 0; rettype := rt |}.

(** The shadow module after start-up: it declares the runtime handle
    [jl_RTLD_DEFAULT_handle]. *)
Definition booted_module : Module :=
  {| mod_globals :=
       [new_GlobalVariable (PointerTy (IntegerTy 8)) true ExternalLinkage None
          "jl_RTLD_DEFAULT_handle"];
     mod_functions := []; mod_targetTriple := ""; mod_dataLayout := "" |}.

(** A process with the given specializations at world 5; inference runs
    at world 3. *)
Definition process (imaging : bool) (mis : list (Z * jl_method_instance_t))
  : runtime :=
  {| imaging_mode := imaging; globalUnique := 0;
     shadow_output := booted_module; juliapersonality_func := None;
     jl_sysimg_gvars := []; jl_value_to_llvm := ∅;
     jl_ExecutionEngine := []; slots := [];
     jl_world_counter := 5; jl_typeinf_world := 3;
     method_instances := list_to_map mis |}.

(** Root [100]: one generic entry point ["jfptr_f_1"], no specialized
    entry, no callees; code generation reports the return type [50] and
    the flag [1]. *)
Definition generic_only (mi : Z) : answer :=
  if bool_decide (mi = 100)
  then ((Some (fragment ["jfptr_f_1"]),
         {| functionObject := "jfptr_f_1"; specFunctionObject := "" |}, 50, 1), [])
  else no_code.

(** Root [200]: a generic entry point ["jfptr_g_2"] and a specialized
    entry point ["julia_g_2"]. *)
Definition with_specialized (mi : Z) : answer :=
  if bool_decide (mi = 200)
  then ((Some (fragment ["julia_g_2"; "jfptr_g_2"]),
         {| functionObject := "jfptr_g_2"; specFunctionObject := "julia_g_2" |},
         50, 1), [])
  else no_code.

(** An empty session over an empty module. *)
Definition empty_session : desc.t :=
  {| desc.M := empty_module; desc.jl_sysimg_fvars := [];
     desc.jl_sysimg_gvars := []; desc.jl_fvar_map := ∅ |}.

(** Roots [200] and [300] call each other: each enqueues the other. *)
Definition mutual_callers (mi : Z) : answer :=
  if bool_decide (mi = 200)
  then ((Some (fragment ["jfptr_g_2"]),
         {| functionObject := "jfptr_g_2"; specFunctionObject := "" |}, 50, 1),
        [300])
  else if bool_decide (mi = 300)
  then ((Some (fragment ["jfptr_h_3"]),
         {| functionObject := "jfptr_h_3"; specFunctionObject := "" |}, 51, 1),
        [200])
  else no_code.

(** No specialization compiles. *)
Definition nothing_compiles (mi : Z) : answer := no_code.

(** The engine used below unless said otherwise: root [200] compiles,
    every file opens, object files are supported. *)
Definition plain : Collaborators := engine with_specialized [] false.

(** A process in persistence mode that knows specialization [200] and has
    interned the address [4096]. *)
Definition interned : runtime :=
  match jl_get_global_for "jl_global#" 4096 empty_module T_prjlvalue
          (process true [(200, instance 50)]) with
  | Ok (_, _, s) => s
  | Abort _ => process true [(200, instance 50)]
  end.

(** The session created there from the root [200]. *)
Definition session200 : desc.t :=
  match jl_create_native (eng := plain) 1 [200] interned with
  | Ok (data, _) => data
  | Abort _ => empty_session
  end.

(** A 64-bit Windows build with the Microsoft compiler, with
    assertions. *)
Definition win64 : BuildConfig := {|
  OS_WINDOWS := true; COMPILER_MICROSOFT := true; CPU_X86_64 := true;
  sizeof_size_t := 8; JL_LLVM_VERSION := 60000; JL_NDEBUG := false;
  LLVM_ASSERTIONS := true;
|}.

(** A process in persistence mode whose personality routine is, or is
    not, a function of the shadow module. *)
Definition with_personality (in_shadow : bool) : runtime :=
  {| imaging_mode := true; globalUnique := 0;
     shadow_output := booted_module;
     juliapersonality_func :=
       Some {| pf_name := "__julia_personality"; pf_in_shadow := in_shadow |};
     jl_sysimg_gvars := []; jl_value_to_llvm := ∅;
     jl_ExecutionEngine := []; slots := [];
     jl_world_counter := 5; jl_typeinf_world := 3;
     method_instances := ∅ |}.

(** A specialization that was valid in the worlds 1 to [w] only. *)
Definition valid_until (w rt : Z) : jl_method_instance_t :=
  {| min_world := 1; max_world := w; inferred := 0;
     def_method := 0; rettype := rt |}.

(** A module with one defined function and one declaration. *)
Definition library : Module :=
  {| mod_globals := [];
     mod_functions :=
       [define "julia_h_3";
        {| fn_name := "memcpy"; fn_type := OpaqueTy "fn"; fn_hasBody := false;
           fn_linkage := ExternalLinkage; fn_comdat := None;
           fn_dllStorage := DefaultStorageClass; fn_personality := None |}];
     mod_targetTriple := ""; mod_dataLayout := "" |}.

End Scenario.

(* ================================================================== *)
(** * Properties *)

(** ** Outcomes and loops *)

Lemma bind_Ok_inv {A B} (m : result A) (f : A → result B) (b : B) :
  m ≫= f = Ok b → ∃ a, m = Ok a ∧ f a = Ok b.
Proof. destruct m as [a|w]; simpl; [eauto | discriminate]. Qed.

Lemma assert_Ok_inv {cfg : BuildConfig} (b : bool) (u : unit) :
  JL_NDEBUG = false → assert b = Ok u → b = true.
Proof. unfold assert. intros ->. destruct b; [done | discriminate]. Qed.

(** A cast that has nothing to go on with returns only for a pointer of
    the right class. *)
Lemma cast_Ok_inv {cfg : BuildConfig} {A} (p : option A) (w : failure) (a : A) :
  cast p (Abort w) = Ok a → p = Some a.
Proof.
  unfold cast. destruct p; [by intros [= ->]|]. by destruct LLVM_ASSERTIONS.
Qed.

Lemma assert_NDEBUG {cfg : BuildConfig} (b : bool) :
  JL_NDEBUG = true → assert b = Ok tt.
Proof. unfold assert. by intros ->. Qed.

(** An invariant of the loop body is an invariant of the loop. *)
Lemma for_each_invariant {A B} (P : A → Prop) (body : A → B → result A) l :
  (∀ a b a', P a → body a b = Ok a' → P a') →
  ∀ a a', P a → for_each body a l = Ok a' → P a'.
Proof.
  intros Hbody. induction l as [|b l IH]; intros a a' Ha; simpl.
  - by intros [= <-].
  - intros Hrun. apply bind_Ok_inv in Hrun as (a1 & Hb & Hrun). eauto.
Qed.

(** The same, for an invariant that mentions the elements already seen. *)
Lemma for_each_prefix {A B} (P : list B → A → Prop) (body : A → B → result A) :
  (∀ seen a b a', P seen a → body a b = Ok a' → P (seen ++ [b]) a') →
  ∀ l seen a a', P seen a → for_each body a l = Ok a' → P (seen ++ l) a'.
Proof.
  intros Hbody. induction l as [|b l IH]; intros seen a a' Ha; simpl.
  - intros [= <-]. by rewrite app_nil_r.
  - intros Hrun. apply bind_Ok_inv in Hrun as (a1 & Hb & Hrun).
    rewrite (assoc_L _ seen [b] l : seen ++ b :: l = (seen ++ [b]) ++ l).
    eauto.
Qed.

(** A loop whose body always returns, returns. *)
Lemma mapM_total {A B} (f : A → result B) (l : list A) :
  (∀ a, ∃ b, f a = Ok b) → ∃ k, mapM f l = Ok k.
Proof.
  intros Hf. induction l as [|a l [k IH]]; simpl; [by eexists|].
  destruct (Hf a) as [b ->]. simpl. rewrite IH. simpl. by eexists.
Qed.

(** ** Integers and names *)

Lemma to_uint32_small z : 0 ≤ z < 2 ^ 32 → to_uint32 z = z.
Proof. intros Hz. unfold to_uint32. by rewrite Z.mod_small. Qed.

Lemma to_int32_small z : 0 ≤ z < 2 ^ 31 → to_int32 z = z.
Proof. intros Hz. unfold to_int32. rewrite Z.mod_small; lia. Qed.

Lemma vec_size_app {A} (l k : list A) :
  vec_size (l ++ k) = vec_size l + vec_size k.
Proof. unfold vec_size. rewrite length_app. lia. Qed.

Lemma vec_size_nonneg {A} (l : list A) : 0 ≤ vec_size l.
Proof. unfold vec_size. lia. Qed.

Lemma lookup_at_size {A} (l ext : list A) (k : nat) x :
  ext !! k = Some x → (l ++ ext) !! Z.to_nat (vec_size l + Z.of_nat k) = Some x.
Proof.
  intros Hk. unfold vec_size.
  replace (Z.to_nat (Z.of_nat (length l) + Z.of_nat k))
    with (length l + k)%nat by lia.
  rewrite lookup_app_r by lia.
  by replace (length l + k - length l)%nat with k by lia.
Qed.

Lemma all_digits_app s t :
  all_digits (s +:+ t) = all_digits s && all_digits t.
Proof.
  induction s as [|a s IH]; [done|].
  change (is_digit a && all_digits (s +:+ t)
          = is_digit a && all_digits s && all_digits t).
  rewrite IH. by rewrite andb_assoc.
Qed.

Lemma all_digits_ends s :
  s ≠ EmptyString → all_digits s = true → ends_in_digit s = true.
Proof.
  induction s as [|a s IH]; [done|]. intros _ Hall. simpl in Hall.
  apply andb_true_iff in Hall as [Ha Hs].
  destruct s as [|b s]; [done|].
  change (ends_in_digit (String b s) = true). apply IH; done.
Qed.

Lemma ends_in_digit_tail a s :
  ends_in_digit (String a s) = false → ends_in_digit s = false.
Proof. destruct s; done. Qed.

Lemma append_digits_inj c1 c2 d1 d2 :
  ends_in_digit c1 = false → ends_in_digit c2 = false →
  all_digits d1 = true → all_digits d2 = true →
  c1 +:+ d1 = c2 +:+ d2 → c1 = c2 ∧ d1 = d2.
Proof.
  revert c2. induction c1 as [|a c1 IH]; intros [|b c2] H1 H2 Hd1 Hd2 Heq.
  - done.
  - change (d1 = String b c2 +:+ d2) in Heq. subst d1.
    rewrite all_digits_app in Hd1. apply andb_true_iff in Hd1 as [Hc _].
    apply all_digits_ends in Hc; [congruence | done].
  - change (String a c1 +:+ d1 = d2) in Heq. subst d2.
    rewrite all_digits_app in Hd2. apply andb_true_iff in Hd2 as [Hc _].
    apply all_digits_ends in Hc; [congruence | done].
  - change (String a (c1 +:+ d1) = String b (c2 +:+ d2)) in Heq.
    injection Heq as -> Heq.
    apply IH in Heq as [-> ->]; eauto using ends_in_digit_tail.
Qed.

Lemma all_digits_uint (u : Decimal.uint) :
  all_digits (NilEmpty.string_of_uint u) = true.
Proof. induction u; simpl; done. Qed.

Lemma string_of_Z_digits (k : Z) : 0 ≤ k → all_digits (string_of_Z k) = true.
Proof.
  intros Hk. unfold string_of_Z.
  destruct k as [|p|p]; [done| |lia].
  simpl. unfold NilZero.string_of_uint.
  destruct (Pos.to_uint p); try apply all_digits_uint. done.
Qed.

Lemma string_of_Z_inj (a b : Z) : string_of_Z a = string_of_Z b → a = b.
Proof.
  unfold string_of_Z. intros Heq.
  assert (Hnil : ∀ z, Z.to_int z ≠ Decimal.Pos Decimal.Nil
                      ∧ Z.to_int z ≠ Decimal.Neg Decimal.Nil).
  { intros z. split; intros Hz; pose proof (f_equal Z.of_int Hz) as Hz';
      rewrite DecimalZ.of_to in Hz'; subst z; discriminate Hz. }
  assert (Some (Z.to_int a) = Some (Z.to_int b)) as Hint.
  { rewrite <- (NilZero.isi (Z.to_int a)), <- (NilZero.isi (Z.to_int b));
      try apply Hnil. by rewrite Heq. }
  injection Hint as Hint. apply (f_equal Z.of_int) in Hint.
  by rewrite !DecimalZ.of_to in Hint.
Qed.

(** Two names with prefixes that do not end in a digit and non-negative
    counters agree only when prefix and counter agree. *)
Lemma placeholder_inj c1 c2 k1 k2 :
  ends_in_digit c1 = false → ends_in_digit c2 = false →
  0 ≤ k1 → 0 ≤ k2 →
  c1 +:+ string_of_Z k1 = c2 +:+ string_of_Z k2 → c1 = c2 ∧ k1 = k2.
Proof.
  intros H1 H2 Hk1 Hk2 Heq.
  apply append_digits_inj in Heq as [-> Hd]; auto using string_of_Z_digits.
  split; [done|]. by apply string_of_Z_inj.
Qed.

(** The counter at its last value: the next value is the first negative
    one, it is rendered with its sign, and one more than the last value is
    written to a 64-bit global as the sign-extended sum. *)
Example counter_at_INT_MAX :
  to_int32 (2147483647 + 1) = -2147483648
  ∧ string_of_Z (to_int32 (2147483647 + 1)) = "-2147483648"
  ∧ ConstantInt_get (IntegerTy 64) (to_uint64 (to_int32 (2147483647 + 1)))
      = ConstantInt (IntegerTy 64) 18446744071562067968.
Proof. split; [reflexivity|]. split; reflexivity. Qed.

(** Without that discipline two different requests can build one name:
    prefix ["a1"] at counter 2 and prefix ["a"] at counter 12. *)
Example placeholder_clash :
  "a1" +:+ string_of_Z 2 = "a" +:+ string_of_Z 12.
Proof. reflexivity. Qed.

(** A negative integer is rendered with a minus sign before the digits of
    its absolute value. *)
Lemma string_of_Z_neg (k : Z) :
  k < 0 → string_of_Z k = "-" +:+ string_of_Z (- k).
Proof. destruct k as [|p|p]; [lia|lia|]. intros _. reflexivity. Qed.

Lemma append_assoc (a b c : string) : a +:+ (b +:+ c) = (a +:+ b) +:+ c.
Proof.
  induction a as [|x a IH]; [done|].
  change (String x (a +:+ (b +:+ c)) = String x ((a +:+ b) +:+ c)).
  by rewrite IH.
Qed.

Lemma ends_in_minus c : ends_in_digit (c +:+ "-") = false.
Proof.
  induction c as [|x c IH]; [done|].
  change (ends_in_digit (String x (c +:+ "-")) = false).
  destruct c as [|y c]; [done|]. exact IH.
Qed.

(** The step of an [int] counter: the next value differs from the old one
    by 1 modulo [2 ^ 32]. *)
Lemma to_int32_succ k : ∃ q, k + 1 = to_int32 (k + 1) + 4294967296 * q.
Proof.
  unfold to_int32. change (2 ^ 32) with 4294967296.
  change (2 ^ 31) with 2147483648.
  exists ((k + 1 + 2147483648) / 4294967296).
  pose proof (Z.div_mod (k + 1 + 2147483648) 4294967296). lia.
Qed.

Lemma to_int32_range z : - 2 ^ 31 ≤ to_int32 z < 2 ^ 31.
Proof.
  unfold to_int32. change (2 ^ 32) with 4294967296.
  change (2 ^ 31) with 2147483648.
  pose proof (Z.mod_pos_bound (z + 2147483648) 4294967296). lia.
Qed.

(** The name built at a non-negative counter differs from the name built
    at the counter's next value, also when the counter wraps to
    [- 2 ^ 31] there. *)
Lemma placeholder_next_fresh c1 c2 k :
  ends_in_digit c1 = false → ends_in_digit c2 = false → 0 ≤ k →
  c1 +:+ string_of_Z k ≠ c2 +:+ string_of_Z (to_int32 (k + 1)).
Proof.
  intros H1 H2 Hk Heq. destruct (to_int32_succ k) as [q Hq].
  destruct (decide (0 ≤ to_int32 (k + 1))) as [Hpos|Hneg].
  - apply placeholder_inj in Heq as [_ Hsame]; [lia|done..].
  - rewrite (string_of_Z_neg (to_int32 (k + 1))), append_assoc in Heq by lia.
    apply placeholder_inj in Heq as [_ Hsame];
      [lia|done|apply ends_in_minus|done|lia].
Qed.

(* ================================================================== *)
(** ** [addComdat] *)

Section AddComdatProperties.
Context {cfg : BuildConfig}.

Lemma addComdat_gv_same s b (g g' : GlobalVariable) :
  addComdat s b g = Ok g' → same_definition g g'.
Proof.
  unfold addComdat. intros Hadd.
  destruct (_ && _ && _) in Hadd; [|by injection Hadd as <-].
  apply bind_Ok_inv in Hadd as (G1 & HG1 & Hadd). injection Hadd as <-.
  assert (same_definition g G1) as (Hn & Ht & Hc & Hi & Hl).
  { destruct b; [|by injection HG1 as <-].
    destruct CPU_X86_64.
    - apply bind_Ok_inv in HG1 as (u & _ & HG1). injection HG1 as <-.
      by destruct COMPILER_MICROSOFT.
    - injection HG1 as <-. by destruct COMPILER_MICROSOFT. }
  by destruct (bool_decide _).
Qed.

Lemma addComdat_gv_name s b (g g' : GlobalVariable) :
  addComdat s b g = Ok g' → gv_name g' = gv_name g.
Proof. intros Hadd. by apply addComdat_gv_same in Hadd as [? _]. Qed.

(** Outside the shadow module [addComdat] asserts nothing. *)
Lemma addComdat_session_total {T} `{GlobalObject T} s (G : T) :
  ∃ G', addComdat s false G = Ok G'.
Proof. unfold addComdat. repeat case_match; simpl; eauto. Qed.
End AddComdatProperties.

(* ================================================================== *)
(** ** The registry: [jl_emit_and_add_to_shadow], [jl_get_global_for] *)

Lemma prepare_global_in_name M G :
  gv_name (prepare_global_in M G).1 = gv_name G.
Proof.
  unfold prepare_global_in, getGlobalVariable.
  destruct (find _ _) as [local|] eqn:Hfind; simpl; [|done].
  apply find_some in Hfind as [_ Hname].
  by apply bool_decide_eq_true in Hname.
Qed.

Lemma getGlobalVariable_add_global_found g m name h :
  getGlobalVariable m name = Some h →
  getGlobalVariable (Module_add_global g m) name = Some h.
Proof.
  unfold getGlobalVariable, Module_add_global. simpl.
  induction (mod_globals m) as [|g0 gs IH]; simpl; [done|].
  destruct (bool_decide (gv_name g0 = name)); [done|]. exact IH.
Qed.

Lemma Module_names_add_global g m :
  gv_name g ∈ Module_names (Module_add_global g m).
Proof.
  unfold Module_names, Module_add_global. simpl.
  rewrite fmap_app. apply elem_of_app. left. apply elem_of_app. right.
  by apply list_elem_of_singleton.
Qed.

Lemma Module_names_add_global_mono v g m :
  v ∈ Module_names m → v ∈ Module_names (Module_add_global g m).
Proof.
  unfold Module_names, Module_add_global. simpl.
  rewrite fmap_app, !elem_of_app. intros [?|?]; [by left; left|by right].
Qed.

Section RegistryProperties.
Context {cfg : BuildConfig}.

(** The effect of [jl_emit_and_add_to_shadow] on the registry. *)
Lemma jl_emit_and_add_to_shadow_registry gv_ p s slot s' :
  jl_emit_and_add_to_shadow gv_ p s = Ok (slot, s') →
  globalUnique s' = globalUnique s
  ∧ imaging_mode s' = imaging_mode s
  ∧ (if imaging_mode s && negb (bool_decide (p = 0))
     then jl_sysimg_gvars s' = jl_sysimg_gvars s ++ [gv_name gv_]
          ∧ jl_value_to_llvm s' =
              <[p := {| gv := global_proto gv_;
                        index := to_int32
                          (vec_size (jl_sysimg_gvars s ++ [gv_name gv_])) |}]>
                (jl_value_to_llvm s)
     else jl_sysimg_gvars s' = jl_sysimg_gvars s
          ∧ jl_value_to_llvm s' = jl_value_to_llvm s)
  ∧ (if imaging_mode s
     then ∃ shadowvar, gv_name shadowvar = gv_name gv_
            ∧ shadow_output s' = Module_add_global shadowvar (shadow_output s)
     else shadow_output s' = shadow_output s).
Proof.
  unfold jl_emit_and_add_to_shadow. intros Hemit.
  apply bind_Ok_inv in Hemit as (T & HT & Hemit).
  apply bind_Ok_inv in Hemit as (s1 & Hs1 & Hemit).
  injection Hemit as <- <-.
  destruct (imaging_mode s) eqn:Himg.
  - apply bind_Ok_inv in Hs1 as (shadowvar & Hsv & Hs1).
    apply addComdat_gv_name in Hsv. simpl in Hsv.
    destruct (bool_decide (p = 0)); simpl in Hs1; injection Hs1 as <-;
      simpl; rewrite ?Hsv; eauto 10.
  - injection Hs1 as <-. simpl. done.
Qed.

(** A request for an address the registry does not know. *)
Lemma jl_get_global_for_miss cname addr M T s g M' s' :
  jl_value_to_llvm s !! addr = None →
  jl_get_global_for cname addr M T s = Ok (g, M', s') →
  gv_name g = cname +:+ string_of_Z (globalUnique s)
  ∧ globalUnique s' = to_int32 (globalUnique s + 1)
  ∧ imaging_mode s' = imaging_mode s
  ∧ (if imaging_mode s && negb (bool_decide (addr = 0))
     then jl_sysimg_gvars s' = jl_sysimg_gvars s ++ [gv_name g]
          ∧ jl_value_to_llvm s' =
              <[addr := {| gv := global_proto g;
                           index := to_int32
                             (vec_size (jl_sysimg_gvars s ++ [gv_name g])) |}]>
                (jl_value_to_llvm s)
     else jl_sysimg_gvars s' = jl_sysimg_gvars s
          ∧ jl_value_to_llvm s' = jl_value_to_llvm s)
  ∧ (if imaging_mode s
     then ∃ shadowvar, gv_name shadowvar = gv_name g
            ∧ shadow_output s' = Module_add_global shadowvar (shadow_output s)
     else shadow_output s' = shadow_output s).
Proof.
  unfold jl_get_global_for. intros -> Hget.
  apply bind_Ok_inv in Hget as ([slot s2] & Hemit & Hget).
  injection Hget as <- <- <-.
  by apply jl_emit_and_add_to_shadow_registry in Hemit
    as (HgU & Himg & Hreg & Hshadow).
Qed.

(** A request for a registered address. *)
Lemma jl_get_global_for_hit cname addr M T s it :
  jl_value_to_llvm s !! addr = Some it →
  ∃ g M', jl_get_global_for cname addr M T s = Ok (g, M', s)
          ∧ gv_name g = gv_name (gv it).
Proof.
  unfold jl_get_global_for. intros ->.
  pose proof (prepare_global_in_name M (gv it)) as Hname.
  destruct (prepare_global_in M (gv it)) as [g M']. eauto.
Qed.



(** [jl_emit_and_add_to_shadow], called directly, keeps indices and
    positions in step as well, also when it registers an address again. *)
Lemma registry_indexed_emit gv_ p s slot s' :
  registry_indexed s → vec_size (jl_sysimg_gvars s) + 1 < 2 ^ 31 →
  jl_emit_and_add_to_shadow gv_ p s = Ok (slot, s') →
  registry_indexed s'.
Proof.
  intros [Hsize Hidx] Hroom Hemit.
  apply jl_emit_and_add_to_shadow_registry in Hemit as (_ & _ & Hreg & _).
  unfold registry_indexed.
  destruct (imaging_mode s && negb (bool_decide (p = 0)));
    destruct Hreg as [-> ->]; [|done].
  pose proof (vec_size_nonneg (jl_sysimg_gvars s)) as Hnn.
  rewrite vec_size_app. change (vec_size [gv_name gv_]) with 1.
  split; [lia|]. intros q it Hq.
  destruct (decide (p = q)) as [->|Hne].
  - rewrite lookup_insert_eq in Hq. injection Hq as <-. simpl.
    rewrite to_int32_small by lia. split; [lia|].
    replace (vec_size (jl_sysimg_gvars s) + 1 - 1)
      with (vec_size (jl_sysimg_gvars s) + Z.of_nat 0) by lia.
    by apply lookup_at_size.
  - rewrite lookup_insert_ne in Hq by done.
    destruct (Hidx q it Hq) as [Hrange Hpos]. split; [lia|].
    rewrite lookup_app_l; [done|]. unfold vec_size in Hrange. lia.
Qed.

(** Index 0 is what [jl_get_llvm_gv] answers for an address that is not
    registered, and only for such an address. *)
Lemma jl_get_llvm_gv_zero p s :
  registry_indexed s →
  jl_get_llvm_gv p s = 0 ↔ jl_value_to_llvm s !! p = None.
Proof.
  intros [_ Hidx]. unfold jl_get_llvm_gv.
  destruct (jl_value_to_llvm s !! p) as [it|] eqn:Hp; [|done].
  destruct (Hidx p it Hp) as [Hrange _]. split; [lia|done].
Qed.

Lemma registry_indexed_initial b : registry_indexed (initial_runtime b).
Proof.
  split; [done|]. intros p it Hp. simpl in Hp. by rewrite lookup_empty in Hp.
Qed.

(** Registration keeps indices and positions in step, as long as the
    vector fits the index type. *)
Lemma registry_indexed_preserved cname addr M T s g M' s' :
  registry_indexed s → vec_size (jl_sysimg_gvars s) + 1 < 2 ^ 31 →
  jl_get_global_for cname addr M T s = Ok (g, M', s') →
  registry_indexed s'.
Proof.
  intros [Hsize Hidx] Hroom Hget.
  destruct (jl_value_to_llvm s !! addr) as [it|] eqn:Hlook.
  - destruct (jl_get_global_for_hit cname addr M T s it Hlook)
      as (g0 & M0 & Hhit & _).
    rewrite Hhit in Hget. injection Hget as <- <- <-. done.
  - apply jl_get_global_for_miss in Hget as (_ & _ & _ & Hreg & _); [|done].
    unfold registry_indexed.
    destruct (imaging_mode s && negb (bool_decide (addr = 0)));
      destruct Hreg as [-> ->]; [|done].
    pose proof (vec_size_nonneg (jl_sysimg_gvars s)) as Hnn.
    rewrite vec_size_app. change (vec_size [gv_name g]) with 1.
    split; [lia|]. intros p it Hp.
    destruct (decide (addr = p)) as [->|Hne].
    + rewrite lookup_insert_eq in Hp. injection Hp as <-. simpl.
      rewrite to_int32_small by lia. split; [lia|].
      replace (vec_size (jl_sysimg_gvars s) + 1 - 1)
        with (vec_size (jl_sysimg_gvars s) + Z.of_nat 0) by lia.
      by apply lookup_at_size.
    + rewrite lookup_insert_ne in Hp by done.
      destruct (Hidx p it Hp) as [Hrange Hpos]. split; [lia|].
      rewrite lookup_app_l; [done|]. unfold vec_size in Hrange. lia.
Qed.

Lemma registry_in_shadow_preserved cname addr M T s g M' s' :
  registry_in_shadow s →
  jl_get_global_for cname addr M T s = Ok (g, M', s') →
  registry_in_shadow s'.
Proof.
  intros Hin Hget.
  destruct (jl_value_to_llvm s !! addr) as [it|] eqn:Hlook.
  - destruct (jl_get_global_for_hit cname addr M T s it Hlook)
      as (g0 & M0 & Hhit & _).
    rewrite Hhit in Hget. injection Hget as <- <- <-. done.
  - apply jl_get_global_for_miss in Hget as (_ & _ & _ & Hreg & Hshadow);
      [|done].
    unfold registry_in_shadow. destruct (imaging_mode s); simpl in Hreg.
    + destruct Hshadow as (shadowvar & Hsv & ->).
      destruct (negb (bool_decide (addr = 0))); destruct Hreg as [-> _];
        intros v Hv.
      * apply elem_of_app in Hv as [Hv|Hv%list_elem_of_singleton].
        -- by apply Module_names_add_global_mono, Hin.
        -- subst v. rewrite <- Hsv. apply Module_names_add_global.
      * by apply Module_names_add_global_mono, Hin.
    + destruct Hreg as [-> _]. by rewrite Hshadow.
Qed.

End RegistryProperties.


(* ================================================================== *)
(** ** The compile loops *)

Lemma calls_ok_later l :
  calls_ok l →
  ∀ (i j : nat) mi mi' b,
    (i < j)%nat → l !! i = Some (mi, true) → l !! j = Some (mi', b) → mi' ≠ mi.
Proof.
  induction 1 as [|l mi0 b0 Hl IH Hfresh]; intros i j mi mi' b Hij Hi Hj.
  - by rewrite lookup_nil in Hi.
  - destruct (decide (j < length l)%nat) as [Hlt|Hge].
    + rewrite lookup_app_l in Hi by lia. rewrite lookup_app_l in Hj by lia.
      eauto.
    + apply lookup_lt_Some in Hj as Hjlen. rewrite length_app in Hjlen.
      simpl in Hjlen. assert (j = length l) as -> by lia.
      rewrite list_lookup_middle in Hj by done. injection Hj as <- <-.
      rewrite lookup_app_l in Hi by lia.
      intros ->. apply Hfresh. by eapply list_elem_of_lookup_2.
Qed.

Lemma std_map_entries_elem_of {V} (m : gmap Z V) k v :
  (k, v) ∈ std_map_entries m ↔ m !! k = Some v.
Proof.
  unfold std_map_entries. rewrite merge_sort_Permutation.
  apply elem_of_map_to_list.
Qed.

Lemma std_map_entries_NoDup {V} (m : gmap Z V) :
  NoDup (std_map_entries m).*1.
Proof.
  unfold std_map_entries. rewrite merge_sort_Permutation.
  apply NoDup_fst_map_to_list.
Qed.

Lemma std_map_entries_empty {V} : std_map_entries (∅ : gmap Z V) = [].
Proof. unfold std_map_entries. by rewrite map_to_list_empty. Qed.

Section DriverProperties.
Context {cfg : BuildConfig} {eng : Collaborators}.

(** The two passes exclude each other for a root: the first takes it only
    if it is no longer valid in the current world, the second only if it
    is. *)
Lemma root_in_one_pass world li rt :
  in_pass 2 world li rt = true →
  in_pass 1 (jl_world_counter rt) li rt = false.
Proof.
  unfold in_pass. rewrite (bool_decide_eq_false_2 (2 = 1)) by done. simpl.
  intros Hfirst. apply andb_true_iff in Hfirst as [Hfirst _].
  apply andb_true_iff in Hfirst as [Hmax _].
  apply bool_decide_eq_true in Hmax.
  rewrite (bool_decide_eq_false_2 (jl_world_counter rt ≤ max_world li)) by lia.
  by rewrite andb_false_r.
Qed.

(** A call of the code generator for an identity that is not in
    [emitted] keeps the invariant. *)
Lemma codegen_ok mi src world d :
  driver_ok d → emitted d !! mi = None →
  driver_ok (codegen mi src world d).
Proof.
  intros [Hcalls Hiff] Hnone. unfold codegen.
  destruct (jl_compile_linfo1 mi src world (workqueue d) false (env d))
    as [[result wq] rt].
  assert (Hfresh : (mi, true) ∉ calls d).
  { rewrite Hiff, Hnone. by intros [? ?]. }
  split; simpl.
  - by constructor.
  - intros mi'. rewrite elem_of_app, list_elem_of_singleton, Hiff.
    destruct (get0 result) as [m|] eqn:Hres.
    + rewrite bool_decide_eq_true_2 by eauto.
      destruct (decide (mi = mi')) as [->|Hne].
      * rewrite lookup_insert_eq. split; eauto.
      * rewrite lookup_insert_ne by done. split; [|by left].
        intros [?|?]; [done|congruence].
    + rewrite bool_decide_eq_false_2 by (by intros [? ?]).
      split; [|by left]. intros [?|?]; [done|congruence].
Qed.

Lemma compile_root_ok worlds world d mi d' :
  driver_ok d → compile_root worlds world d mi = Ok d' → driver_ok d'.
Proof.
  intros Hd. unfold compile_root. intros Hroot.
  apply bind_Ok_inv in Hroot as (li & _ & Hroot).
  destruct (in_pass _ _ _ _) in Hroot; [|by injection Hroot as <-].
  destruct (if _ || _ then _ else _) as [[mi' src] rt] in Hroot.
  destruct (bool_decide _) eqn:Hdec in Hroot; injection Hroot as <-.
  - done.
  - apply bool_decide_eq_false in Hdec. simpl in Hdec.
    apply (codegen_ok mi' src world (with_env rt d)); [done|].
    simpl. by apply eq_None_not_Some.
Qed.

Lemma jl_compile_workqueue_ok fuel world d d' :
  driver_ok d → jl_compile_workqueue fuel world d = Ok d' → driver_ok d'.
Proof.
  revert d. induction fuel as [|fuel IH]; intros d Hd; simpl.
  - destruct (workqueue d); [by intros [= <-]|done].
  - destruct (workqueue d) as [|mi rest]; [by intros [= <-]|].
    destruct (bool_decide _) eqn:Hdec; intros Hrun.
    + by apply IH in Hrun.
    + apply IH in Hrun; [done|].
      apply bool_decide_eq_false in Hdec. simpl in Hdec.
      apply (codegen_ok mi 0 world (with_workqueue rest d)); [done|].
      simpl. by apply eq_None_not_Some.
Qed.

(** An empty queue is drained whatever the fuel. *)
Lemma jl_compile_workqueue_nil fuel world d :
  workqueue d = [] → jl_compile_workqueue fuel world d = Ok d.
Proof. intros Hq. destruct fuel; simpl; by rewrite Hq. Qed.

Lemma compile_pass_ok fuel methods d worlds d' :
  driver_ok d → compile_pass fuel methods d worlds = Ok d' → driver_ok d'.
Proof.
  intros Hd. unfold compile_pass.
  destruct (bool_decide (_ = 0)); [by intros [= <-]|]. intros Hpass.
  apply bind_Ok_inv in Hpass as (d1 & Hroots & Hdrain).
  eapply jl_compile_workqueue_ok; [|done].
  eapply (for_each_invariant driver_ok); [|exact Hd|exact Hroots].
  eauto using compile_root_ok.
Qed.

Lemma compile_all_ok fuel methods s d :
  compile_all fuel methods s = Ok d → driver_ok d.
Proof.
  unfold compile_all.
  apply (for_each_invariant driver_ok); [eauto using compile_pass_ok|].
  split; simpl; [constructor|].
  intros mi. rewrite lookup_empty.
  split; [by intros ?%elem_of_nil|by intros [? ?]].
Qed.

(** Without roots nothing is compiled and the state is left alone. *)
Lemma compile_all_no_roots fuel s :
  compile_all fuel [] s
    = Ok {| emitted := ∅; workqueue := []; calls := []; env := s |}.
Proof.
  unfold compile_all, compile_pass. simpl.
  repeat (case_bool_decide; simpl;
          rewrite ?jl_compile_workqueue_nil by done; simpl); done.
Qed.

Lemma succeeded_elem_of log mi : mi ∈ succeeded log ↔ (mi, true) ∈ log.
Proof.
  unfold succeeded. rewrite list_elem_of_fmap. split.
  - intros ([mi' b] & -> & Hin). apply list_elem_of_filter in Hin as [Hb Hin].
    simpl in Hb. by subst b.
  - intros Hin. exists (mi, true). split; [done|].
    by apply list_elem_of_filter.
Qed.

(** No identity has two calls that returned an IR fragment. *)
Lemma succeeded_NoDup log : calls_ok log → NoDup (succeeded log).
Proof.
  induction 1 as [|l mi b Hl IH Hfresh]; [constructor|].
  unfold succeeded. rewrite filter_app, fmap_app.
  destruct b.
  - rewrite filter_cons_True by done. rewrite filter_nil. simpl.
    apply NoDup_app. split; [exact IH|]. split; [|apply NoDup_singleton].
    intros mi' Hin ->%list_elem_of_singleton.
    by apply succeeded_elem_of in Hin.
  - rewrite filter_cons_False by done. rewrite filter_nil. simpl.
    by rewrite app_nil_r.
Qed.

(** A call of the code generator that returns no IR fragment is logged
    and records nothing. *)
Lemma codegen_failed mi src world d :
  get0 (jl_compile_linfo1 mi src world (workqueue d) false (env d)).1.1 = None →
  emitted (codegen mi src world d) = emitted d
  ∧ calls (codegen mi src world d) = calls d ++ [(mi, false)].
Proof.
  unfold codegen.
  destruct (jl_compile_linfo1 mi src world (workqueue d) false (env d))
    as [[result wq] rt]. simpl. intros ->. simpl. done.
Qed.

(** A root the pass looks at, whose identity has no entry in [emitted],
    is passed to the code generator. *)
Lemma compile_root_unrecorded worlds world d mi li mi' src rt :
  method_instances (env d) !! mi = Some li →
  in_pass worlds world li (env d) = true →
  root_source world mi li (env d) = (mi', src, rt) →
  emitted d !! mi' = None →
  compile_root worlds world d mi = Ok (codegen mi' src world (with_env rt d)).
Proof.
  intros Hli Hpass Hsrc Hnone. unfold compile_root. rewrite Hli. simpl.
  rewrite Hpass. unfold root_source in Hsrc. cbv zeta in Hsrc.
  rewrite Hsrc. simpl. rewrite Hnone.
  rewrite bool_decide_eq_false_2; [done|]. by intros [? ?].
Qed.

(** A queued identity that has no entry in [emitted] is passed to the
    code generator. *)
Lemma jl_compile_workqueue_unrecorded fuel world d mi rest :
  workqueue d = mi :: rest → emitted d !! mi = None →
  jl_compile_workqueue (S fuel) world d
    = jl_compile_workqueue fuel world
        (codegen mi 0 world (with_workqueue rest d)).
Proof.
  intros Hq Hnone. simpl. rewrite Hq. simpl. rewrite Hnone.
  rewrite bool_decide_eq_false_2; [done|]. by intros [? ?].
Qed.
End DriverProperties.

(* ================================================================== *)
(** ** The merge loop and the created session *)

Lemma cast_Function_name {cfg : BuildConfig} m name F :
  cast_Function (getNamedValue m name) = Ok F → fn_name F = name ∧ name ≠ "".
Proof.
  unfold cast_Function. intros Hcast. apply cast_Ok_inv in Hcast.
  revert Hcast. unfold getNamedValue. case_bool_decide as Hname; [done|].
  destruct (getGlobalVariable m name); [done|].
  unfold getFunction. destruct (find _ _) as [F'|] eqn:Hfind; [|done].
  simpl. intros [= <-]. apply find_some in Hfind as [_ Heq].
  by apply bool_decide_eq_true in Heq.
Qed.

Section MergeProperties.
Context {cfg : BuildConfig} {eng : Collaborators}.

(** What one iteration of the merge loop records: the function looked up
    for the specialized slot is the generic function again, so the
    specialized index depends on the return types alone. *)
Lemma merge_entry_Ok rt data def data' :
  merge_entry rt data def = Ok data' →
  ∃ li,
    method_instances rt !! def.1 = Some li
    ∧ functionObject (get1 def.2) ≠ ""
    ∧ desc.jl_sysimg_gvars data' = desc.jl_sysimg_gvars data
    ∧ let name := functionObject (get1 def.2) in
      let fvars := desc.jl_sysimg_fvars data in
      if bool_decide (rettype li = get2 def.2) then
        desc.jl_sysimg_fvars data' = fvars ++ [name; name]
        ∧ desc.jl_fvar_map data' =
            <[def.1 := (get3 def.2, to_uint32 (vec_size fvars + 1),
                        to_uint32 (vec_size fvars + 2))]> (desc.jl_fvar_map data)
      else
        desc.jl_sysimg_fvars data' = fvars ++ [name]
        ∧ desc.jl_fvar_map data' =
            <[def.1 := (get3 def.2, 0, to_uint32 (vec_size fvars + 1))]>
              (desc.jl_fvar_map data).
Proof.
  unfold merge_entry. intros Hm.
  apply bind_Ok_inv in Hm as (fragment & _ & Hm).
  apply bind_Ok_inv in Hm as (clone & _ & Hm).
  apply bind_Ok_inv in Hm as (func & Hfunc & Hm).
  apply bind_Ok_inv in Hm as (cfunc & Hcfunc & Hm).
  apply bind_Ok_inv in Hm as ([fvars cfunc_id] & Hpush & Hm).
  injection Hm as <-.
  apply cast_Function_name in Hfunc as [Hname Hne].
  rewrite bool_decide_eq_false_2 in Hcfunc by done. simpl in Hcfunc.
  destruct (cast_Function _) as [cf|] eqn:Hcf; [|done].
  injection Hcfunc as <-.
  apply cast_Function_name in Hcf as [Hcname _].
  apply bind_Ok_inv in Hpush as (li & Hli & Hpush).
  exists li. split.
  { unfold deref in Hli.
    destruct (method_instances rt !! def.1); [by injection Hli as ->|done]. }
  split; [done|]. split; [done|]. simpl.
  destruct (bool_decide (rettype li = get2 def.2)).
  - injection Hpush as Hfv Hid. subst fvars cfunc_id.
    rewrite Hname, Hcname, <- app_assoc, !vec_size_app. done.
  - injection Hpush as Hfv Hid. subst fvars cfunc_id.
    rewrite Hname, !vec_size_app. done.
Qed.

(** The specialized index is not 0 exactly when the return types agree,
    whether or not a specialized declaration came back from code
    generation. *)
Lemma specialized_index_by_return_type rt data def data' :
  merge_entry rt data def = Ok data' →
  vec_size (desc.jl_sysimg_fvars data') < 2 ^ 32 →
  ∃ li api c f,
    method_instances rt !! def.1 = Some li
    ∧ desc.jl_fvar_map data' !! def.1 = Some (api, c, f)
    ∧ (c ≠ 0 ↔ rettype li = get2 def.2).
Proof.
  intros Hm Hbound.
  apply merge_entry_Ok in Hm as (li & Hli & _ & _ & Hm). simpl in Hm.
  pose proof (vec_size_nonneg (desc.jl_sysimg_fvars data)) as Hnn.
  exists li. case_bool_decide as Hrt; destruct Hm as [Hf Hmap];
    rewrite Hmap, lookup_insert_eq; do 3 eexists;
    (split; [done|]); (split; [done|]).
  - rewrite Hf, vec_size_app in Hbound.
    change (vec_size [_; _]) with 2 in Hbound.
    rewrite to_uint32_small by lia. split; [done|lia].
  - split; [done|]. intros Heq. by destruct Hrt.
Qed.

Lemma merge_entry_triples rt seen data def data' :
  triples_ok seen data → merge_entry rt data def = Ok data' →
  triples_ok (seen ++ [def]) data'.
Proof.
  intros Hok Hm Hbound mi api c f Hmi.
  apply merge_entry_Ok in Hm as (li & _ & _ & _ & Hm). simpl in Hm.
  set (fvars := desc.jl_sysimg_fvars data) in *.
  set (name := functionObject (get1 def.2)) in *.
  pose proof (vec_size_nonneg fvars) as Hnn.
  assert (Hcase : ∃ ext c0 f0,
            desc.jl_sysimg_fvars data' = fvars ++ ext
            ∧ desc.jl_fvar_map data' =
                <[def.1 := (get3 def.2, c0, f0)]> (desc.jl_fvar_map data)
            ∧ (vec_size (fvars ++ ext) < 2 ^ 32 →
               1 ≤ f0 ≤ vec_size (fvars ++ ext)
               ∧ (fvars ++ ext) !! Z.to_nat (f0 - 1) = Some name
               ∧ (c0 = 0 ∨ 1 ≤ c0 ∧ c0 = f0 - 1))).
  { destruct (bool_decide _); destruct Hm as [Hf Hmap].
    - exists [name; name]. do 2 eexists. split; [done|]. split; [done|].
      rewrite vec_size_app. change (vec_size [name; name]) with 2.
      intros Hb. rewrite !to_uint32_small by lia.
      split; [lia|]. split; [|right; lia].
      replace (vec_size fvars + 2 - 1) with (vec_size fvars + Z.of_nat 1) by lia.
      by apply lookup_at_size.
    - exists [name]. do 2 eexists. split; [done|]. split; [done|].
      rewrite vec_size_app. change (vec_size [name]) with 1.
      intros Hb. rewrite !to_uint32_small by lia.
      split; [lia|]. split; [|by left].
      replace (vec_size fvars + 1 - 1) with (vec_size fvars + Z.of_nat 0) by lia.
      by apply lookup_at_size. }
  destruct Hcase as (ext & c0 & f0 & Hf & Hmap & Hnew).
  rewrite Hf in Hbound |- *. rewrite Hmap in Hmi.
  destruct (decide (def.1 = mi)) as [<-|Hne].
  - rewrite lookup_insert_eq in Hmi. injection Hmi as <- <- <-.
    exists def.2. split.
    { apply elem_of_app. right. apply list_elem_of_singleton. by destruct def. }
    split; [done|]. by apply Hnew.
  - rewrite lookup_insert_ne in Hmi by done.
    rewrite vec_size_app in Hbound |- *. pose proof (vec_size_nonneg ext).
    assert (Hb : vec_size fvars < 2 ^ 32) by lia.
    destruct (Hok Hb mi api c f Hmi) as (r & Hr & Hapi & Hfr & Hlook & Hc).
    fold fvars in Hfr, Hlook.
    exists r. split; [apply elem_of_app; by left|]. split; [done|].
    split; [lia|]. split; [|done]. rewrite lookup_app_l; [done|].
    unfold vec_size in Hfr. lia.
Qed.

Lemma mapM_VMap_lookup m l l' :
  mapM (VMap_lookup m) l = Ok l' → l' = l.
Proof.
  revert l'. induction l as [|v l IH]; intros l'; simpl.
  - by intros [= <-].
  - intros Hm. apply bind_Ok_inv in Hm as (v' & Hv & Hm).
    apply bind_Ok_inv in Hm as (k & Hk & Hm). injection Hm as <-.
    apply IH in Hk as ->. unfold VMap_lookup in Hv.
    apply cast_Ok_inv in Hv.
    destruct (hasNamedValue m v); [by injection Hv as ->|done].
Qed.

Lemma mapM_VMap_lookup_total m l :
  (∀ v, v ∈ l → v ∈ Module_names m) → mapM (VMap_lookup m) l = Ok l.
Proof.
  induction l as [|v l IH]; intros Hin; simpl; [done|].
  assert (VMap_lookup m v = Ok v) as ->.
  { unfold VMap_lookup, hasNamedValue.
    rewrite bool_decide_eq_true_2; [done|]. apply Hin. by left. }
  simpl. rewrite IH; [done|]. intros v' Hv'. apply Hin. by right.
Qed.

(** What a created session holds, in terms of the result of the compile
    loops. *)
Lemma jl_create_native_Ok fuel methods s0 data s :
  jl_create_native fuel methods s0 = Ok (data, s) →
  ∃ d, compile_all fuel methods s0 = Ok d
       ∧ s = env d
       ∧ desc.jl_sysimg_gvars data = jl_sysimg_gvars s
       ∧ triples_ok (std_map_entries (emitted d)) data.
Proof.
  unfold jl_create_native. intros Hc.
  apply bind_Ok_inv in Hc as (d & Hd & Hc).
  apply bind_Ok_inv in Hc as (data1 & Hmerge & Hc).
  apply bind_Ok_inv in Hc as (fs & _ & Hc).
  apply bind_Ok_inv in Hc as (gvars & Hgvars & Hc).
  injection Hc as <- <-.
  exists d. split; [done|]. split; [done|].
  apply mapM_VMap_lookup in Hgvars as ->. split; [done|].
  change (triples_ok (std_map_entries (emitted d)) data1).
  eapply (for_each_prefix triples_ok _ (merge_entry_triples (env d)) _ []);
    [|exact Hmerge].
  intros _ mi api c f Hmi. simpl in Hmi. by rewrite lookup_empty in Hmi.
Qed.

(** A session created without roots. *)
Lemma jl_create_native_no_roots fuel s :
  registry_in_shadow s →
  ∃ fs, jl_create_native fuel [] s
          = Ok ({| desc.M := Module_with_functions fs (shadow_output s);
                   desc.jl_sysimg_fvars := [];
                   desc.jl_sysimg_gvars := jl_sysimg_gvars s;
                   desc.jl_fvar_map := ∅ |}, s).
Proof.
  intros Hin. unfold jl_create_native.
  rewrite compile_all_no_roots. simpl.
  rewrite std_map_entries_empty. simpl.
  destruct (mapM_total (internalize s) (mod_functions (shadow_output s)))
    as [fs Hfs].
  { intros F. unfold internalize. destruct (negb _); [|by eexists].
    apply addComdat_session_total. }
  rewrite Hfs. simpl. rewrite mapM_VMap_lookup_total by done. simpl.
  by exists fs.
Qed.
(** The steps of [jl_create_native], one by one. *)
Lemma jl_create_native_inv fuel methods s0 data s :
  jl_create_native fuel methods s0 = Ok (data, s) →
  ∃ d data1 fs,
    compile_all fuel methods s0 = Ok d
    ∧ s = env d
    ∧ for_each (merge_entry s)
        {| desc.M := shadow_output s; desc.jl_sysimg_fvars := [];
           desc.jl_sysimg_gvars := []; desc.jl_fvar_map := ∅ |}
        (std_map_entries (emitted d)) = Ok data1
    ∧ mapM (internalize s) (mod_functions (desc.M data1)) = Ok fs
    ∧ desc.M data = Module_with_functions fs (desc.M data1)
    ∧ desc.jl_sysimg_fvars data = desc.jl_sysimg_fvars data1
    ∧ desc.jl_fvar_map data = desc.jl_fvar_map data1.
Proof.
  unfold jl_create_native. intros Hc.
  apply bind_Ok_inv in Hc as (d & Hd & Hc).
  apply bind_Ok_inv in Hc as (data1 & Hmerge & Hc).
  apply bind_Ok_inv in Hc as (fs & Hfs & Hc).
  apply bind_Ok_inv in Hc as (gvars & Hgvars & Hc).
  injection Hc as <- <-. by exists d, data1, fs.
Qed.

(** The map of a created session has an entry for exactly the
    identities recorded by the compile loops. *)
Lemma jl_fvar_map_keys fuel methods s0 data s d :
  jl_create_native fuel methods s0 = Ok (data, s) →
  compile_all fuel methods s0 = Ok d →
  ∀ mi, is_Some (desc.jl_fvar_map data !! mi) ↔ is_Some (emitted d !! mi).
Proof.
  intros Hc Hd.
  apply jl_create_native_inv in Hc
    as (d' & data1 & fs & Hd' & -> & Hmerge & _ & _ & _ & ->).
  rewrite Hd in Hd'. injection Hd' as <-.
  assert (Hinv : ∀ mi, is_Some (desc.jl_fvar_map data1 !! mi)
                       ↔ mi ∈ ([] ++ std_map_entries (emitted d)).*1).
  { eapply (for_each_prefix
              (λ seen data, ∀ mi, is_Some (desc.jl_fvar_map data !! mi)
                                  ↔ mi ∈ seen.*1)); [| |exact Hmerge].
    - intros seen a def a' Hseen Hm mi.
      apply merge_entry_Ok in Hm as (li & _ & _ & _ & Hm). simpl in Hm.
      assert (∃ t, desc.jl_fvar_map a' = <[def.1 := t]> (desc.jl_fvar_map a))
        as (t & ->).
      { destruct (bool_decide _); destruct Hm as [_ ->]; eauto. }
      rewrite fmap_app, elem_of_app. simpl. rewrite list_elem_of_singleton.
      destruct (decide (def.1 = mi)) as [<-|Hne].
      + rewrite lookup_insert_eq. split; [by right|by eauto].
      + rewrite lookup_insert_ne by done. rewrite Hseen.
        split; [by left|]. by intros [?|?].
    - intros mi. simpl. rewrite lookup_empty.
      split; [by intros [? ?]|by intros ?%elem_of_nil]. }
  intros mi. rewrite Hinv. simpl. rewrite list_elem_of_fmap. split.
  - intros ([mi' r] & -> & Hin). apply std_map_entries_elem_of in Hin. eauto.
  - intros [r Hr]. exists (mi, r). split; [done|].
    by apply std_map_entries_elem_of.
Qed.

(** C5 (as amended). Within one call of [jl_create_native]: once the
    code generator has returned an IR fragment for an identity, no later
    call passes that identity again, in whichever pass or drain it is met,
    so no identity has two such calls; the merge loop runs its body once
    for each call that returned a fragment and for nothing else, and the
    session has an entry for exactly those identities. A call that returns
    no fragment records nothing, and a root or queued identity that has no
    entry is passed to the code generator whenever it is met. *)
Theorem compiled_once fuel methods s :
  (∀ d, compile_all fuel methods s = Ok d →
     (∀ (i j : nat) mi mi' b,
        (i < j)%nat → calls d !! i = Some (mi, true) →
        calls d !! j = Some (mi', b) → mi' ≠ mi)
     ∧ NoDup (succeeded (calls d))
     ∧ (∀ mi, is_Some (emitted d !! mi) ↔ mi ∈ succeeded (calls d)))
  ∧ (∀ data s', jl_create_native fuel methods s = Ok (data, s') →
       ∃ d merged,
         compile_all fuel methods s = Ok d
         ∧ for_each (merge_entry s')
             {| desc.M := shadow_output s'; desc.jl_sysimg_fvars := [];
                desc.jl_sysimg_gvars := []; desc.jl_fvar_map := ∅ |}
             (std_map_entries (emitted d)) = Ok merged
         ∧ mod_globals (desc.M data) = mod_globals (desc.M merged)
         ∧ desc.jl_sysimg_fvars data = desc.jl_sysimg_fvars merged
         ∧ desc.jl_fvar_map data = desc.jl_fvar_map merged
         ∧ (std_map_entries (emitted d)).*1 ≡ₚ succeeded (calls d)
         ∧ (∀ mi, is_Some (desc.jl_fvar_map data !! mi)
                  ↔ mi ∈ succeeded (calls d)))
  ∧ (∀ mi src world d,
       get0 (jl_compile_linfo1 mi src world (workqueue d) false (env d)).1.1
         = None →
       emitted (codegen mi src world d) = emitted d
       ∧ calls (codegen mi src world d) = calls d ++ [(mi, false)])
  ∧ (∀ worlds world d mi li mi' src rt,
       method_instances (env d) !! mi = Some li →
       in_pass worlds world li (env d) = true →
       root_source world mi li (env d) = (mi', src, rt) →
       emitted d !! mi' = None →
       compile_root worlds world d mi
         = Ok (codegen mi' src world (with_env rt d)))
  ∧ (∀ fuel' world d mi rest,
       workqueue d = mi :: rest → emitted d !! mi = None →
       jl_compile_workqueue (S fuel') world d
         = jl_compile_workqueue fuel' world
             (codegen mi 0 world (with_workqueue rest d))).
Proof.
  assert (Hloops : ∀ d, compile_all fuel methods s = Ok d →
            NoDup (succeeded (calls d))
            ∧ (∀ mi, is_Some (emitted d !! mi) ↔ mi ∈ succeeded (calls d))).
  { intros d Hall. apply compile_all_ok in Hall as [Hcalls Hiff].
    split; [by apply succeeded_NoDup|].
    intros mi. by rewrite succeeded_elem_of, Hiff. }
  split; [|split; [|split; [|split]]].
  - intros d Hall. destruct (Hloops d Hall) as [Hnd Hiff].
    apply compile_all_ok in Hall as [Hcalls _].
    split; [by apply calls_ok_later|done].
  - intros data s' Hc.
    pose proof (jl_create_native_inv _ _ _ _ _ Hc)
      as (d & merged & fs & Hd & Hs & Hmerge & _ & HM & Hfv & Hmap).
    destruct (Hloops d Hd) as [Hnd Hiff].
    exists d, merged. split; [done|]. split; [done|].
    split; [by rewrite HM|]. split; [done|]. split; [done|]. split.
    + apply NoDup_Permutation; [apply std_map_entries_NoDup|done|].
      intros mi. rewrite <- Hiff, list_elem_of_fmap. split.
      * intros ([mi' r] & -> & Hin).
        apply std_map_entries_elem_of in Hin. eauto.
      * intros [r Hr]. exists (mi, r). split; [done|].
        by apply std_map_entries_elem_of.
    + intros mi. rewrite <- Hiff. by eapply jl_fvar_map_keys.
  - apply codegen_failed.
  - apply compile_root_unrecorded.
  - apply jl_compile_workqueue_unrecorded.
Qed.
End MergeProperties.

(* ================================================================== *)
(** ** The offset-table emitter *)

Section EmitterProperties.
Context {cfg : BuildConfig}.

Lemma add_session_global_Ok s g post m m' :
  add_session_global s g post m = Ok m' →
  ∃ g', same_definition g g' ∧ m' = Module_add_global (post g') m.
Proof.
  unfold add_session_global. intros Hadd.
  apply bind_Ok_inv in Hadd as (g' & Hg' & Hadd). injection Hadd as <-.
  eauto using addComdat_gv_same.
Qed.

Lemma emit_offset_table_Ok m vars name T m' :
  emit_offset_table m vars name T = Ok m' →
  (JL_NDEBUG = false → vars ≠ [])
  ∧ m' = Module_add_global (offset_table vars name T) m.
Proof.
  unfold emit_offset_table. intros Hemit.
  apply bind_Ok_inv in Hemit as (u & Hassert & Hemit). injection Hemit as <-.
  split; [|done]. intros Hdebug.
  apply assert_Ok_inv, negb_true_iff, bool_decide_eq_false in Hassert; done.
Qed.

(** With assertions an empty table stops the emitter. *)
Lemma emit_offset_table_empty m name T :
  JL_NDEBUG = false → emit_offset_table m [] name T = Abort AssertionFailure.
Proof. intros Hdebug. unfold emit_offset_table, assert. by rewrite Hdebug. Qed.

(** Without assertions every table is emitted. *)
Lemma emit_offset_table_NDEBUG m vars name T :
  JL_NDEBUG = true →
  emit_offset_table m vars name T
    = Ok (Module_add_global (offset_table vars name T) m).
Proof. intros Hrel. unfold emit_offset_table. by rewrite assert_NDEBUG. Qed.

(** The table has one element per variable, in the order of the vector. *)
Lemma offset_table_elements vars name T :
  table_elements (offset_table vars name T)
    = (λ v, ConstantBitCast v T) <$> vars.
Proof. reflexivity. Qed.

(** What [jl_gen_llvm_globaldata] adds to the session module. *)
Lemma jl_gen_llvm_globaldata_Ok data payload len s data' :
  jl_gen_llvm_globaldata data payload len s = Ok data' →
  ∃ counter rest,
    mod_globals (desc.M data') =
      mod_globals (desc.M data)
      ++ offset_table (desc.jl_sysimg_gvars data) "jl_sysimg_gvars" T_psize
      :: offset_table (desc.jl_sysimg_fvars data) "jl_sysimg_fvars" T_psize
      :: counter :: rest
    ∧ same_definition
        (new_GlobalVariable T_size true ExternalLinkage
           (Some (ConstantInt_get T_size
                    (to_uint64 (to_int32 (globalUnique s + 1)))))
           "jl_globalUnique")
        counter
    ∧ (JL_NDEBUG = false →
       desc.jl_sysimg_gvars data ≠ [] ∧ desc.jl_sysimg_fvars data ≠ []).
Proof.
  unfold jl_gen_llvm_globaldata. intros Hgen.
  apply bind_Ok_inv in Hgen as (m1 & Hm1 & Hgen).
  apply bind_Ok_inv in Hgen as (m2 & Hm2 & Hgen).
  apply bind_Ok_inv in Hgen as (m3 & Hm3 & Hgen).
  apply bind_Ok_inv in Hgen as (var & Hvar & Hgen).
  apply bind_Ok_inv in Hgen as (m4 & Hm4 & Hgen).
  apply bind_Ok_inv in Hgen as (m5 & Hm5 & Hgen).
  injection Hgen as <-.
  apply emit_offset_table_Ok in Hm1 as [Hg ->].
  apply emit_offset_table_Ok in Hm2 as [Hf ->].
  apply add_session_global_Ok in Hm3 as (counter & Hcounter & ->).
  apply add_session_global_Ok in Hm4 as (handle & Hhandle & ->).
  exists counter.
  destruct payload as [bytes|].
  - apply bind_Ok_inv in Hm5 as (m6 & Hm6 & Hm5).
    apply add_session_global_Ok in Hm6 as (blob & Hblob & ->).
    apply add_session_global_Ok in Hm5 as (blen & Hblen & ->).
    eexists. simpl. rewrite <- !app_assoc. simpl.
    split; [done|]. split; [done|]. auto.
  - injection Hm5 as <-.
    eexists. simpl. rewrite <- !app_assoc. simpl.
    split; [done|]. split; [done|]. auto.
Qed.

(** With assertions and an empty function table the emitter stops at its
    assertion. *)
Lemma jl_gen_llvm_globaldata_no_functions data payload len s :
  JL_NDEBUG = false →
  desc.jl_sysimg_fvars data = [] →
  jl_gen_llvm_globaldata data payload len s = Abort AssertionFailure.
Proof.
  intros Hdebug Hf. unfold jl_gen_llvm_globaldata.
  destruct (emit_offset_table _ _ "jl_sysimg_gvars" _) as [m1|why] eqn:Hm1.
  - simpl. by rewrite Hf, emit_offset_table_empty.
  - destruct (desc.jl_sysimg_gvars data) as [|v vars].
    + rewrite emit_offset_table_empty in Hm1 by done. by injection Hm1 as <-.
    + unfold emit_offset_table, assert in Hm1. rewrite Hdebug in Hm1.
      discriminate Hm1.
Qed.
Lemma add_session_global_total s g post m :
  ∃ g', add_session_global s g post m = Ok (Module_add_global (post g') m).
Proof.
  unfold add_session_global.
  destruct (addComdat_session_total s g) as [g' ->]. by exists g'.
Qed.

(** Without assertions, and with the runtime handle declared in the session
    module, the emitter returns. *)
Lemma jl_gen_llvm_globaldata_NDEBUG data payload len s h :
  JL_NDEBUG = true →
  getGlobalVariable (desc.M data) "jl_RTLD_DEFAULT_handle" = Some h →
  ∃ data', jl_gen_llvm_globaldata data payload len s = Ok data'.
Proof.
  intros Hrel Hh. unfold jl_gen_llvm_globaldata.
  rewrite emit_offset_table_NDEBUG by done.
  change (Ok ?x ≫= ?f) with (f x). cbv beta.
  rewrite emit_offset_table_NDEBUG by done.
  change (Ok ?x ≫= ?f) with (f x). cbv beta.
  match goal with
  | |- context [add_session_global s ?g id ?m] =>
      destruct (add_session_global_total s g id m) as [counter ->]
  end.
  change (Ok ?x ≫= ?f) with (f x). cbv beta.
  match goal with
  | |- context [getNamedValue ?m "jl_RTLD_DEFAULT_handle"] =>
      assert (getNamedValue m "jl_RTLD_DEFAULT_handle" = Some (GV_variable h))
        as ->
  end.
  { unfold getNamedValue. rewrite bool_decide_eq_false_2 by done.
    match goal with
    | |- context [getGlobalVariable ?m ?name] =>
        assert (getGlobalVariable m name = Some h) as ->;
          [by do 3 apply getGlobalVariable_add_global_found|done]
    end. }
  change (deref (Some ?x) ≫= ?f) with (f x). cbv beta.
  match goal with
  | |- context [add_session_global s ?g id ?m] =>
      destruct (add_session_global_total s g id m) as [handle ->]
  end.
  change (Ok ?x ≫= ?f) with (f x). cbv beta.
  destruct payload as [bytes|]; [|by eexists].
  match goal with
  | |- context [add_session_global s ?g (gv_setAlignment 64) ?m] =>
      destruct (add_session_global_total s g (gv_setAlignment 64) m) as [blob ->]
  end.
  change (Ok ?x ≫= ?f) with (f x). cbv beta.
  match goal with
  | |- context [add_session_global s ?g id ?m] =>
      destruct (add_session_global_total s g id m) as [blen ->]
  end.
  by eexists.
Qed.
End EmitterProperties.

(** ** The lookup [jl_get_function_id] *)

(** C10: when the specialization is not in the session's map, the three
    output locations keep the contents they had before the call; the
    function is total, so nothing is signalled. *)
Theorem jl_get_function_id_absent (data : desc.t) (linfo : Z) (out : Z * Z * Z) :
  desc.jl_fvar_map data !! linfo = None →
  jl_get_function_id data linfo out = out.
Proof. intros Hnone. unfold jl_get_function_id. by rewrite Hnone. Qed.

(* ================================================================== *)
(** ** Emission *)

Section EmissionProperties.
Context {cfg : BuildConfig} {eng : Collaborators}.

Lemma jl_dump_native_Ok_inv data bc unopt obj payload len s e s1 :
  jl_dump_native data bc unopt obj payload len s = Ok (e, s1) →
  ∃ data',
    prepare_module data payload len s = Ok data'
    ∧ e = {| written := PM_run (build_pipeline bc unopt obj).1 (desc.M data');
             diagnostics := (build_pipeline bc unopt obj).2;
             emitted_module := desc.M data' |}
    ∧ s1 = set_imaging_mode false s.
Proof.
  unfold jl_dump_native.
  destruct (build_pipeline bc unopt obj) as [PM errs]. intros Hrun.
  apply bind_Ok_inv in Hrun as (data' & Hprep & Hrun).
  injection Hrun as <- <-. eauto.
Qed.

Lemma jl_dump_native_prepared data bc unopt obj payload len s data' :
  prepare_module data payload len s = Ok data' →
  jl_dump_native data bc unopt obj payload len s =
    Ok ({| written := PM_run (build_pipeline bc unopt obj).1 (desc.M data');
           diagnostics := (build_pipeline bc unopt obj).2;
           emitted_module := desc.M data' |}, set_imaging_mode false s).
Proof.
  intros Hprep. unfold jl_dump_native.
  destruct (build_pipeline bc unopt obj) as [PM errs].
  by rewrite Hprep.
Qed.

(** Outside persistence mode the module is only retargeted. *)
Lemma prepare_module_imaging_off data payload len s :
  imaging_mode s = false →
  ∃ data', prepare_module data payload len s = Ok data'
           ∧ mod_globals (desc.M data') = mod_globals (desc.M data)
           ∧ mod_functions (desc.M data') = mod_functions (desc.M data).
Proof. intros Hoff. unfold prepare_module. rewrite Hoff. by eexists. Qed.

(** In persistence mode the metadata is added to the retargeted module. *)
Lemma prepare_module_imaging_on data payload len s data' :
  imaging_mode s = true →
  prepare_module data payload len s = Ok data' →
  ∃ counter rest,
    mod_globals (desc.M data') =
      mod_globals (desc.M data)
      ++ offset_table (desc.jl_sysimg_gvars data) "jl_sysimg_gvars" T_psize
      :: offset_table (desc.jl_sysimg_fvars data) "jl_sysimg_fvars" T_psize
      :: counter :: rest
    ∧ same_definition
        (new_GlobalVariable T_size true ExternalLinkage
           (Some (ConstantInt_get T_size
                    (to_uint64 (to_int32 (globalUnique s + 1)))))
           "jl_globalUnique")
        counter.
Proof.
  intros Hon. unfold prepare_module. rewrite Hon. intros Hgen.
  apply jl_gen_llvm_globaldata_Ok in Hgen
    as (counter & rest & Hglobals & Hcounter & _).
  by exists counter, rest.
Qed.

(** C8: a call of [jl_dump_native] that runs its pipeline leaves
    persistence mode off, and any emission call made in the state it
    leaves returns, adds no global to its session module (no offset
    table, counter, handle pointer or payload), so that the names defined
    in the module are those it had, and leaves the mode off. *)
Theorem persistence_latch data bc unopt obj payload len s e s1 :
  jl_dump_native data bc unopt obj payload len s = Ok (e, s1) →
  imaging_mode s1 = false
  ∧ ∀ data2 bc2 unopt2 obj2 payload2 len2,
      ∃ e2 s2,
        jl_dump_native data2 bc2 unopt2 obj2 payload2 len2 s1 = Ok (e2, s2)
        ∧ mod_globals (emitted_module e2) = mod_globals (desc.M data2)
        ∧ Module_names (emitted_module e2) = Module_names (desc.M data2)
        ∧ imaging_mode s2 = false.
Proof.
  intros Hrun. apply jl_dump_native_Ok_inv in Hrun as (_ & _ & _ & ->).
  split; [done|]. intros data2 bc2 unopt2 obj2 payload2 len2.
  destruct (prepare_module_imaging_off data2 payload2 len2
              (set_imaging_mode false s) eq_refl) as (data' & Hprep & Hg & Hf).
  rewrite (jl_dump_native_prepared _ bc2 unopt2 obj2 _ _ _ _ Hprep).
  do 2 eexists. split; [reflexivity|]. simpl.
  split; [done|]. split; [|done]. unfold Module_names. by rewrite Hg, Hf.
Qed.

(** C4 (as amended): in persistence mode emission appends to the session
    module, right after the two offset tables, a constant scalar global
    named [jl_globalUnique] of the width of [size_t]. Its value is the
    process-wide name counter [globalUnique] plus one, the sum taken on an
    [int] and widened: the counter plus one as long as that is a
    non-negative [int]. The counter is advanced, as an [int], by every
    request that creates a placeholder symbol and by no request for a
    registered address; and the emission, the counter global with it, is
    the same whatever the registry holds. *)
Theorem counter_global data bc unopt obj payload len s e s1 :
  imaging_mode s = true →
  jl_dump_native data bc unopt obj payload len s = Ok (e, s1) →
  (∃ counter rest,
     mod_globals (emitted_module e)
       = mod_globals (desc.M data)
         ++ offset_table (desc.jl_sysimg_gvars data) "jl_sysimg_gvars" T_psize
         :: offset_table (desc.jl_sysimg_fvars data) "jl_sysimg_fvars" T_psize
         :: counter :: rest
     ∧ gv_name counter = "jl_globalUnique"
     ∧ gv_type counter = T_size
     ∧ gv_isConstant counter = true
     ∧ gv_initializer counter
         = Some (ConstantInt_get T_size
                   (to_uint64 (to_int32 (globalUnique s + 1))))
     ∧ (0 ≤ globalUnique s + 1 < 2 ^ 31 →
        gv_initializer counter
          = Some (ConstantInt T_size (globalUnique s + 1))))
  ∧ (∀ s0 cname addr M T g M' s0',
       jl_get_global_for cname addr M T s0 = Ok (g, M', s0') →
       globalUnique s0'
         = match jl_value_to_llvm s0 !! addr with
           | None => to_int32 (globalUnique s0 + 1)
           | Some _ => globalUnique s0
           end)
  ∧ (∀ gvars m,
       jl_dump_native data bc unopt obj payload len (set_registry gvars m s)
         = Ok (e, set_registry gvars m s1)).
Proof.
  intros Hon Hrun. split; [|split].
  - apply jl_dump_native_Ok_inv in Hrun as (data' & Hprep & -> & _).
    apply prepare_module_imaging_on in Hprep
      as (counter & rest & Hglobals & Hn & Ht & Hc & Hi & _); [|done].
    simpl in Hn, Ht, Hc, Hi. exists counter, rest. simpl.
    do 5 (split; [done|]). intros Hsmall. rewrite Hi. f_equal.
    rewrite to_int32_small by lia. unfold to_uint64, T_size.
    change (2 ^ 31) with 2147483648 in Hsmall.
    assert (H64 : (globalUnique s + 1) mod 2 ^ 64 = globalUnique s + 1)
      by (apply Z.mod_small; lia).
    assert (H32 : (globalUnique s + 1) mod 2 ^ 32 = globalUnique s + 1)
      by (apply Z.mod_small; lia).
    case_bool_decide; unfold ConstantInt_get; rewrite H64, ?H64, ?H32; done.
  - intros s0 cname addr M T g M' s0' Hget.
    destruct (jl_value_to_llvm s0 !! addr) as [it|] eqn:Hlook.
    + destruct (jl_get_global_for_hit cname addr M T s0 it Hlook)
        as (g0 & M0 & Hhit & _).
      rewrite Hhit in Hget. by injection Hget as <- <- <-.
    + by apply jl_get_global_for_miss in Hget as (_ & ? & _).
  - intros gvars m.
    apply jl_dump_native_Ok_inv in Hrun as (data' & Hprep & -> & ->).
    by rewrite (jl_dump_native_prepared data bc unopt obj payload len
                  (set_registry gvars m s) data' Hprep).
Qed.
End EmissionProperties.

Section EmissionOutputs.
Context {cfg : BuildConfig} {eng : Collaborators}.

(** Case analysis on the three destinations and on how opening them
    ends. *)
Ltac open_cases :=
  unfold build_pipeline, open_unopt_bc, open_bc, open_obj;
  repeat match goal with
  | |- context [match ?o with Some _ => _ | None => _ end] =>
      lazymatch o with
      | openFileForWrite _ => destruct o eqn:?
      | _ => is_var o; destruct o
      end
  | |- context [if addPassesToEmitFile then _ else _] =>
      destruct addPassesToEmitFile eqn:?
  end; simpl.

(** Membership in a list that is given element by element. *)
Ltac elem_of_listed :=
  repeat first [apply list_elem_of_here | apply list_elem_of_further].

(** A destination that cannot be opened adds its line to the diagnostics
    and leaves the files written as they are without that destination. *)
Lemma unopt_skipped bc obj f msg m :
  openFileForWrite f = Some msg →
  open_error "--output-unopt-bc" f msg ∈ (build_pipeline bc (Some f) obj).2
  ∧ PM_run (build_pipeline bc None obj).1 m
      = PM_run (build_pipeline bc (Some f) obj).1 m.
Proof.
  intros Hopen. split; revert Hopen; open_cases; intros; simplify_eq;
    first [done | elem_of_listed].
Qed.

Lemma bc_skipped unopt obj f msg m :
  openFileForWrite f = Some msg →
  open_error "--output-bc" f msg ∈ (build_pipeline (Some f) unopt obj).2
  ∧ PM_run (build_pipeline None unopt obj).1 m
      = PM_run (build_pipeline (Some f) unopt obj).1 m.
Proof.
  intros Hopen. split; revert Hopen; open_cases; intros; simplify_eq;
    first [done | elem_of_listed].
Qed.

Lemma obj_skipped bc unopt f m :
  (∀ msg, openFileForWrite f = Some msg →
     open_error "--output-o" f msg ∈ (build_pipeline bc unopt (Some f)).2)
  ∧ (openFileForWrite f = None → addPassesToEmitFile = true →
     no_object_files ∈ (build_pipeline bc unopt (Some f)).2)
  ∧ (is_Some (openFileForWrite f) ∨ addPassesToEmitFile = true →
     PM_run (build_pipeline bc unopt None).1 m
       = PM_run (build_pipeline bc unopt (Some f)).1 m).
Proof.
  split; [|split].
  - intros msg Hopen. revert Hopen. open_cases; intros; simplify_eq;
      elem_of_listed.
  - intros Hopen Hobj. revert Hopen Hobj. open_cases; intros; simplify_eq;
      elem_of_listed.
  - intros Hfail. revert Hfail. open_cases; intros [[? ?]|?]; simplify_eq;
      done.
Qed.

(** A destination that opens is written: the unoptimized bitcode holds
    the module as given to the pipeline, the other two the optimized one. *)
Lemma destinations_written bc unopt obj m :
  (∀ f, unopt = Some f → openFileForWrite f = None →
     (f, Bitcode m) ∈ PM_run (build_pipeline bc unopt obj).1 m)
  ∧ (∀ f, bc = Some f → openFileForWrite f = None →
     (f, Bitcode (run_optimization jl_options_opt_level m))
       ∈ PM_run (build_pipeline bc unopt obj).1 m)
  ∧ (∀ f, obj = Some f → openFileForWrite f = None →
     addPassesToEmitFile = false →
     (f, ObjectFile (run_optimization jl_options_opt_level m))
       ∈ PM_run (build_pipeline bc unopt obj).1 m).
Proof.
  split; [|split].
  - intros f -> Hopen. revert Hopen. open_cases; intros; simplify_eq;
      elem_of_listed.
  - intros f -> Hopen. revert Hopen. open_cases; intros; simplify_eq;
      elem_of_listed.
  - intros f -> Hopen Hobj. revert Hopen Hobj.
    open_cases; intros; simplify_eq; elem_of_listed.
Qed.

(** C9: whether an emission call returns does not depend on the
    destinations requested nor on how opening them ends. If the call
    without a destination returns, the call with that destination, when it
    cannot be opened, or when it is an object file the target cannot emit,
    returns as well: it prints the diagnostic, adds no writer and writes
    the files of the call without it. Every destination that opens (and,
    for the object file, is supported) is written. *)
Theorem destinations_independent data bc unopt obj payload len s :
  (∀ bc' unopt' obj' e s1,
     jl_dump_native data bc unopt obj payload len s = Ok (e, s1) →
     ∃ e', jl_dump_native data bc' unopt' obj' payload len s = Ok (e', s1)
           ∧ emitted_module e' = emitted_module e)
  ∧ (∀ f msg e' s1,
       openFileForWrite f = Some msg →
       jl_dump_native data bc None obj payload len s = Ok (e', s1) →
       ∃ e, jl_dump_native data bc (Some f) obj payload len s = Ok (e, s1)
            ∧ open_error "--output-unopt-bc" f msg ∈ diagnostics e
            ∧ written e = written e')
  ∧ (∀ f msg e' s1,
       openFileForWrite f = Some msg →
       jl_dump_native data None unopt obj payload len s = Ok (e', s1) →
       ∃ e, jl_dump_native data (Some f) unopt obj payload len s = Ok (e, s1)
            ∧ open_error "--output-bc" f msg ∈ diagnostics e
            ∧ written e = written e')
  ∧ (∀ f msg e' s1,
       openFileForWrite f = Some msg →
       jl_dump_native data bc unopt None payload len s = Ok (e', s1) →
       ∃ e, jl_dump_native data bc unopt (Some f) payload len s = Ok (e, s1)
            ∧ open_error "--output-o" f msg ∈ diagnostics e
            ∧ written e = written e')
  ∧ (∀ f e' s1,
       openFileForWrite f = None → addPassesToEmitFile = true →
       jl_dump_native data bc unopt None payload len s = Ok (e', s1) →
       ∃ e, jl_dump_native data bc unopt (Some f) payload len s = Ok (e, s1)
            ∧ no_object_files ∈ diagnostics e
            ∧ written e = written e')
  ∧ (∀ e s1,
       jl_dump_native data bc unopt obj payload len s = Ok (e, s1) →
       let M0 := emitted_module e in
       let M1 := run_optimization jl_options_opt_level M0 in
       (∀ f, unopt = Some f → openFileForWrite f = None →
          (f, Bitcode M0) ∈ written e)
       ∧ (∀ f, bc = Some f → openFileForWrite f = None →
          (f, Bitcode M1) ∈ written e)
       ∧ (∀ f, obj = Some f → openFileForWrite f = None →
          addPassesToEmitFile = false →
          (f, ObjectFile M1) ∈ written e)).
Proof.
  split; [|split; [|split; [|split; [|split]]]].
  - intros bc' unopt' obj' e s1 Hrun.
    apply jl_dump_native_Ok_inv in Hrun as (data' & Hprep & -> & ->).
    rewrite (jl_dump_native_prepared _ bc' unopt' obj' _ _ _ _ Hprep).
    eexists. split; [reflexivity|]. done.
  - intros f msg e' s1 Hopen Hrun.
    apply jl_dump_native_Ok_inv in Hrun as (data' & Hprep & -> & ->).
    destruct (unopt_skipped bc obj f msg (desc.M data') Hopen) as [Hd Hw].
    rewrite (jl_dump_native_prepared _ bc (Some f) obj _ _ _ _ Hprep).
    eexists. split; [reflexivity|]. simpl. done.
  - intros f msg e' s1 Hopen Hrun.
    apply jl_dump_native_Ok_inv in Hrun as (data' & Hprep & -> & ->).
    destruct (bc_skipped unopt obj f msg (desc.M data') Hopen) as [Hd Hw].
    rewrite (jl_dump_native_prepared _ (Some f) unopt obj _ _ _ _ Hprep).
    eexists. split; [reflexivity|]. simpl. done.
  - intros f msg e' s1 Hopen Hrun.
    apply jl_dump_native_Ok_inv in Hrun as (data' & Hprep & -> & ->).
    destruct (obj_skipped bc unopt f (desc.M data')) as (Hd & _ & Hw).
    rewrite (jl_dump_native_prepared _ bc unopt (Some f) _ _ _ _ Hprep).
    eexists. split; [reflexivity|]. simpl. split; [by eapply Hd|].
    symmetry. apply Hw. left. by eexists.
  - intros f e' s1 Hopen Hobj Hrun.
    apply jl_dump_native_Ok_inv in Hrun as (data' & Hprep & -> & ->).
    destruct (obj_skipped bc unopt f (desc.M data')) as (_ & Hd & Hw).
    rewrite (jl_dump_native_prepared _ bc unopt (Some f) _ _ _ _ Hprep).
    eexists. split; [reflexivity|]. simpl. split; [by apply Hd|].
    symmetry. apply Hw. by right.
  - intros e s1 Hrun.
    apply jl_dump_native_Ok_inv in Hrun as (data' & Hprep & -> & ->).
    simpl. apply destinations_written.
Qed.
End EmissionOutputs.

(* ================================================================== *)
(** ** Sessions from creation to emission *)

Section EndToEnd.
Context {cfg : BuildConfig} {eng : Collaborators}.

(** A specialized index that is not 0 is the position of the function
    the merge loop looked up for the specialized slot, which lines 315-316
    look up under the name of the generic entry point. *)
Lemma specialized_slot fuel methods s0 data s :
  jl_create_native fuel methods s0 = Ok (data, s) →
  vec_size (desc.jl_sysimg_fvars data) < 2 ^ 32 →
  ∀ mi api c f,
    desc.jl_fvar_map data !! mi = Some (api, c, f) → c ≠ 0 →
    ∃ r, (mi, r) ∈ std_map_entries
                     (match compile_all fuel methods s0 with
                      | Ok d => emitted d
                      | Abort _ => ∅
                      end)
         ∧ desc.jl_sysimg_fvars data !! Z.to_nat (c - 1)
             = Some (functionObject (get1 r)).
Proof.
  intros Hc.
  apply jl_create_native_inv in Hc
    as (d & data1 & fs & Hd & -> & Hmerge & _ & _ & -> & ->).
  rewrite Hd.
  change (std_map_entries (emitted d))
    with ([] ++ std_map_entries (emitted d)).
  eapply (for_each_prefix
            (λ seen data,
               vec_size (desc.jl_sysimg_fvars data) < 2 ^ 32 →
               ∀ mi api c f,
                 desc.jl_fvar_map data !! mi = Some (api, c, f) → c ≠ 0 →
                 ∃ r, (mi, r) ∈ seen
                      ∧ desc.jl_sysimg_fvars data !! Z.to_nat (c - 1)
                          = Some (functionObject (get1 r))));
    [| |exact Hmerge].
  - intros seen a def a' Hseen Hm Hbound mi api c f Hmi Hc0.
    apply merge_entry_Ok in Hm as (li & _ & _ & _ & Hm). simpl in Hm.
    pose proof (vec_size_nonneg (desc.jl_sysimg_fvars a)) as Hnn.
    destruct (decide (def.1 = mi)) as [<-|Hne].
    + exists def.2. split.
      { apply elem_of_app. right. apply list_elem_of_singleton.
        by destruct def. }
      destruct (bool_decide _); destruct Hm as [Hf Hmap];
        rewrite Hmap, lookup_insert_eq in Hmi; injection Hmi as <- <- <-;
        [|done].
      rewrite Hf in Hbound |- *. rewrite vec_size_app in Hbound.
      change (vec_size [_; _]) with 2 in Hbound.
      rewrite to_uint32_small by lia.
      replace (vec_size (desc.jl_sysimg_fvars a) + 1 - 1)
        with (vec_size (desc.jl_sysimg_fvars a) + Z.of_nat 0) by lia.
      by apply lookup_at_size.
    + assert (∃ ext t, desc.jl_sysimg_fvars a' = desc.jl_sysimg_fvars a ++ ext
                       ∧ desc.jl_fvar_map a'
                           = <[def.1 := t]> (desc.jl_fvar_map a))
        as (ext & t & Hf & Hmap).
      { destruct (bool_decide _); destruct Hm as [-> ->]; eauto. }
      rewrite Hmap, lookup_insert_ne in Hmi by done.
      rewrite Hf in Hbound |- *. rewrite vec_size_app in Hbound.
      pose proof (vec_size_nonneg ext).
      destruct (Hseen ltac:(lia) mi api c f Hmi Hc0) as (r & Hr & Hpos).
      exists r. split; [apply elem_of_app; by left|].
      rewrite lookup_app_l; [done|]. by eapply lookup_lt_Some.
  - intros _ mi api c f Hmi. simpl in Hmi. by rewrite lookup_empty in Hmi.
Qed.

(** X23: for a session created in a state whose registry is indexed, with
    a function table within the range of its indices, emission in
    persistence mode appends to the session module the constant arrays
    [jl_sysimg_gvars] and [jl_sysimg_fvars]; each has one element per
    entry of its vector, in the vector's order; the element at position
    [index - 1] is the address of the symbol registered under that index,
    respectively of the generic function of the specialization recorded
    with that generic index; no registered address or generic entry has
    index 0; and at the position of a specialized index that is not 0 the
    function table holds the address of the generic function again, which
    is what the merge loop looks up for that slot. *)
Theorem offset_tables_follow_indices
    fuel methods s0 data s bc unopt obj payload len s2 e s3 :
  jl_create_native fuel methods s0 = Ok (data, s) →
  registry_indexed s →
  vec_size (desc.jl_sysimg_fvars data) < 2 ^ 32 →
  imaging_mode s2 = true →
  jl_dump_native data bc unopt obj payload len s2 = Ok (e, s3) →
  ∃ d gtab ftab rest,
    compile_all fuel methods s0 = Ok d
    ∧ mod_globals (emitted_module e)
        = mod_globals (desc.M data) ++ gtab :: ftab :: rest
    ∧ (gv_name gtab = "jl_sysimg_gvars" ∧ gv_isConstant gtab = true
       ∧ gv_type gtab = ArrayTy T_psize (vec_size (jl_sysimg_gvars s))
       ∧ table_elements gtab
           = (λ v, ConstantBitCast v T_psize) <$> jl_sysimg_gvars s)
    ∧ (gv_name ftab = "jl_sysimg_fvars" ∧ gv_isConstant ftab = true
       ∧ gv_type ftab = ArrayTy T_psize (vec_size (desc.jl_sysimg_fvars data))
       ∧ table_elements ftab
           = (λ v, ConstantBitCast v T_psize) <$> desc.jl_sysimg_fvars data)
    ∧ (∀ p it, jl_value_to_llvm s !! p = Some it →
         index it ≠ 0
         ∧ table_elements gtab !! Z.to_nat (index it - 1)
             = Some (ConstantBitCast (gv_name (gv it)) T_psize))
    ∧ (∀ mi api c f, desc.jl_fvar_map data !! mi = Some (api, c, f) →
         ∃ r, emitted d !! mi = Some r
              ∧ f ≠ 0
              ∧ table_elements ftab !! Z.to_nat (f - 1)
                  = Some (ConstantBitCast (functionObject (get1 r)) T_psize)
              ∧ (c = 0
                 ∨ 1 ≤ c
                   ∧ table_elements ftab !! Z.to_nat (c - 1)
                       = Some (ConstantBitCast (functionObject (get1 r))
                                 T_psize))).
Proof.
  intros Hcreate [_ Hidx] Hbound Hon Hrun.
  pose proof (specialized_slot _ _ _ _ _ Hcreate Hbound) as Hslot.
  apply jl_create_native_Ok in Hcreate as (d & Hd & -> & Hgvars & Htriples).
  rewrite Hd in Hslot.
  apply jl_dump_native_Ok_inv in Hrun as (data' & Hprep & -> & _).
  apply prepare_module_imaging_on in Hprep
    as (counter & rest & Hglobals & _); [|done].
  exists d. do 3 eexists. split; [done|]. split; [exact Hglobals|].
  rewrite !offset_table_elements, Hgvars.
  split; [done|]. split; [done|]. split.
  - intros p it Hp. destruct (Hidx p it Hp) as [Hrange Hpos].
    split; [lia|]. by rewrite list_lookup_fmap, Hpos.
  - intros mi api c f Hmi.
    destruct (Htriples Hbound mi api c f Hmi)
      as (r & Hr & _ & Hf & Hpos & Hc).
    apply std_map_entries_elem_of in Hr.
    exists r. split; [done|].
    split; [lia|]. split; [by rewrite list_lookup_fmap, Hpos|].
    destruct (decide (c = 0)) as [->|Hc0]; [by left|right].
    split; [lia|].
    destruct (Hslot mi api c f Hmi Hc0) as (r' & Hr' & Hpos').
    apply std_map_entries_elem_of in Hr'.
    assert (r' = r) as -> by congruence.
    by rewrite list_lookup_fmap, Hpos'.
Qed.

(** C3 (as amended): creating a session from an empty root list returns,
    with an empty function table, an empty instance map and the registry's
    vector as table of globals. Emitting it with no destination: outside
    persistence mode it returns, writes no file, prints nothing and adds no
    global to the module; in persistence mode, in a build with assertions,
    the emitter stops at its assertion that a table is not empty; in
    persistence mode, in a build without assertions and with the runtime
    handle declared in the shadow module, it returns, writes no file and
    appends the table of globals and a function table without elements. *)
Theorem empty_session_emission fuel s payload len :
  registry_in_shadow s →
  ∃ data,
    jl_create_native fuel [] s = Ok (data, s)
    ∧ desc.jl_sysimg_fvars data = []
    ∧ desc.jl_fvar_map data = ∅
    ∧ desc.jl_sysimg_gvars data = jl_sysimg_gvars s
    ∧ (imaging_mode s = false →
       ∃ e, jl_dump_native data None None None payload len s
              = Ok (e, set_imaging_mode false s)
            ∧ written e = [] ∧ diagnostics e = []
            ∧ mod_globals (emitted_module e) = mod_globals (shadow_output s))
    ∧ (imaging_mode s = true → JL_NDEBUG = false →
       jl_dump_native data None None None payload len s
         = Abort AssertionFailure)
    ∧ (imaging_mode s = true → JL_NDEBUG = true →
       is_Some (getGlobalVariable (shadow_output s) "jl_RTLD_DEFAULT_handle") →
       ∃ e rest,
         jl_dump_native data None None None payload len s
           = Ok (e, set_imaging_mode false s)
         ∧ written e = [] ∧ diagnostics e = []
         ∧ mod_globals (emitted_module e)
             = mod_globals (shadow_output s)
               ++ offset_table (jl_sysimg_gvars s) "jl_sysimg_gvars" T_psize
               :: offset_table [] "jl_sysimg_fvars" T_psize
               :: rest
         ∧ table_elements (offset_table [] "jl_sysimg_fvars" T_psize) = []).
Proof.
  intros Hin.
  destruct (jl_create_native_no_roots fuel s Hin) as [fs Hcreate].
  eexists. split; [exact Hcreate|]. simpl.
  split; [done|]. split; [done|]. split; [done|].
  split; [|split].
  - intros Hoff. unfold jl_dump_native, prepare_module. simpl.
    rewrite Hoff. simpl. eexists. split; [reflexivity|]. done.
  - intros Hon Hdebug. unfold jl_dump_native, prepare_module. simpl.
    rewrite Hon. by rewrite jl_gen_llvm_globaldata_no_functions.
  - intros Hon Hrel [h Hh].
    match goal with
    | |- context [jl_dump_native ?data _ _ _ _ _ _] => set (data0 := data)
    end.
    destruct (prepare_module data0 payload len s) as [data'|why] eqn:Hprep.
    + rewrite (jl_dump_native_prepared _ None None None _ _ _ _ Hprep).
      apply prepare_module_imaging_on in Hprep
        as (counter & rest & Hglobals & _); [|done].
      do 2 eexists. split; [reflexivity|]. simpl.
      split; [done|]. split; [done|]. split; [exact Hglobals|done].
    + exfalso. unfold prepare_module in Hprep. rewrite Hon in Hprep.
      match type of Hprep with
      | jl_gen_llvm_globaldata ?d _ _ _ = _ =>
          destruct (jl_gen_llvm_globaldata_NDEBUG d payload len s h Hrel Hh)
            as [data' Hok]
      end.
      rewrite Hok in Hprep. discriminate Hprep.
Qed.
End EndToEnd.

(* ================================================================== *)
(** * Further properties of the code *)

(** ** [addComdat] and the registry *)

Section FurtherAddComdat.
Context {cfg : BuildConfig}.

(** The guards of [addComdat]: a build that is not for Windows, a call
    outside persistence mode, a declaration. *)
Lemma addComdat_unchanged {T} {obj : GlobalObject T} s b (G : T) :
  OS_WINDOWS = false ∨ imaging_mode s = false ∨ isDeclaration G = true →
  addComdat s b G = Ok G.
Proof.
  unfold addComdat.
  intros [-> | [-> | ->]]; simpl; rewrite ?andb_false_r; done.
Qed.

Lemma addComdat_fn_same s b (F F' : Function) :
  addComdat s b F = Ok F' →
  fn_name F' = fn_name F ∧ fn_type F' = fn_type F
  ∧ fn_hasBody F' = fn_hasBody F ∧ fn_linkage F' = fn_linkage F.
Proof.
  unfold addComdat. intros Hadd.
  destruct (_ && _ && _) in Hadd; [|by injection Hadd as <-].
  apply bind_Ok_inv in Hadd as (G1 & HG1 & Hadd). injection Hadd as <-.
  assert (fn_name G1 = fn_name F ∧ fn_type G1 = fn_type F
          ∧ fn_hasBody G1 = fn_hasBody F ∧ fn_linkage G1 = fn_linkage F)
    as (Hn & Ht & Hb & Hl).
  { destruct b; [|by injection HG1 as <-].
    destruct CPU_X86_64.
    - apply bind_Ok_inv in HG1 as (u & _ & HG1). injection HG1 as <-.
      by destruct COMPILER_MICROSOFT.
    - injection HG1 as <-. by destruct COMPILER_MICROSOFT. }
  by destruct (bool_decide _).
Qed.

Lemma addComdat_windows_gv s b (g g' : GlobalVariable) :
  OS_WINDOWS = true → imaging_mode s = true → gv_initializer g ≠ None →
  addComdat s b g = Ok g' →
  gv_dllStorage g'
    = (if bool_decide (gv_linkage g = ExternalLinkage)
       then DLLExportStorageClass else DefaultStorageClass).
Proof.
  intros Hwin Himg Hdef Hadd.
  unfold addComdat in Hadd. rewrite Hwin, Himg in Hadd. simpl in Hadd.
  destruct (gv_initializer g) eqn:Hinit; [|done]. simpl in Hadd.
  apply bind_Ok_inv in Hadd as (G1 & HG1 & Hadd). injection Hadd as <-.
  assert (gv_linkage G1 = gv_linkage g) as ->.
  { destruct b; [|by injection HG1 as <-].
    destruct CPU_X86_64.
    - apply bind_Ok_inv in HG1 as (u & _ & HG1). injection HG1 as <-.
      by destruct COMPILER_MICROSOFT.
    - injection HG1 as <-. by destruct COMPILER_MICROSOFT. }
  simpl. case_bool_decide; reflexivity.
Qed.

Lemma addComdat_windows_fn s b (F F' : Function) :
  OS_WINDOWS = true → imaging_mode s = true → fn_hasBody F = true →
  addComdat s b F = Ok F' →
  fn_dllStorage F'
    = (if bool_decide (fn_linkage F = ExternalLinkage)
       then DLLExportStorageClass else DefaultStorageClass)
  ∧ fn_comdat F'
    = (if b && COMPILER_MICROSOFT
       then Some (fn_name F, NoDuplicates) else fn_comdat F)
  ∧ fn_personality F'
    = (if b && CPU_X86_64
       then pf_name <$> juliapersonality_func s else fn_personality F).
Proof.
  intros Hwin Himg Hbody Hadd.
  unfold addComdat in Hadd. rewrite Hwin, Himg in Hadd. simpl in Hadd.
  rewrite Hbody in Hadd. simpl in Hadd.
  apply bind_Ok_inv in Hadd as (G1 & HG1 & Hadd). injection Hadd as <-.
  assert (fn_linkage G1 = fn_linkage F
          ∧ fn_comdat G1
            = (if b && COMPILER_MICROSOFT
               then Some (fn_name F, NoDuplicates) else fn_comdat F)
          ∧ fn_personality G1
            = (if b && CPU_X86_64
               then pf_name <$> juliapersonality_func s
               else fn_personality F)) as (-> & Hc & Hp).
  { destruct b; [|by injection HG1 as <-]. simpl.
    destruct CPU_X86_64.
    - apply bind_Ok_inv in HG1 as (u & _ & HG1). injection HG1 as <-.
      by destruct COMPILER_MICROSOFT.
    - injection HG1 as <-. by destruct COMPILER_MICROSOFT. }
  simpl. case_bool_decide; done.
Qed.

(** X2: on Windows in persistence mode, [addComdat] leaves the storage
    class of a definition decided by its linkage alone: exported when the
    linkage is external, default otherwise, whatever the class was before.
    Name, type, initializer or body, and linkage are kept. *)
Theorem addComdat_storage_class s b :
  OS_WINDOWS = true → imaging_mode s = true →
  (∀ g g' : GlobalVariable,
     gv_initializer g ≠ None → addComdat s b g = Ok g' →
     gv_dllStorage g'
       = (if bool_decide (gv_linkage g = ExternalLinkage)
          then DLLExportStorageClass else DefaultStorageClass)
     ∧ same_definition g g')
  ∧ (∀ F F' : Function,
       fn_hasBody F = true → addComdat s b F = Ok F' →
       fn_dllStorage F'
         = (if bool_decide (fn_linkage F = ExternalLinkage)
            then DLLExportStorageClass else DefaultStorageClass)
       ∧ fn_name F' = fn_name F ∧ fn_hasBody F' = true
       ∧ fn_linkage F' = fn_linkage F).
Proof.
  intros Hwin Himg. split.
  - intros g g' Hdef Hadd. split.
    + by eapply addComdat_windows_gv.
    + by eapply addComdat_gv_same.
  - intros F F' Hbody Hadd.
    pose proof (addComdat_fn_same _ _ _ _ Hadd) as (Hn & _ & Hb & Hl).
    destruct (addComdat_windows_fn _ _ _ _ Hwin Himg Hbody Hadd) as [Hd _].
    rewrite Hb. done.
Qed.

(** X3: on Windows in persistence mode, a defined function gets its
    linkage group (named after it, no duplicates; Microsoft compiler only)
    and the personality routine (64-bit x86 only) exactly when its parent
    is the shadow module; a function of any other module keeps both. *)
Theorem addComdat_function_in_shadow s b F F' :
  OS_WINDOWS = true → imaging_mode s = true → fn_hasBody F = true →
  addComdat s b F = Ok F' →
  fn_comdat F'
    = (if b && COMPILER_MICROSOFT
       then Some (fn_name F, NoDuplicates) else fn_comdat F)
  ∧ fn_personality F'
    = (if b && CPU_X86_64
       then pf_name <$> juliapersonality_func s else fn_personality F).
Proof.
  intros Hwin Himg Hbody Hadd.
  by destruct (addComdat_windows_fn _ _ _ _ Hwin Himg Hbody Hadd) as [_ ?].
Qed.

(** X4: the one way [addComdat] stops the process is its assertion that
    the personality routine belongs to the shadow module: on 64-bit Windows
    with assertions, in persistence mode, for a definition whose parent is
    the shadow module, when the routine is set and lives elsewhere. *)
Theorem addComdat_stops {T} {obj : GlobalObject T} s b (G : T) why :
  addComdat s b G = Abort why
  ↔ why = AssertionFailure
    ∧ OS_WINDOWS = true ∧ CPU_X86_64 = true ∧ JL_NDEBUG = false
    ∧ imaging_mode s = true ∧ isDeclaration G = false ∧ b = true
    ∧ ∃ p, juliapersonality_func s = Some p ∧ pf_in_shadow p = false.
Proof.
  unfold addComdat, assert. split.
  - destruct OS_WINDOWS, (imaging_mode s), (isDeclaration G); simpl;
      try discriminate.
    destruct b; simpl; [|discriminate].
    destruct CPU_X86_64; simpl; [|discriminate].
    destruct JL_NDEBUG; simpl; [discriminate|].
    destruct (juliapersonality_func s) as [p|]; simpl; [|discriminate].
    destruct (pf_in_shadow p) eqn:Hp; simpl; [discriminate|].
    intros [= <-]. eauto 10.
  - intros (-> & -> & -> & -> & -> & -> & -> & p & -> & ->). done.
Qed.
End FurtherAddComdat.

Section FurtherRegistry.
Context {cfg : BuildConfig}.

(** X5: [jl_get_global_for] looks at the requested type only when it has
    to create a symbol. For an address that is not registered and a type
    that is not a pointer type: with a backend library built with
    assertions the cast of line 142 stops the process, in either mode;
    with a library built without them the type is used as it is, and
    outside persistence mode, where it is never read, the call returns
    with a new symbol of that type. For a registered address the call
    returns the registered symbol and leaves the process state as it was,
    whatever the type. *)
Theorem jl_get_global_for_pointer_only cname addr M T s :
  (∀ T', T ≠ PointerTy T') →
  match jl_value_to_llvm s !! addr with
  | None =>
      if LLVM_ASSERTIONS
      then jl_get_global_for cname addr M T s = Abort AssertionFailure
      else imaging_mode s = false →
           ∃ g M' s', jl_get_global_for cname addr M T s = Ok (g, M', s')
                      ∧ gv_type g = T ∧ M' = Module_add_global g M
  | Some it =>
      ∃ g M', jl_get_global_for cname addr M T s = Ok (g, M', s)
              ∧ gv_name g = gv_name (gv it)
  end.
Proof.
  intros HT. destruct (jl_value_to_llvm s !! addr) as [it|] eqn:Hlook.
  - by apply jl_get_global_for_hit.
  - unfold jl_get_global_for. rewrite Hlook.
    unfold jl_emit_and_add_to_shadow, cast. simpl.
    destruct LLVM_ASSERTIONS.
    + destruct T; try done. by destruct (HT T).
    + intros Hoff. rewrite Hoff.
      destruct T; simpl; by do 3 eexists.
Qed.

(** X6: a request for an address that is not registered, in either
    mode, declares in the caller's module an external global without
    initializer, named by the prefix and the counter, advances the counter
    by one, as the [int] it is (past its last value it wraps), and maps the
    symbol in the execution engine to a new cell that holds the address;
    cells handed out before are not written. *)
Theorem jl_get_global_for_slot cname addr M T s g M' s' :
  jl_value_to_llvm s !! addr = None →
  jl_get_global_for cname addr M T s = Ok (g, M', s') →
  g = new_GlobalVariable T false ExternalLinkage None
        (cname +:+ string_of_Z (globalUnique s))
  ∧ M' = Module_add_global g M
  ∧ globalUnique s' = to_int32 (globalUnique s + 1)
  ∧ (globalUnique s + 1 < 2 ^ 31 → 0 ≤ globalUnique s →
     globalUnique s' = globalUnique s + 1)
  ∧ (globalUnique s = 2 ^ 31 - 1 → globalUnique s' = - 2 ^ 31)
  ∧ jl_ExecutionEngine s'
      = jl_ExecutionEngine s ++ [(gv_name g, length (slots s))]
  ∧ slots s' = slots s ++ [addr].
Proof.
  unfold jl_get_global_for. intros -> Hget.
  apply bind_Ok_inv in Hget as ([slot s2] & Hemit & Hget).
  injection Hget as <- <- <-.
  unfold jl_emit_and_add_to_shadow in Hemit.
  apply bind_Ok_inv in Hemit as (T0 & _ & Hemit).
  apply bind_Ok_inv in Hemit as (s1 & Hs1 & Hemit).
  injection Hemit as <- <-.
  assert (Hkeep : globalUnique s1 = to_int32 (globalUnique s + 1)
                  ∧ jl_ExecutionEngine s1 = jl_ExecutionEngine s
                  ∧ slots s1 = slots s).
  { simpl in Hs1. destruct (imaging_mode s).
    - apply bind_Ok_inv in Hs1 as (shadowvar & _ & Hs1).
      destruct (negb _); simpl in Hs1; by injection Hs1 as <-.
    - by injection Hs1 as <-. }
  destruct Hkeep as (HgU & Hee & Hsl). simpl.
  rewrite HgU, Hee, Hsl. do 3 (split; [done|]).
  split; [intros; apply to_int32_small; lia|].
  split; [by intros ->|]. split; [done|].
  rewrite insert_app_r_alt by done. by rewrite Nat.sub_diag.
Qed.

(** X7: insert and lookup. In persistence mode, a request for a non-null
    address that is not registered gives it the next table index, the new
    size of the table of globals, under which [jl_get_llvm_gv] finds it
    from then on and at which the table holds the returned symbol; the
    index of every other address is as before. *)
Theorem intern_then_lookup cname addr M T s g M' s' :
  imaging_mode s = true → addr ≠ 0 →
  vec_size (jl_sysimg_gvars s) + 1 < 2 ^ 31 →
  jl_value_to_llvm s !! addr = None →
  jl_get_global_for cname addr M T s = Ok (g, M', s') →
  jl_get_llvm_gv addr s' = vec_size (jl_sysimg_gvars s')
  ∧ vec_size (jl_sysimg_gvars s') = vec_size (jl_sysimg_gvars s) + 1
  ∧ jl_sysimg_gvars s' !! Z.to_nat (jl_get_llvm_gv addr s' - 1)
      = Some (gv_name g)
  ∧ ∀ p, p ≠ addr → jl_get_llvm_gv p s' = jl_get_llvm_gv p s.
Proof.
  intros Himg Haddr Hroom Hlook Hget.
  apply jl_get_global_for_miss in Hget as (_ & _ & _ & Hreg & _); [|done].
  rewrite Himg, bool_decide_eq_false_2 in Hreg by done.
  destruct Hreg as [Hgv Hmap]. unfold jl_get_llvm_gv. rewrite Hmap, Hgv.
  rewrite lookup_insert_eq. simpl.
  pose proof (vec_size_nonneg (jl_sysimg_gvars s)) as Hnn.
  rewrite vec_size_app. change (vec_size [gv_name g]) with 1.
  rewrite to_int32_small by lia. split; [done|]. split; [done|]. split.
  - replace (vec_size (jl_sysimg_gvars s) + 1 - 1)
      with (vec_size (jl_sysimg_gvars s) + Z.of_nat 0) by lia.
    by apply lookup_at_size.
  - intros p Hp. by rewrite lookup_insert_ne.
Qed.

(** X8: outside persistence mode, and for the null address, a request
    registers nothing: the table of globals and the index of every address
    are as before; outside persistence mode the shadow module is not
    touched either. *)
Theorem intern_unregistered cname addr M T s g M' s' :
  imaging_mode s = false ∨ addr = 0 →
  jl_get_global_for cname addr M T s = Ok (g, M', s') →
  jl_sysimg_gvars s' = jl_sysimg_gvars s
  ∧ (∀ p, jl_get_llvm_gv p s' = jl_get_llvm_gv p s)
  ∧ (imaging_mode s = false → shadow_output s' = shadow_output s).
Proof.
  intros Hoff Hget.
  destruct (jl_value_to_llvm s !! addr) as [it|] eqn:Hlook.
  - destruct (jl_get_global_for_hit cname addr M T s it Hlook)
      as (g0 & M0 & Hhit & _).
    rewrite Hhit in Hget. by injection Hget as <- <- <-.
  - apply jl_get_global_for_miss in Hget as (_ & _ & _ & Hreg & Hsh); [|done].
    assert (imaging_mode s && negb (bool_decide (addr = 0)) = false) as Hc.
    { destruct Hoff as [-> | ->]; [done|].
      rewrite bool_decide_eq_true_2 by done. apply andb_false_r. }
    rewrite Hc in Hreg. destruct Hreg as [Hgv Hmap].
    split; [done|]. split.
    + intros p. unfold jl_get_llvm_gv. by rewrite Hmap.
    + intros Himg. by rewrite Himg in Hsh.
Qed.

(** X9: in persistence mode a request that creates a symbol appends to
    the shadow module one global of the same name and type, with internal
    linkage and a null pointer as initializer, also when the address is
    null; the globals the shadow module had are kept in place. *)
Theorem intern_shadow_variable cname addr M T s g M' s' :
  imaging_mode s = true →
  jl_value_to_llvm s !! addr = None →
  jl_get_global_for cname addr M T s = Ok (g, M', s') →
  ∃ shadowvar,
    mod_globals (shadow_output s') = mod_globals (shadow_output s) ++ [shadowvar]
    ∧ mod_functions (shadow_output s') = mod_functions (shadow_output s)
    ∧ gv_name shadowvar = gv_name g
    ∧ gv_type shadowvar = T
    ∧ gv_linkage shadowvar = InternalLinkage
    ∧ gv_initializer shadowvar = Some (ConstantPointerNull T).
Proof.
  unfold jl_get_global_for. intros Himg -> Hget.
  apply bind_Ok_inv in Hget as ([slot s2] & Hemit & Hget).
  injection Hget as <- <- <-.
  unfold jl_emit_and_add_to_shadow in Hemit.
  apply bind_Ok_inv in Hemit as (T0 & HT0 & Hemit).
  apply bind_Ok_inv in Hemit as (s1 & Hs1 & Hemit).
  injection Hemit as <- <-. simpl in HT0, Hs1.
  assert (T0 = T) as ->.
  { unfold cast in HT0.
    destruct T; simpl in HT0; destruct LLVM_ASSERTIONS; try done;
      by injection HT0 as <-. }
  rewrite Himg in Hs1.
  apply bind_Ok_inv in Hs1 as (shadowvar & Hsv & Hs1).
  apply addComdat_gv_same in Hsv as (Hn & Ht & _ & Hi & Hl).
  simpl in Hn, Ht, Hi, Hl.
  exists shadowvar.
  destruct (negb _); simpl in Hs1; injection Hs1 as <-; simpl; done.
Qed.

(** X10: [jl_emit_and_add_to_shadow], called in persistence mode with a
    non-null address, always takes the next index: the symbol's name is
    appended to the table of globals and the address is recorded under the
    new size, also when the address was registered before, in which case
    its earlier index is replaced. Indices and positions stay in step. *)
Theorem emit_takes_next_index gv_ p s slot s' :
  imaging_mode s = true → p ≠ 0 →
  vec_size (jl_sysimg_gvars s) + 1 < 2 ^ 31 →
  jl_emit_and_add_to_shadow gv_ p s = Ok (slot, s') →
  jl_sysimg_gvars s' = jl_sysimg_gvars s ++ [gv_name gv_]
  ∧ jl_get_llvm_gv p s' = vec_size (jl_sysimg_gvars s) + 1
  ∧ (∀ q, q ≠ p → jl_get_llvm_gv q s' = jl_get_llvm_gv q s)
  ∧ (registry_indexed s → registry_indexed s').
Proof.
  intros Himg Hp Hroom Hemit.
  pose proof (jl_emit_and_add_to_shadow_registry _ _ _ _ _ Hemit)
    as (_ & _ & Hreg & _).
  rewrite Himg, bool_decide_eq_false_2 in Hreg by done.
  destruct Hreg as [Hgv Hmap].
  pose proof (vec_size_nonneg (jl_sysimg_gvars s)) as Hnn.
  split; [done|]. unfold jl_get_llvm_gv. rewrite Hmap. split.
  - rewrite lookup_insert_eq. simpl. rewrite vec_size_app.
    change (vec_size [gv_name gv_]) with 1. by rewrite to_int32_small by lia.
  - split.
    + intros q Hq. by rewrite lookup_insert_ne.
    + intros Hidx. by eapply registry_indexed_emit.
Qed.

(** X11: symbols created by two successive requests, in either mode and
    for any addresses, never share a name, as long as the prefixes do not
    end in a decimal digit. *)
Theorem fresh_names_differ c1 a1 M1 T1 s g1 M1' s1 c2 a2 M2 T2 g2 M2' s2 :
  0 ≤ globalUnique s →
  ends_in_digit c1 = false → ends_in_digit c2 = false →
  jl_value_to_llvm s !! a1 = None →
  jl_get_global_for c1 a1 M1 T1 s = Ok (g1, M1', s1) →
  jl_value_to_llvm s1 !! a2 = None →
  jl_get_global_for c2 a2 M2 T2 s1 = Ok (g2, M2', s2) →
  gv_name g1 ≠ gv_name g2.
Proof.
  intros HgU Hc1 Hc2 Hl1 Hg1 Hl2 Hg2.
  apply jl_get_global_for_miss in Hg1 as (Hn1 & HgU1 & _); [|done].
  apply jl_get_global_for_miss in Hg2 as (Hn2 & _); [|done].
  rewrite Hn1, Hn2, HgU1. by apply placeholder_next_fresh.
Qed.
End FurtherRegistry.

(* ================================================================== *)
(** ** The compile loops and the created session *)

Lemma mapM_Ok_elem_of {A B} (f : A → result B) (l : list A) (k : list B) :
  mapM f l = Ok k → ∀ y, y ∈ k → ∃ x, x ∈ l ∧ f x = Ok y.
Proof.
  revert k. induction l as [|x l IH]; intros k; simpl.
  - intros [= <-] y Hy. by apply elem_of_nil in Hy.
  - intros Hm. apply bind_Ok_inv in Hm as (y0 & Hy0 & Hm).
    apply bind_Ok_inv in Hm as (k0 & Hk0 & Hm). injection Hm as <-.
    intros y Hy. apply elem_of_cons in Hy as [->|Hy].
    + exists x. split; [by left|done].
    + destruct (IH k0 Hk0 y Hy) as (x' & Hx' & Hfx').
      exists x'. split; [by right|done].
Qed.

Lemma std_map_entries_length {V} (m : gmap Z V) :
  length (std_map_entries m) = size m.
Proof.
  unfold std_map_entries. rewrite merge_sort_Permutation.
  apply length_map_to_list.
Qed.

Section FurtherDriver.
Context {cfg : BuildConfig} {eng : Collaborators}.

Lemma for_each_compile_root_skipped worlds world d methods :
  (∀ mi, mi ∈ methods →
     ∃ li, method_instances (env d) !! mi = Some li
           ∧ in_pass worlds world li (env d) = false) →
  for_each (compile_root worlds world) d methods = Ok d.
Proof.
  induction methods as [|mi methods IH]; intros Hout; [done|].
  destruct (Hout mi) as (li & Hli & Hpass); [by left|].
  assert (Hstep : compile_root worlds world d mi = Ok d).
  { unfold compile_root. rewrite Hli. simpl. by rewrite Hpass. }
  cbn [for_each]. rewrite Hstep.
  change (for_each (compile_root worlds world) d methods = Ok d).
  apply IH. intros mi' Hmi'. apply Hout. by right.
Qed.

(** X12: a root that the first pass takes (it is no longer valid in the
    current world) is skipped by the second pass: the loop body returns
    with nothing inferred, nothing compiled and the state as it was. *)
Theorem root_taken_by_one_pass world d mi li :
  method_instances (env d) !! mi = Some li →
  in_pass 2 world li (env d) = true →
  compile_root 1 (jl_world_counter (env d)) d mi = Ok d.
Proof.
  intros Hli Hfirst. unfold compile_root. rewrite Hli. simpl.
  by rewrite (root_in_one_pass _ _ _ Hfirst).
Qed.

(** X13: when no root is valid in the world of either pass, the compile
    loops call neither inference nor the code generator: nothing is
    emitted, the work queue stays empty and the process state is as it
    was. *)
Theorem roots_out_of_window fuel methods s :
  (∀ mi, mi ∈ methods →
     ∃ li, method_instances s !! mi = Some li
           ∧ in_pass 2 (jl_typeinf_world s) li s = false
           ∧ in_pass 1 (jl_world_counter s) li s = false) →
  compile_all fuel methods s
    = Ok {| emitted := ∅; workqueue := []; calls := []; env := s |}.
Proof.
  intros Hout. unfold compile_all. simpl.
  set (d := {| emitted := ∅; workqueue := []; calls := []; env := s |}).
  assert (Hpass : ∀ worlds,
            worlds = 2 ∨ worlds = 1 → compile_pass fuel methods d worlds = Ok d).
  { intros worlds Hw. unfold compile_pass.
    destruct (bool_decide (_ = 0)); [done|].
    rewrite for_each_compile_root_skipped.
    - simpl. by apply jl_compile_workqueue_nil.
    - intros mi Hmi. destruct (Hout mi Hmi) as (li & Hli & H2 & H1).
      exists li. split; [done|]. by destruct Hw as [-> | ->]. }
  rewrite Hpass by (by left). simpl. rewrite Hpass by (by right). done.
Qed.
End FurtherDriver.

Section FurtherSession.
Context {cfg : BuildConfig} {eng : Collaborators}.

(** X14: in a created session, [jl_get_function_id] answers for exactly
    the specializations for which code generation returned an IR fragment:
    for such a specialization the outputs are overwritten, the first with
    the classification flag code generation reported; for any other one
    (never met, or failed) the outputs are left as they were. *)
Theorem function_ids_cover_compiled fuel methods s0 data s :
  jl_create_native fuel methods s0 = Ok (data, s) →
  ∃ d, compile_all fuel methods s0 = Ok d
       ∧ ∀ mi out,
           match emitted d !! mi with
           | Some r => ∃ c f, jl_get_function_id data mi out = (get3 r, c, f)
           | None => jl_get_function_id data mi out = out
           end.
Proof.
  intros Hc.
  apply jl_create_native_inv in Hc
    as (d & data1 & fs & Hd & -> & Hmerge & _ & _ & _ & Hmap).
  exists d. split; [done|].
  assert (Hinv : ∀ mi,
            match desc.jl_fvar_map data1 !! mi with
            | Some t => ∃ r, (mi, r) ∈ [] ++ std_map_entries (emitted d)
                             ∧ t.1.1 = get3 r
            | None => mi ∉ ([] ++ std_map_entries (emitted d)).*1
            end).
  { eapply (for_each_prefix
              (λ seen data, ∀ mi,
                 match desc.jl_fvar_map data !! mi with
                 | Some t => ∃ r, (mi, r) ∈ seen ∧ t.1.1 = get3 r
                 | None => mi ∉ seen.*1
                 end)); [| |exact Hmerge].
    - intros seen a def a' Hseen Hm mi.
      apply merge_entry_Ok in Hm as (li & _ & _ & _ & Hm). simpl in Hm.
      assert (∃ c0 f0, desc.jl_fvar_map a'
                = <[def.1 := (get3 def.2, c0, f0)]> (desc.jl_fvar_map a))
        as (c0 & f0 & ->).
      { destruct (bool_decide _); destruct Hm as [_ ->]; eauto. }
      destruct (decide (def.1 = mi)) as [<-|Hne].
      + rewrite lookup_insert_eq. exists def.2. split; [|done].
        apply elem_of_app. right. apply list_elem_of_singleton.
        by destruct def.
      + rewrite lookup_insert_ne by done. specialize (Hseen mi).
        destruct (desc.jl_fvar_map a !! mi) as [t|].
        * destruct Hseen as (r & Hr & Ht). exists r.
          split; [apply elem_of_app; by left|done].
        * rewrite fmap_app, elem_of_app. intros [?|Hin]; [done|].
          simpl in Hin. apply list_elem_of_singleton in Hin. congruence.
    - intros mi. simpl. rewrite lookup_empty. apply not_elem_of_nil. }
  simpl in Hinv. intros mi out. unfold jl_get_function_id. rewrite Hmap.
  specialize (Hinv mi).
  destruct (emitted d !! mi) as [r|] eqn:Hem.
  - destruct (desc.jl_fvar_map data1 !! mi) as [[[api c] f]|].
    + destruct Hinv as (r' & Hr' & Hapi). simpl in Hapi.
      apply std_map_entries_elem_of in Hr'.
      assert (r' = r) as -> by congruence. subst api. eauto.
    + destruct Hinv. apply list_elem_of_fmap. exists (mi, r).
      split; [done|]. by apply std_map_entries_elem_of.
  - destruct (desc.jl_fvar_map data1 !! mi) as [t|]; [|done].
    destruct Hinv as (r & Hr & _). apply std_map_entries_elem_of in Hr.
    congruence.
Qed.

(** X15: the function table of a created session holds nothing but
    generic entry points of specializations that were compiled, each under
    a non-empty name, and it has between one and two elements for each
    compiled specialization. *)
Theorem function_table_contents fuel methods s0 data s :
  jl_create_native fuel methods s0 = Ok (data, s) →
  ∃ d, compile_all fuel methods s0 = Ok d
       ∧ (∀ v, v ∈ desc.jl_sysimg_fvars data →
            v ≠ "" ∧ ∃ mi r, emitted d !! mi = Some r
                             ∧ v = functionObject (get1 r))
       ∧ (size (emitted d) ≤ length (desc.jl_sysimg_fvars data)
          ≤ 2 * size (emitted d))%nat.
Proof.
  intros Hc.
  apply jl_create_native_inv in Hc
    as (d & data1 & fs & Hd & -> & Hmerge & _ & _ & Hfv & _).
  exists d. split; [done|]. rewrite Hfv.
  assert (Hinv :
    (∀ v, v ∈ desc.jl_sysimg_fvars data1 →
       v ≠ "" ∧ ∃ def, def ∈ [] ++ std_map_entries (emitted d)
                       ∧ v = functionObject (get1 def.2))
    ∧ (length ([] ++ std_map_entries (emitted d))
       ≤ length (desc.jl_sysimg_fvars data1)
       ≤ 2 * length ([] ++ std_map_entries (emitted d)))%nat).
  { eapply (for_each_prefix
              (λ seen data,
                 (∀ v, v ∈ desc.jl_sysimg_fvars data →
                    v ≠ "" ∧ ∃ def, def ∈ seen
                                    ∧ v = functionObject (get1 def.2))
                 ∧ (length seen ≤ length (desc.jl_sysimg_fvars data)
                    ≤ 2 * length seen)%nat)); [| |exact Hmerge].
    - intros seen a def a' [Hel Hlen] Hm.
      apply merge_entry_Ok in Hm as (li & _ & Hne & _ & Hm). simpl in Hm.
      assert (∃ ext, desc.jl_sysimg_fvars a' = desc.jl_sysimg_fvars a ++ ext
                     ∧ (1 ≤ length ext ≤ 2)%nat
                     ∧ ∀ v, v ∈ ext → v = functionObject (get1 def.2))
        as (ext & -> & Hext & Hv).
      { destruct (bool_decide _); destruct Hm as [-> _]; eexists;
          (split; [done|]); (split; [simpl; lia|]);
          intros v Hin; repeat (apply elem_of_cons in Hin as [->|Hin]; [done|]);
          by apply elem_of_nil in Hin. }
      split.
      + intros v Hin. apply elem_of_app in Hin as [Hin|Hin].
        * destruct (Hel v Hin) as (? & def0 & ? & ?). split; [done|].
          exists def0. split; [apply elem_of_app; by left|done].
        * apply Hv in Hin as ->. split; [done|]. exists def.
          split; [|done]. apply elem_of_app. right.
          by apply list_elem_of_singleton.
      + rewrite !length_app. simpl. lia.
    - split; [|simpl; lia]. intros v Hin. by apply elem_of_nil in Hin. }
  simpl in Hinv. destruct Hinv as [Hel Hlen].
  rewrite std_map_entries_length in Hlen. split; [|done].
  intros v Hin. destruct (Hel v Hin) as (Hne & [mi r] & Hdef & Hv).
  split; [done|]. exists mi, r. by apply std_map_entries_elem_of in Hdef.
Qed.

Lemma mapM_Ok_fmap {A B} (f : A → result B) (g : A → B) (l : list A) :
  (∀ x, f x = Ok (g x)) → mapM f l = Ok (g <$> l).
Proof.
  intros Hf. induction l as [|x l IH]; simpl; [done|].
  rewrite Hf. simpl. rewrite IH. done.
Qed.

(** X1: in a build that is not for Windows, and in any build outside
    persistence mode, [addComdat] changes nothing, so that the module of a
    created session is the merged module with one change: every function
    with a body has its linkage set to internal. Globals, declarations,
    names and order are those of the merged module. *)
Theorem session_functions_normalised fuel methods s0 data s :
  OS_WINDOWS = false ∨ imaging_mode s = false →
  jl_create_native fuel methods s0 = Ok (data, s) →
  ∃ d merged,
    compile_all fuel methods s0 = Ok d
    ∧ for_each (merge_entry s)
        {| desc.M := shadow_output s; desc.jl_sysimg_fvars := [];
           desc.jl_sysimg_gvars := []; desc.jl_fvar_map := ∅ |}
        (std_map_entries (emitted d)) = Ok merged
    ∧ mod_globals (desc.M data) = mod_globals (desc.M merged)
    ∧ mod_functions (desc.M data)
        = (λ F, if fn_hasBody F then fn_setLinkage InternalLinkage F else F)
            <$> mod_functions (desc.M merged).
Proof.
  intros Hoff Hc.
  apply jl_create_native_inv in Hc
    as (d & data1 & fs & Hd & Hs & Hmerge & Hfs & HM & _ & _).
  exists d, data1. split; [done|]. split; [done|].
  rewrite HM. simpl. split; [done|].
  rewrite (mapM_Ok_fmap (internalize s)
             (λ F, if fn_hasBody F then fn_setLinkage InternalLinkage F else F))
    in Hfs.
  - by injection Hfs as <-.
  - intros F. unfold internalize. simpl. destruct (fn_hasBody F); simpl; [|done].
    apply addComdat_unchanged. destruct Hoff as [?|?]; eauto.
Qed.

Lemma internalize_Ok rt F F' :
  internalize rt F = Ok F' →
  fn_name F' = fn_name F ∧ fn_hasBody F' = fn_hasBody F
  ∧ (fn_hasBody F = false → F' = F)
  ∧ (fn_hasBody F = true →
     fn_linkage F' = InternalLinkage
     ∧ (OS_WINDOWS = true → imaging_mode rt = true →
        fn_dllStorage F' = DefaultStorageClass)).
Proof.
  unfold internalize. simpl. destruct (fn_hasBody F) eqn:Hbody; simpl.
  - intros Hadd.
    pose proof (addComdat_fn_same _ _ _ _ Hadd) as (Hn & _ & Hb & Hl).
    simpl in Hn, Hb, Hl. rewrite Hb. do 3 (split; [done|]).
    intros _. split; [done|]. intros Hwin Himg.
    by destruct (addComdat_windows_fn rt false (fn_setLinkage InternalLinkage F)
                   F' Hwin Himg Hbody Hadd) as [-> _].
  - intros [= <-]. by rewrite Hbody.
Qed.

(** X16: in the module of a created session every function with a body
    has internal linkage, so that on Windows in persistence mode none of
    them is exported. *)
Theorem session_functions_internal fuel methods s0 data s :
  jl_create_native fuel methods s0 = Ok (data, s) →
  ∀ F, F ∈ mod_functions (desc.M data) → fn_hasBody F = true →
    fn_linkage F = InternalLinkage
    ∧ (OS_WINDOWS = true → imaging_mode s = true →
       fn_dllStorage F = DefaultStorageClass).
Proof.
  intros Hc F HF Hbody.
  apply jl_create_native_inv in Hc
    as (d & data1 & fs & _ & _ & _ & Hfs & HM & _ & _).
  rewrite HM in HF. simpl in HF.
  destruct (mapM_Ok_elem_of _ _ _ Hfs F HF) as (F0 & _ & Hint).
  apply internalize_Ok in Hint as (_ & Hb & _ & Hdef).
  apply Hdef. congruence.
Qed.

(** X17: in a created session whose function table fits the [uint32_t]
    indices, no table position is recorded for two specializations: the
    generic indices of two specializations differ, and a specialized index
    that is not 0 differs from both indices of any other specialization. *)
Theorem function_indices_distinct fuel methods s0 data s :
  jl_create_native fuel methods s0 = Ok (data, s) →
  vec_size (desc.jl_sysimg_fvars data) < 2 ^ 32 →
  ∀ mi1 mi2 api1 c1 f1 api2 c2 f2,
    desc.jl_fvar_map data !! mi1 = Some (api1, c1, f1) →
    desc.jl_fvar_map data !! mi2 = Some (api2, c2, f2) →
    mi1 ≠ mi2 →
    f1 ≠ f2 ∧ (c1 ≠ 0 → c1 ≠ f2 ∧ c1 ≠ c2).
Proof.
  intros Hc.
  apply jl_create_native_inv in Hc
    as (d & data1 & fs & Hd & -> & Hmerge & _ & _ & -> & ->).
  assert (Hinv :
    triples_ok ([] ++ std_map_entries (emitted d)) data1
    ∧ (vec_size (desc.jl_sysimg_fvars data1) < 2 ^ 32 →
       ∀ mi1 mi2 api1 c1 f1 api2 c2 f2,
         desc.jl_fvar_map data1 !! mi1 = Some (api1, c1, f1) →
         desc.jl_fvar_map data1 !! mi2 = Some (api2, c2, f2) →
         mi1 ≠ mi2 →
         f1 ≠ f2 ∧ (c1 ≠ 0 → c1 ≠ f2 ∧ c1 ≠ c2))).
  { eapply (for_each_prefix
              (λ seen data,
                 triples_ok seen data
                 ∧ (vec_size (desc.jl_sysimg_fvars data) < 2 ^ 32 →
                    ∀ mi1 mi2 api1 c1 f1 api2 c2 f2,
                      desc.jl_fvar_map data !! mi1 = Some (api1, c1, f1) →
                      desc.jl_fvar_map data !! mi2 = Some (api2, c2, f2) →
                      mi1 ≠ mi2 →
                      f1 ≠ f2 ∧ (c1 ≠ 0 → c1 ≠ f2 ∧ c1 ≠ c2))));
      [| |exact Hmerge].
    - intros seen a def a' [Htri Hdist] Hm.
      split; [by eapply merge_entry_triples|].
      apply merge_entry_Ok in Hm as (li & _ & _ & _ & Hm). simpl in Hm.
      pose proof (vec_size_nonneg (desc.jl_sysimg_fvars a)) as Hnn.
      intros Hbound.
      assert (Hcase : ∃ c0 f0,
                desc.jl_fvar_map a'
                  = <[def.1 := (get3 def.2, c0, f0)]> (desc.jl_fvar_map a)
                ∧ vec_size (desc.jl_sysimg_fvars a) < f0
                ∧ (c0 = 0 ∨ c0 = vec_size (desc.jl_sysimg_fvars a) + 1)
                ∧ vec_size (desc.jl_sysimg_fvars a) < 2 ^ 32
                ∧ c0 ≠ f0).
      { destruct (bool_decide _); destruct Hm as [Hf Hmap];
          rewrite Hf, vec_size_app in Hbound.
        - change (vec_size [_; _]) with 2 in Hbound.
          do 2 eexists. split; [exact Hmap|].
          rewrite !to_uint32_small by lia. lia.
        - change (vec_size [_]) with 1 in Hbound.
          do 2 eexists. split; [exact Hmap|].
          rewrite !to_uint32_small by lia. lia. }
      destruct Hcase as (c0 & f0 & Hmap & Hf0 & Hc0 & Hb & Hcf).
      assert (Hold : ∀ mi api c f,
                desc.jl_fvar_map a !! mi = Some (api, c, f) →
                1 ≤ f ≤ vec_size (desc.jl_sysimg_fvars a)
                ∧ (c = 0 ∨ 1 ≤ c ∧ c = f - 1)).
      { intros mi api c f Hmi.
        destruct (Htri Hb mi api c f Hmi) as (r & _ & _ & ? & _ & ?). done. }
      intros mi1 mi2 api1 c1 f1 api2 c2 f2 H1 H2 Hne.
      rewrite Hmap in H1, H2.
      destruct (decide (def.1 = mi1)) as [<-|Hne1].
      + rewrite lookup_insert_eq in H1. injection H1 as <- <- <-.
        rewrite lookup_insert_ne in H2 by done.
        destruct (Hold _ _ _ _ H2) as [? ?]. lia.
      + rewrite lookup_insert_ne in H1 by done.
        destruct (Hold _ _ _ _ H1) as [? ?].
        destruct (decide (def.1 = mi2)) as [<-|Hne2].
        * rewrite lookup_insert_eq in H2. injection H2 as <- <- <-. lia.
        * rewrite lookup_insert_ne in H2 by done.
          by apply (Hdist Hb mi1 mi2 api1 c1 f1 api2 c2 f2).
    - split.
      + intros _ mi api c f Hmi. simpl in Hmi. by rewrite lookup_empty in Hmi.
      + intros _ mi1 mi2 api1 c1 f1 api2 c2 f2 H1. simpl in H1.
        by rewrite lookup_empty in H1. }
  destruct Hinv as [_ Hdist]. exact Hdist.
Qed.
End FurtherSession.

(* ================================================================== *)
(** ** Emission and [jl_add_to_shadow] *)

Lemma mapM_Ok_Forall2 {A B} (f : A → result B) (l : list A) (k : list B) :
  mapM f l = Ok k → Forall2 (λ x y, f x = Ok y) l k.
Proof.
  revert k. induction l as [|x l IH]; intros k; simpl.
  - intros [= <-]. constructor.
  - intros Hm. apply bind_Ok_inv in Hm as (y0 & Hy0 & Hm).
    apply bind_Ok_inv in Hm as (k0 & Hk0 & Hm). injection Hm as <-.
    constructor; [done|]. by apply IH.
Qed.

Lemma getNamedValue_add_global_ne g m name :
  gv_name g ≠ name →
  getNamedValue (Module_add_global g m) name = getNamedValue m name.
Proof.
  intros Hne. unfold getNamedValue. case_bool_decide; [done|].
  assert (getGlobalVariable (Module_add_global g m) name
          = getGlobalVariable m name) as ->; [|done].
  unfold getGlobalVariable, Module_add_global. simpl.
  induction (mod_globals m) as [|g0 gs IH]; simpl.
  - by rewrite bool_decide_eq_false_2.
  - by destruct (bool_decide (gv_name g0 = name)).
Qed.

Lemma getNamedValue_name m name v :
  getNamedValue m name = Some v → GlobalValue_getName v = name.
Proof.
  unfold getNamedValue. case_bool_decide; [done|].
  unfold getGlobalVariable, getFunction.
  destruct (find _ (mod_globals m)) as [g|] eqn:Hg.
  - intros [= <-]. apply find_some in Hg as [_ Hn].
    by apply bool_decide_eq_true in Hn.
  - destruct (find _ (mod_functions m)) as [f|] eqn:Hf; [|done].
    intros [= <-]. apply find_some in Hf as [_ Hn].
    by apply bool_decide_eq_true in Hn.
Qed.

Section FurtherEmitter.
Context {cfg : BuildConfig}.

Lemma add_session_global_same s g post m :
  ∃ g', add_session_global s g post m = Ok (Module_add_global (post g') m)
        ∧ same_definition g g'.
Proof.
  unfold add_session_global.
  destruct (addComdat_session_total s g) as [g' Hg']. rewrite Hg'.
  exists g'. split; [done|]. by eapply addComdat_gv_same.
Qed.

Lemma emit_offset_table_total m vars name T :
  vars ≠ [] ∨ JL_NDEBUG = true →
  emit_offset_table m vars name T
    = Ok (Module_add_global (offset_table vars name T) m).
Proof.
  intros Hok. unfold emit_offset_table, assert.
  destruct Hok as [Hne | ->]; [|done].
  rewrite bool_decide_eq_false_2 by done. by rewrite orb_true_r.
Qed.

(** The globals [jl_gen_llvm_globaldata] appends, one by one. *)
Lemma jl_gen_llvm_globaldata_inv data payload len s data' :
  jl_gen_llvm_globaldata data payload len s = Ok data' →
  ∃ counter h hp tail,
    getNamedValue (desc.M data) "jl_RTLD_DEFAULT_handle" = Some h
    ∧ desc.M data'
        = Module_with_globals
            (mod_globals (desc.M data)
             ++ [offset_table (desc.jl_sysimg_gvars data) "jl_sysimg_gvars" T_psize;
                 offset_table (desc.jl_sysimg_fvars data) "jl_sysimg_fvars" T_psize;
                 counter; hp] ++ tail)
            (desc.M data)
    ∧ same_definition
        (new_GlobalVariable (GlobalValue_getType h) true ExternalLinkage
           (Some (GlobalAddress "jl_RTLD_DEFAULT_handle"))
           "jl_RTLD_DEFAULT_handle_pointer") hp
    ∧ match payload with
      | None => tail = []
      | Some bytes =>
          ∃ blob blen,
            tail = [blob; blen]
            ∧ same_definition
                (new_GlobalVariable
                   (ArrayTy (IntegerTy 8) (vec_size (take (Z.to_nat len) bytes)))
                   false ExternalLinkage
                   (Some (ConstantDataArray (take (Z.to_nat len) bytes)))
                   "jl_system_image_data") blob
            ∧ gv_alignment blob = 64
            ∧ same_definition
                (new_GlobalVariable T_size true ExternalLinkage
                   (Some (ConstantInt_get T_size len)) "jl_system_image_size")
                blen
      end.
Proof.
  unfold jl_gen_llvm_globaldata. intros Hgen.
  apply bind_Ok_inv in Hgen as (m1 & Hm1 & Hgen).
  apply emit_offset_table_Ok in Hm1 as [_ ->].
  apply bind_Ok_inv in Hgen as (m2 & Hm2 & Hgen).
  apply emit_offset_table_Ok in Hm2 as [_ ->].
  apply bind_Ok_inv in Hgen as (m3 & Hm3 & Hgen).
  apply add_session_global_Ok in Hm3 as (counter & Hcounter & ->).
  apply bind_Ok_inv in Hgen as (h & Hh & Hgen).
  apply bind_Ok_inv in Hgen as (m4 & Hm4 & Hgen).
  apply add_session_global_Ok in Hm4 as (hp & Hhp & ->).
  apply bind_Ok_inv in Hgen as (m5 & Hm5 & Hgen).
  injection Hgen as <-. simpl.
  unfold deref in Hh.
  destruct (getNamedValue _ _) as [h0|] eqn:Hlook in Hh; [|done].
  injection Hh as ->.
  pose proof (getNamedValue_name _ _ _ Hlook) as Hname.
  rewrite Hname in Hhp.
  destruct Hcounter as (Hcn & _).
  rewrite !getNamedValue_add_global_ne in Hlook
    by (unfold id; rewrite ?Hcn; done).
  exists counter, h, hp.
  destruct payload as [bytes|].
  - apply bind_Ok_inv in Hm5 as (m6 & Hm6 & Hm5).
    apply add_session_global_Ok in Hm6 as (blob & Hblob & ->).
    apply add_session_global_Ok in Hm5 as (blen & Hblen & ->).
    exists [gv_setAlignment 64 blob; blen].
    split; [done|]. split.
    { unfold Module_add_global, Module_with_globals, id. simpl.
      by rewrite <- !app_assoc. }
    split; [done|]. exists (gv_setAlignment 64 blob), blen.
    split; [done|]. split; [exact Hblob|]. split; [done|]. exact Hblen.
  - injection Hm5 as <-. exists [].
    split; [done|]. split; [|done].
    unfold Module_add_global, Module_with_globals, id. simpl.
    by rewrite <- !app_assoc.
Qed.

Lemma jl_gen_llvm_globaldata_no_handle data payload len s :
  getNamedValue (desc.M data) "jl_RTLD_DEFAULT_handle" = None →
  (desc.jl_sysimg_gvars data ≠ [] ∧ desc.jl_sysimg_fvars data ≠ [])
  ∨ JL_NDEBUG = true →
  jl_gen_llvm_globaldata data payload len s = Abort NullDereference.
Proof.
  intros Hnone Hok. unfold jl_gen_llvm_globaldata.
  rewrite emit_offset_table_total by (destruct Hok as [[? ?]|?]; eauto).
  change (Ok ?x ≫= ?f) with (f x). cbv beta.
  rewrite emit_offset_table_total by (destruct Hok as [[? ?]|?]; eauto).
  change (Ok ?x ≫= ?f) with (f x). cbv beta.
  match goal with
  | |- context [add_session_global s ?g id ?m] =>
      destruct (add_session_global_same s g id m) as (c & -> & Hc & _)
  end.
  change (Ok ?x ≫= ?f) with (f x). cbv beta.
  rewrite !getNamedValue_add_global_ne by (unfold id; rewrite ?Hc; done).
  by rewrite Hnone.
Qed.
End FurtherEmitter.

Section FurtherEmission.
Context {cfg : BuildConfig} {eng : Collaborators}.

Lemma PM_run_pipeline bc unopt obj m :
  PM_run (build_pipeline bc unopt obj).1 m
  = written_if_opened unopt (Bitcode m)
    ++ written_if_opened bc (Bitcode (run_optimization jl_options_opt_level m))
    ++ (if addPassesToEmitFile then []
        else written_if_opened obj
               (ObjectFile (run_optimization jl_options_opt_level m))).
Proof.
  unfold build_pipeline, open_unopt_bc, open_bc, open_obj, written_if_opened.
  destruct unopt as [u|], bc as [b|], obj as [o|];
    repeat match goal with
    | |- context [openFileForWrite ?f] =>
        destruct (openFileForWrite f) eqn:?
    end;
    destruct addPassesToEmitFile; reflexivity.
Qed.

(** X18: the files of one emission, in the order of the pipeline: the
    unoptimized bitcode holds the module as the pipeline got it, then the
    optimized bitcode and the object file both hold the module after the
    optimization stage; a destination that was not requested or did not
    open contributes nothing, and neither does the object file on a target
    that cannot emit one. *)
Theorem written_in_pipeline_order data bc unopt obj payload len s e s1 :
  jl_dump_native data bc unopt obj payload len s = Ok (e, s1) →
  written e
  = written_if_opened unopt (Bitcode (emitted_module e))
    ++ written_if_opened bc
         (Bitcode (run_optimization jl_options_opt_level (emitted_module e)))
    ++ (if addPassesToEmitFile then []
        else written_if_opened obj
               (ObjectFile
                  (run_optimization jl_options_opt_level (emitted_module e)))).
Proof.
  intros Hdump.
  apply jl_dump_native_Ok_inv in Hdump as (data' & _ & -> & _). simpl.
  apply PM_run_pipeline.
Qed.

Lemma prepare_module_retargets data payload len s data' :
  prepare_module data payload len s = Ok data' →
  mod_targetTriple (desc.M data') = TM_getTargetTriple
  ∧ mod_dataLayout (desc.M data') = emission_data_layout
  ∧ mod_functions (desc.M data') = mod_functions (desc.M data).
Proof.
  unfold prepare_module. destruct (imaging_mode s).
  - intros Hgen.
    apply jl_gen_llvm_globaldata_inv in Hgen
      as (counter & h & hp & tail & _ & -> & _). done.
  - by intros [= <-].
Qed.

(** X19: in either mode, emission retargets the module: it gets the
    triple of the target machine and its data layout, with the suffix for
    the non-integral address spaces 10, 11 and 12 from LLVM 4 on. The
    functions of the module are as in the session, and of the process
    state only the persistence flag changes: registry, counter and shadow
    module are as before. *)
Theorem emission_retargets data bc unopt obj payload len s e s1 :
  jl_dump_native data bc unopt obj payload len s = Ok (e, s1) →
  mod_targetTriple (emitted_module e) = TM_getTargetTriple
  ∧ mod_dataLayout (emitted_module e) = emission_data_layout
  ∧ mod_functions (emitted_module e) = mod_functions (desc.M data)
  ∧ s1 = set_imaging_mode false s.
Proof.
  intros Hdump.
  apply jl_dump_native_Ok_inv in Hdump as (data' & Hprep & -> & ->). simpl.
  apply prepare_module_retargets in Hprep as (? & ? & ?). done.
Qed.

(** X20: in persistence mode, after the two offset tables and the
    counter, emission appends a constant global
    [jl_RTLD_DEFAULT_handle_pointer] initialized with the address of the
    module's value [jl_RTLD_DEFAULT_handle] and of that value's type; then,
    only when a payload is supplied, the payload bytes as a non-constant
    byte array [jl_system_image_data] aligned to 64 and its length as the
    constant scalar [jl_system_image_size]. *)
Theorem emission_metadata_globals data bc unopt obj payload len s e s1 :
  imaging_mode s = true →
  jl_dump_native data bc unopt obj payload len s = Ok (e, s1) →
  ∃ gtab ftab counter hp h tail,
    getNamedValue (desc.M data) "jl_RTLD_DEFAULT_handle" = Some h
    ∧ mod_globals (emitted_module e)
        = mod_globals (desc.M data) ++ [gtab; ftab; counter; hp] ++ tail
    ∧ gv_name hp = "jl_RTLD_DEFAULT_handle_pointer"
    ∧ gv_isConstant hp = true
    ∧ gv_type hp = GlobalValue_getType h
    ∧ gv_initializer hp = Some (GlobalAddress "jl_RTLD_DEFAULT_handle")
    ∧ match payload with
      | None => tail = []
      | Some bytes =>
          ∃ blob blen,
            tail = [blob; blen]
            ∧ gv_name blob = "jl_system_image_data"
            ∧ gv_isConstant blob = false
            ∧ gv_alignment blob = 64
            ∧ gv_type blob
                = ArrayTy (IntegerTy 8) (vec_size (take (Z.to_nat len) bytes))
            ∧ gv_initializer blob
                = Some (ConstantDataArray (take (Z.to_nat len) bytes))
            ∧ gv_name blen = "jl_system_image_size"
            ∧ gv_isConstant blen = true
            ∧ gv_type blen = T_size
            ∧ gv_initializer blen = Some (ConstantInt_get T_size len)
      end.
Proof.
  intros Himg Hdump.
  apply jl_dump_native_Ok_inv in Hdump as (data' & Hprep & -> & _). simpl.
  unfold prepare_module in Hprep. rewrite Himg in Hprep.
  apply jl_gen_llvm_globaldata_inv in Hprep
    as (counter & h & hp & tail & Hh & -> & Hhp & Htail).
  simpl in Hh.
  destruct Hhp as (Hn & Ht & Hc & Hi & _). simpl in Hn, Ht, Hc, Hi.
  do 3 eexists. exists hp, h, tail.
  split; [exact Hh|]. split; [reflexivity|]. do 4 (split; [done|]).
  destruct payload as [bytes|]; [|done].
  destruct Htail as (blob & blen & -> & Hblob & Hal & Hblen).
  destruct Hblob as (? & ? & ? & ? & _). destruct Hblen as (? & ? & ? & ? & _).
  exists blob, blen. done.
Qed.

(** X21: in persistence mode, emission of a session whose module has no
    value named [jl_RTLD_DEFAULT_handle] stops the process at the
    dereference of the missing value, once the offset tables are past
    their assertion (both tables non-empty, or assertions compiled out). *)
Theorem emission_needs_handle data bc unopt obj payload len s :
  imaging_mode s = true →
  getNamedValue (desc.M data) "jl_RTLD_DEFAULT_handle" = None →
  (desc.jl_sysimg_gvars data ≠ [] ∧ desc.jl_sysimg_fvars data ≠ [])
  ∨ JL_NDEBUG = true →
  jl_dump_native data bc unopt obj payload len s = Abort NullDereference.
Proof.
  intros Himg Hnone Hok. unfold jl_dump_native.
  destruct (build_pipeline bc unopt obj) as [PM errs].
  unfold prepare_module. rewrite Himg.
  by rewrite jl_gen_llvm_globaldata_no_handle.
Qed.
End FurtherEmission.

Section FurtherShadow.
Context {cfg : BuildConfig}.

(** X22: [jl_add_to_shadow] hands to the merge a copy of the module in
    which every function with a body has internal linkage and every
    declaration, like every global, is as it was, names and order
    included; it stops only if the merge does, and on return only the
    shadow module of the process state has changed. *)
Theorem jl_add_to_shadow_clone m s :
  ∃ clone,
    mod_globals clone = mod_globals m
    ∧ Forall2 (λ F F', fn_name F' = fn_name F
                       ∧ fn_hasBody F' = fn_hasBody F
                       ∧ (fn_hasBody F = false → F' = F)
                       ∧ (fn_hasBody F = true → fn_linkage F' = InternalLinkage))
        (mod_functions m) (mod_functions clone)
    ∧ jl_add_to_shadow m s
        = (λ shadow, set_shadow_output shadow s)
            <$> jl_merge_module (shadow_output s) clone.
Proof.
  unfold jl_add_to_shadow.
  destruct (mapM_total (internalize s) (mod_functions m)) as [fs Hfs].
  { intros F. unfold internalize. destruct (negb _); [|by eexists].
    apply addComdat_session_total. }
  rewrite Hfs. exists (Module_with_functions fs m).
  split; [done|]. split.
  - simpl. apply mapM_Ok_Forall2 in Hfs.
    eapply Forall2_impl; [exact Hfs|]. intros F F' Hint. simpl in Hint.
    apply internalize_Ok in Hint as (? & ? & ? & Hdef).
    do 3 (split; [done|]). intros Hb. by apply Hdef.
  - simpl. by destruct (jl_merge_module _ _).
Qed.
End FurtherShadow.

(* ================================================================== *)
(** * Concrete runs *)

#[local] Existing Instance Scenario.linux64.



(** The states used below satisfy the registry invariants. *)
Lemma interned_get :
  ∃ g M,
    jl_get_global_for "jl_global#" 4096 empty_module Scenario.T_prjlvalue
      (Scenario.process true [(200, Scenario.instance 50)])
    = Ok (g, M, Scenario.interned).
Proof. do 2 eexists. reflexivity. Qed.

Lemma interned_indexed : registry_indexed Scenario.interned.
Proof.
  destruct interned_get as (g & M & Hget).
  eapply registry_indexed_preserved; [| |exact Hget].
  - split; [done|]. intros p it Hp. simpl in Hp. by rewrite lookup_empty in Hp.
  - done.
Qed.

Lemma process_in_shadow b mis : registry_in_shadow (Scenario.process b mis).
Proof. intros v Hv. simpl in Hv. by apply elem_of_nil in Hv. Qed.

(** C1 at the failing input: root [100] has a generic entry point only
    (the code generator returns no specialized declaration) and return
    types that agree; the session records the specialized index 1. *)
Lemma specialized_index_without_specialized_entry :
  let eng := Scenario.engine Scenario.generic_only [] false in
  let s := Scenario.process false [(100, Scenario.instance 50)] in
  specFunctionObject (get1 (Scenario.generic_only 100).1) = ""
  ∧ ∃ data,
      jl_create_native (eng := eng) 1 [100] s = Ok (data, s)
      ∧ desc.jl_fvar_map data !! 100 = Some (1, 1, 2)
      ∧ jl_get_function_id data 100 (0, 0, 0) = (1, 1, 2).
Proof. split; [reflexivity|]. eexists. split; [reflexivity|]. done. Qed.

(** C2 at the failing input: for the same root the function table has
    two elements, both the generic entry point, and the triple is
    [(flag, 1, 2)] where the claim expects length 1 and [(flag, 0, 1)]. *)
Lemma generic_only_root_session :
  let eng := Scenario.engine Scenario.generic_only [] false in
  let s := Scenario.process false [(100, Scenario.instance 50)] in
  ∃ data,
    jl_create_native (eng := eng) 1 [100] s = Ok (data, s)
    ∧ desc.jl_sysimg_fvars data = ["jfptr_f_1"; "jfptr_f_1"]
    ∧ desc.jl_fvar_map data !! 100 = Some (1, 1, 2).
Proof. eexists. split; [reflexivity|]. done. Qed.

(** The second scenario of C2 holds on the code: a root with both entry
    points and agreeing return types gets a table of length 2 and the triple
    [(flag, 1, 2)]. Both positions hold the generic entry point. *)
Lemma specialized_root_session :
  let s := Scenario.process false [(200, Scenario.instance 50)] in
  ∃ data,
    jl_create_native (eng := Scenario.plain) 1 [200] s = Ok (data, s)
    ∧ desc.jl_sysimg_fvars data = ["jfptr_g_2"; "jfptr_g_2"]
    ∧ desc.jl_fvar_map data !! 200 = Some (1, 1, 2).
Proof. eexists. split; [reflexivity|]. done. Qed.

(** C3 as stated fails in persistence mode, in a build with assertions:
    the session created from no roots has an empty function table, and
    emission stops at the emitter's assertion. *)
Lemma empty_session_emission_aborts :
  let s := Scenario.process true [] in
  ∃ data,
    jl_create_native (eng := Scenario.plain) 1 [] s = Ok (data, s)
    ∧ jl_dump_native (eng := Scenario.plain) data None None None None 0 s
        = Abort AssertionFailure.
Proof. eexists. split; reflexivity. Qed.

(** C3 (as amended) at a process outside persistence mode. *)
Lemma empty_session_emission_witness :
  let s := Scenario.process false [] in
  registry_in_shadow s
  ∧ ∃ data,
      jl_create_native (eng := Scenario.plain) 1 [] s = Ok (data, s)
      ∧ desc.jl_sysimg_fvars data = []
      ∧ desc.jl_fvar_map data = ∅
      ∧ desc.jl_sysimg_gvars data = jl_sysimg_gvars s
      ∧ ∃ e, jl_dump_native (eng := Scenario.plain) data None None None None 0 s
               = Ok (e, set_imaging_mode false s)
             ∧ written e = [] ∧ diagnostics e = []
             ∧ mod_globals (emitted_module e) = mod_globals (shadow_output s).
Proof.
  intros s. split; [apply process_in_shadow|].
  destruct (empty_session_emission (eng := Scenario.plain) 1 s None 0
              (process_in_shadow false []))
    as (data & Hcreate & Hf & Hmap & Hg & Hoff & _).
  exists data. split; [exact Hcreate|]. split; [exact Hf|].
  split; [exact Hmap|]. split; [exact Hg|]. exact (Hoff eq_refl).
Defined.

(** In a build without assertions the session of an empty root list is
    emitted in persistence mode, with tables of length 0. *)
Lemma empty_session_emission_release :
  let s := Scenario.process true [] in
  ∃ data e rest,
    jl_create_native (cfg := Scenario.linux64_release) (eng := Scenario.plain)
      1 [] s = Ok (data, s)
    ∧ jl_dump_native (cfg := Scenario.linux64_release) (eng := Scenario.plain)
        data None None None None 0 s = Ok (e, set_imaging_mode false s)
    ∧ mod_globals (emitted_module e)
        = mod_globals (shadow_output s)
          ++ offset_table [] "jl_sysimg_gvars" (PointerTy (IntegerTy 64))
          :: offset_table [] "jl_sysimg_fvars" (PointerTy (IntegerTy 64))
          :: rest.
Proof.
  do 3 eexists. split; [reflexivity|]. split; [vm_compute; reflexivity|].
  vm_compute. reflexivity.
Qed.

(** C4 as stated fails: one address is registered, so the largest index
    is 1, while the counter global is written with the value 2. *)
Lemma counter_is_not_high_water :
  ∃ e s1 g,
    jl_dump_native (eng := Scenario.plain) Scenario.session200
      None None None None 0 Scenario.interned = Ok (e, s1)
    ∧ getGlobalVariable (emitted_module e) "jl_globalUnique" = Some g
    ∧ gv_initializer g = Some (ConstantInt (IntegerTy 64) 2)
    ∧ high_water_index Scenario.interned = 1
    ∧ vec_size (jl_sysimg_gvars Scenario.interned) = 1.
Proof.
  do 3 eexists. split; [vm_compute; reflexivity|].
  split; [vm_compute; reflexivity|]. done.
Qed.

(** C4 (as amended) on the same run: the counter is 1, the global
    holds 2, and it holds 2 whatever the registry is replaced with. *)
Lemma counter_global_witness :
  let s := Scenario.interned in
  imaging_mode s = true
  ∧ ∃ e s1,
      jl_dump_native (eng := Scenario.plain) Scenario.session200
        None None None None 0 s = Ok (e, s1)
      ∧ (∃ counter rest,
           mod_globals (emitted_module e)
             = mod_globals (desc.M Scenario.session200)
               ++ offset_table (desc.jl_sysimg_gvars Scenario.session200)
                    "jl_sysimg_gvars" T_psize
               :: offset_table (desc.jl_sysimg_fvars Scenario.session200)
                    "jl_sysimg_fvars" T_psize
               :: counter :: rest
           ∧ gv_name counter = "jl_globalUnique"
           ∧ gv_type counter = T_size
           ∧ gv_isConstant counter = true
           ∧ gv_initializer counter = Some (ConstantInt T_size 2))
      ∧ (∀ gvars m,
           jl_dump_native (eng := Scenario.plain) Scenario.session200
             None None None None 0 (set_registry gvars m s)
           = Ok (e, set_registry gvars m s1)).
Proof.
  intros s. split; [reflexivity|].
  destruct (jl_dump_native (eng := Scenario.plain) Scenario.session200
              None None None None 0 s)
    as [[e s1]|] eqn:Hrun; [|vm_compute in Hrun; discriminate Hrun].
  exists e, s1. split; [reflexivity|].
  destruct (counter_global (eng := Scenario.plain) Scenario.session200
              None None None None 0 s e s1 eq_refl Hrun)
    as ((counter & rest & Hg & Hn & Ht & Hc & _ & Hsmall) & _ & Hreg).
  split; [|exact Hreg]. exists counter, rest.
  split; [exact Hg|]. split; [exact Hn|]. split; [exact Ht|].
  split; [exact Hc|].
  assert (Hrange : 0 ≤ globalUnique s + 1 < 2 ^ 31)
    by (vm_compute; split; [discriminate|reflexivity]).
  exact (Hsmall Hrange).
Defined.

(** C5 as stated fails: code generation fails for root [100], which is
    listed twice, and the identity is passed to the code generator twice. *)
Lemma failed_identity_compiled_twice :
  let eng := Scenario.engine Scenario.nothing_compiles [] false in
  ∃ d,
    compile_all (eng := eng) 1 [100; 100]
      (Scenario.process false [(100, Scenario.instance 50)]) = Ok d
    ∧ calls d = [(100, false); (100, false)].
Proof. eexists. split; reflexivity. Qed.

(** C5 (as amended) on a run where the roots [200] and [300] call each
    other and [200] is listed twice: each is compiled once, and the drain of
    the queue compiles nothing. *)
Lemma compiled_once_witness :
  let eng := Scenario.engine Scenario.mutual_callers [] false in
  let s := Scenario.process false
             [(200, Scenario.instance 50); (300, Scenario.instance 51)] in
  ∃ d,
    compile_all (eng := eng) 4 [200; 300; 200] s = Ok d
    ∧ calls d = [(200, true); (300, true)]
    ∧ (∀ (i j : nat) mi mi' b,
         (i < j)%nat → calls d !! i = Some (mi, true) →
         calls d !! j = Some (mi', b) → mi' ≠ mi)
    ∧ NoDup (succeeded (calls d))
    ∧ (∀ mi, is_Some (emitted d !! mi) ↔ mi ∈ succeeded (calls d)).
Proof.
  intros eng s. eexists. split; [reflexivity|]. split; [reflexivity|].
  destruct (compiled_once (eng := eng) 4 [200; 300; 200] s) as [Hloops _].
  exact (Hloops _ eq_refl).
Defined.


(** X23 on the session of root [200], emitted with a payload. *)
Lemma offset_tables_follow_indices_witness :
  let s := Scenario.interned in
  let data := Scenario.session200 in
  jl_create_native (eng := Scenario.plain) 1 [200] s = Ok (data, s)
  ∧ registry_indexed s
  ∧ vec_size (desc.jl_sysimg_fvars data) < 2 ^ 32
  ∧ imaging_mode s = true
  ∧ ∃ e s3,
      jl_dump_native (eng := Scenario.plain) data None None (Some "sys.o")
        (Some [1; 2; 3]) 3 s = Ok (e, s3)
      ∧ ∃ d gtab ftab rest,
          compile_all (eng := Scenario.plain) 1 [200] s = Ok d
          ∧ mod_globals (emitted_module e)
              = mod_globals (desc.M data) ++ gtab :: ftab :: rest
          ∧ (gv_name gtab = "jl_sysimg_gvars" ∧ gv_isConstant gtab = true
             ∧ gv_type gtab = ArrayTy T_psize (vec_size (jl_sysimg_gvars s))
             ∧ table_elements gtab
                 = (λ v, ConstantBitCast v T_psize) <$> jl_sysimg_gvars s)
          ∧ (gv_name ftab = "jl_sysimg_fvars" ∧ gv_isConstant ftab = true
             ∧ gv_type ftab
                 = ArrayTy T_psize (vec_size (desc.jl_sysimg_fvars data))
             ∧ table_elements ftab
                 = (λ v, ConstantBitCast v T_psize) <$> desc.jl_sysimg_fvars data)
          ∧ (∀ p it, jl_value_to_llvm s !! p = Some it →
               index it ≠ 0
               ∧ table_elements gtab !! Z.to_nat (index it - 1)
                   = Some (ConstantBitCast (gv_name (gv it)) T_psize))
          ∧ (∀ mi api c f, desc.jl_fvar_map data !! mi = Some (api, c, f) →
               ∃ r, emitted d !! mi = Some r
                    ∧ f ≠ 0
                    ∧ table_elements ftab !! Z.to_nat (f - 1)
                        = Some (ConstantBitCast (functionObject (get1 r)) T_psize)
                    ∧ (c = 0
                       ∨ 1 ≤ c
                         ∧ table_elements ftab !! Z.to_nat (c - 1)
                             = Some (ConstantBitCast (functionObject (get1 r))
                                       T_psize))).
Proof.
  intros s data.
  split; [reflexivity|]. split; [apply interned_indexed|].
  split; [done|]. split; [reflexivity|].
  do 2 eexists. split; [reflexivity|].
  eapply (offset_tables_follow_indices (eng := Scenario.plain)
            1 [200] s data s None None (Some "sys.o") (Some [1; 2; 3]) 3 s).
  - reflexivity.
  - apply interned_indexed.
  - done.
  - reflexivity.
  - reflexivity.
Defined.

(** C8 on two emission calls for the session of root [200]. *)
Lemma persistence_latch_witness :
  ∃ e s1,
    jl_dump_native (eng := Scenario.plain) Scenario.session200
      None None (Some "sys.o") None 0 Scenario.interned = Ok (e, s1)
    ∧ imaging_mode s1 = false
    ∧ ∀ data2 bc2 unopt2 obj2 payload2 len2,
        ∃ e2 s2,
          jl_dump_native (eng := Scenario.plain)
            data2 bc2 unopt2 obj2 payload2 len2 s1 = Ok (e2, s2)
          ∧ mod_globals (emitted_module e2) = mod_globals (desc.M data2)
          ∧ Module_names (emitted_module e2) = Module_names (desc.M data2)
          ∧ imaging_mode s2 = false.
Proof.
  do 2 eexists. split; [reflexivity|].
  eapply (persistence_latch (eng := Scenario.plain) Scenario.session200
            None None (Some "sys.o") None 0 Scenario.interned).
  reflexivity.
Defined.

(** C9 on a call with three destinations of which the unoptimized
    bitcode file cannot be opened: the call returns like the call without
    that destination, and writes the same two files. *)
Lemma destinations_independent_witness :
  let eng := Scenario.engine Scenario.with_specialized ["sys-unopt.bc"] false in
  let s := Scenario.process false [(200, Scenario.instance 50)] in
  ∃ e' s1,
    jl_dump_native (eng := eng) Scenario.session200
      (Some "sys.bc") None (Some "sys.o") None 0 s = Ok (e', s1)
    ∧ ∃ e,
        jl_dump_native (eng := eng) Scenario.session200
          (Some "sys.bc") (Some "sys-unopt.bc") (Some "sys.o") None 0 s
        = Ok (e, s1)
        ∧ open_error "--output-unopt-bc" "sys-unopt.bc" "Permission denied"
            ∈ diagnostics e
        ∧ written e = written e'
        ∧ ("sys.bc",
           Bitcode (run_optimization jl_options_opt_level (emitted_module e)))
            ∈ written e
        ∧ ("sys.o",
           ObjectFile (run_optimization jl_options_opt_level (emitted_module e)))
            ∈ written e.
Proof.
  intros eng s. do 2 eexists. split; [reflexivity|].
  destruct (destinations_independent (eng := eng) Scenario.session200
              (Some "sys.bc") (Some "sys-unopt.bc") (Some "sys.o") None 0 s)
    as (_ & Hunopt & _ & _ & _ & Hwritten).
  destruct (Hunopt "sys-unopt.bc" "Permission denied" _ _ eq_refl eq_refl)
    as (e & He & Hdiag & Hsame).
  exists e. split; [exact He|]. split; [exact Hdiag|]. split; [exact Hsame|].
  destruct (Hwritten e _ He) as (_ & Hbc & Hobj).
  split; [exact (Hbc "sys.bc" eq_refl eq_refl)|].
  exact (Hobj "sys.o" eq_refl eq_refl eq_refl).
Defined.

(** C10 on the empty session. *)
Lemma jl_get_function_id_absent_witness :
  desc.jl_fvar_map Scenario.empty_session !! 100 = None
  ∧ jl_get_function_id Scenario.empty_session 100 (7, 8, 9) = (7, 8, 9).
Proof.
  split; [reflexivity|].
  apply (jl_get_function_id_absent Scenario.empty_session 100 (7, 8, 9)).
  reflexivity.
Defined.

(* ================================================================== *)
(** ** Concrete runs of the further properties *)

(** X1 on the session of root [200], created on a Linux build. *)
Lemma session_functions_normalised_witness :
  let s := Scenario.interned in
  let data := Scenario.session200 in
  OS_WINDOWS = false
  ∧ jl_create_native (eng := Scenario.plain) 1 [200] s = Ok (data, s)
  ∧ ∃ d merged,
      compile_all (eng := Scenario.plain) 1 [200] s = Ok d
      ∧ for_each (merge_entry s)
          {| desc.M := shadow_output s; desc.jl_sysimg_fvars := [];
             desc.jl_sysimg_gvars := []; desc.jl_fvar_map := ∅ |}
          (std_map_entries (emitted d)) = Ok merged
      ∧ mod_globals (desc.M data) = mod_globals (desc.M merged)
      ∧ mod_functions (desc.M data)
          = (λ F, if fn_hasBody F then fn_setLinkage InternalLinkage F else F)
              <$> mod_functions (desc.M merged).
Proof.
  intros s data. split; [reflexivity|]. split; [reflexivity|].
  apply (session_functions_normalised (eng := Scenario.plain) 1 [200] s data s).
  - left. reflexivity.
  - reflexivity.
Defined.

(** X2 on a Windows build: a defined function with external linkage is
    exported. *)
Lemma addComdat_storage_class_witness :
  let s := Scenario.with_personality true in
  ∃ F', addComdat (cfg := Scenario.win64) s true (Scenario.define "julia_f_1")
          = Ok F'
        ∧ fn_dllStorage F' = DLLExportStorageClass
        ∧ fn_name F' = "julia_f_1" ∧ fn_hasBody F' = true
        ∧ fn_linkage F' = ExternalLinkage.
Proof.
  intros s. eexists. split; [reflexivity|].
  destruct (addComdat_storage_class (cfg := Scenario.win64) s true
              eq_refl eq_refl) as [_ Hfn].
  exact (Hfn (Scenario.define "julia_f_1") _ eq_refl eq_refl).
Defined.

(** X3 on a Windows build: in the shadow module the function gets its
    linkage group and the personality routine. *)
Lemma addComdat_function_in_shadow_witness :
  let s := Scenario.with_personality true in
  ∃ F', addComdat (cfg := Scenario.win64) s true (Scenario.define "julia_f_1")
          = Ok F'
        ∧ fn_comdat F' = Some ("julia_f_1", NoDuplicates)
        ∧ fn_personality F' = Some "__julia_personality".
Proof.
  intros s. eexists. split; [reflexivity|].
  exact (addComdat_function_in_shadow (cfg := Scenario.win64) s true
           (Scenario.define "julia_f_1") _ eq_refl eq_refl eq_refl eq_refl).
Defined.

(** X4 on a Windows build: the personality routine is not a function of
    the shadow module. *)
Lemma addComdat_stops_witness :
  addComdat (cfg := Scenario.win64) (Scenario.with_personality false) true
    (Scenario.define "julia_f_1") = Abort AssertionFailure.
Proof.
  apply (proj2 (addComdat_stops (cfg := Scenario.win64)
                  (Scenario.with_personality false) true
                  (Scenario.define "julia_f_1") AssertionFailure)).
  do 7 (split; [reflexivity|]). eexists. split; reflexivity.
Defined.

(** X5: a request for a symbol of integer type, against a backend
    library with assertions and, outside persistence mode, against one
    without. *)
Lemma jl_get_global_for_pointer_only_witness :
  (∀ T', IntegerTy 64 ≠ PointerTy T')
  ∧ jl_get_global_for "jl_global#" 4096 empty_module (IntegerTy 64)
      (initial_runtime true) = Abort AssertionFailure
  ∧ ∃ g M' s',
      jl_get_global_for (cfg := Scenario.linux64_release)
        "jl_global#" 4096 empty_module (IntegerTy 64) (initial_runtime false)
      = Ok (g, M', s')
      ∧ gv_type g = IntegerTy 64 ∧ M' = Module_add_global g empty_module.
Proof.
  assert (Hint : ∀ T', IntegerTy 64 ≠ PointerTy T') by discriminate.
  split; [exact Hint|]. split.
  - exact (jl_get_global_for_pointer_only "jl_global#" 4096 empty_module
             (IntegerTy 64) (initial_runtime true) Hint).
  - exact (jl_get_global_for_pointer_only (cfg := Scenario.linux64_release)
             "jl_global#" 4096 empty_module (IntegerTy 64)
             (initial_runtime false) Hint eq_refl).
Defined.

(** X6 outside persistence mode. *)
Lemma jl_get_global_for_slot_witness :
  let s := initial_runtime false in
  ∃ g M' s',
    jl_get_global_for "jl_global#" 4096 empty_module Scenario.T_prjlvalue s
      = Ok (g, M', s')
    ∧ g = new_GlobalVariable Scenario.T_prjlvalue false ExternalLinkage None
            ("jl_global#" +:+ string_of_Z (globalUnique s))
    ∧ M' = Module_add_global g empty_module
    ∧ globalUnique s' = to_int32 (globalUnique s + 1)
    ∧ (globalUnique s + 1 < 2 ^ 31 → 0 ≤ globalUnique s →
       globalUnique s' = globalUnique s + 1)
    ∧ (globalUnique s = 2 ^ 31 - 1 → globalUnique s' = - 2 ^ 31)
    ∧ jl_ExecutionEngine s'
        = jl_ExecutionEngine s ++ [(gv_name g, length (slots s))]
    ∧ slots s' = slots s ++ [4096].
Proof.
  intros s.
  destruct (jl_get_global_for "jl_global#" 4096 empty_module
              Scenario.T_prjlvalue s)
    as [[[g M'] s']|] eqn:Hget; [|discriminate Hget].
  exists g, M', s'. split; [reflexivity|].
  apply (jl_get_global_for_slot "jl_global#" 4096 empty_module
           Scenario.T_prjlvalue s g M' s'); [reflexivity|exact Hget].
Defined.

(** X7 in persistence mode. *)
Lemma intern_then_lookup_witness :
  let s := initial_runtime true in
  ∃ g M' s',
    jl_get_global_for "jl_global#" 4096 empty_module Scenario.T_prjlvalue s
      = Ok (g, M', s')
    ∧ jl_get_llvm_gv 4096 s' = vec_size (jl_sysimg_gvars s')
    ∧ vec_size (jl_sysimg_gvars s') = vec_size (jl_sysimg_gvars s) + 1
    ∧ jl_sysimg_gvars s' !! Z.to_nat (jl_get_llvm_gv 4096 s' - 1)
        = Some (gv_name g)
    ∧ ∀ p, p ≠ 4096 → jl_get_llvm_gv p s' = jl_get_llvm_gv p s.
Proof.
  intros s.
  destruct (jl_get_global_for "jl_global#" 4096 empty_module
              Scenario.T_prjlvalue s)
    as [[[g M'] s']|] eqn:Hget; [|discriminate Hget].
  exists g, M', s'. split; [reflexivity|].
  apply (intern_then_lookup "jl_global#" 4096 empty_module
           Scenario.T_prjlvalue s g M' s').
  - reflexivity.
  - lia.
  - reflexivity.
  - reflexivity.
  - exact Hget.
Defined.

(** X8 outside persistence mode. *)
Lemma intern_unregistered_witness :
  let s := initial_runtime false in
  ∃ g M' s',
    jl_get_global_for "jl_global#" 4096 empty_module Scenario.T_prjlvalue s
      = Ok (g, M', s')
    ∧ jl_sysimg_gvars s' = jl_sysimg_gvars s
    ∧ (∀ p, jl_get_llvm_gv p s' = jl_get_llvm_gv p s)
    ∧ (imaging_mode s = false → shadow_output s' = shadow_output s).
Proof.
  intros s.
  destruct (jl_get_global_for "jl_global#" 4096 empty_module
              Scenario.T_prjlvalue s)
    as [[[g M'] s']|] eqn:Hget; [|discriminate Hget].
  exists g, M', s'. split; [reflexivity|].
  apply (intern_unregistered "jl_global#" 4096 empty_module
           Scenario.T_prjlvalue s g M' s'); [left; reflexivity|exact Hget].
Defined.

(** X9 in persistence mode, for the null address. *)
Lemma intern_shadow_variable_witness :
  let s := initial_runtime true in
  ∃ g M' s',
    jl_get_global_for "jl_global#" 0 empty_module Scenario.T_prjlvalue s
      = Ok (g, M', s')
    ∧ ∃ shadowvar,
        mod_globals (shadow_output s')
          = mod_globals (shadow_output s) ++ [shadowvar]
        ∧ mod_functions (shadow_output s') = mod_functions (shadow_output s)
        ∧ gv_name shadowvar = gv_name g
        ∧ gv_type shadowvar = Scenario.T_prjlvalue
        ∧ gv_linkage shadowvar = InternalLinkage
        ∧ gv_initializer shadowvar
            = Some (ConstantPointerNull Scenario.T_prjlvalue).
Proof.
  intros s.
  destruct (jl_get_global_for "jl_global#" 0 empty_module
              Scenario.T_prjlvalue s)
    as [[[g M'] s']|] eqn:Hget; [|discriminate Hget].
  exists g, M', s'. split; [reflexivity|].
  apply (intern_shadow_variable "jl_global#" 0 empty_module
           Scenario.T_prjlvalue s g M' s'); [reflexivity|reflexivity|exact Hget].
Defined.

(** X10: the address 4096, registered under index 1, is registered again
    and gets index 2. *)
Lemma emit_takes_next_index_witness :
  let s := Scenario.interned in
  let again := new_GlobalVariable Scenario.T_prjlvalue false ExternalLinkage
                 None "jl_again" in
  jl_get_llvm_gv 4096 s = 1
  ∧ ∃ slot s',
      jl_emit_and_add_to_shadow again 4096 s = Ok (slot, s')
      ∧ jl_sysimg_gvars s' = jl_sysimg_gvars s ++ ["jl_again"]
      ∧ jl_get_llvm_gv 4096 s' = vec_size (jl_sysimg_gvars s) + 1
      ∧ (∀ q, q ≠ 4096 → jl_get_llvm_gv q s' = jl_get_llvm_gv q s)
      ∧ (registry_indexed s → registry_indexed s').
Proof.
  intros s again. split; [reflexivity|].
  do 2 eexists. split; [reflexivity|].
  eapply (emit_takes_next_index again 4096 s).
  - reflexivity.
  - lia.
  - reflexivity.
  - reflexivity.
Defined.

(** X11 outside persistence mode, twice for one address. *)
Lemma fresh_names_differ_witness :
  let s := initial_runtime false in
  let T := Scenario.T_prjlvalue in
  ∃ g1 M1 s1 g2 M2 s2,
    jl_get_global_for "jl_global#" 4096 empty_module T s = Ok (g1, M1, s1)
    ∧ jl_get_global_for "jl_sym#" 4096 empty_module T s1 = Ok (g2, M2, s2)
    ∧ gv_name g1 ≠ gv_name g2.
Proof.
  intros s T. do 6 eexists. split; [reflexivity|]. split; [reflexivity|].
  eapply (fresh_names_differ "jl_global#" 4096 empty_module T s _ _ _
            "jl_sym#" 4096 empty_module T).
  - simpl. lia.
  - reflexivity.
  - reflexivity.
  - reflexivity.
  - reflexivity.
  - reflexivity.
  - reflexivity.
Defined.

(** X12: root [100] was valid in the worlds 1 to 3; the first pass, at
    the inference world 3, takes it and the second skips it. *)
Lemma root_taken_by_one_pass_witness :
  let li := Scenario.valid_until 3 50 in
  let s := Scenario.process false [(100, li)] in
  let d := {| emitted := ∅; workqueue := []; calls := []; env := s |} in
  in_pass 2 (jl_typeinf_world s) li s = true
  ∧ compile_root (eng := Scenario.plain) 1 (jl_world_counter s) d 100 = Ok d.
Proof.
  intros li s d. split; [reflexivity|].
  apply (root_taken_by_one_pass (eng := Scenario.plain)
           (jl_typeinf_world s) d 100 li); reflexivity.
Defined.

(** X13: root [100] was valid in the worlds 1 to 2, the passes run at
    the worlds 3 and 5. *)
Lemma roots_out_of_window_witness :
  let s := Scenario.process false [(100, Scenario.valid_until 2 50)] in
  compile_all (eng := Scenario.plain) 1 [100] s
    = Ok {| emitted := ∅; workqueue := []; calls := []; env := s |}.
Proof.
  intros s.
  apply (roots_out_of_window (eng := Scenario.plain) 1 [100] s).
  intros mi Hmi. apply list_elem_of_singleton in Hmi as ->.
  exists (Scenario.valid_until 2 50). repeat split.
Defined.

(** X14 on the session of root [200], asked for [200] and for [300]. *)
Lemma function_ids_cover_compiled_witness :
  let s := Scenario.interned in
  jl_create_native (eng := Scenario.plain) 1 [200] s
    = Ok (Scenario.session200, s)
  ∧ ∃ d, compile_all (eng := Scenario.plain) 1 [200] s = Ok d
         ∧ ∀ mi out,
             match emitted d !! mi with
             | Some r =>
                 ∃ c f, jl_get_function_id Scenario.session200 mi out
                          = (get3 r, c, f)
             | None => jl_get_function_id Scenario.session200 mi out = out
             end.
Proof.
  intros s. split; [reflexivity|].
  apply (function_ids_cover_compiled (eng := Scenario.plain) 1 [200] s
           Scenario.session200 s).
  reflexivity.
Defined.

(** X15 on the same session. *)
Lemma function_table_contents_witness :
  let s := Scenario.interned in
  let data := Scenario.session200 in
  jl_create_native (eng := Scenario.plain) 1 [200] s = Ok (data, s)
  ∧ ∃ d, compile_all (eng := Scenario.plain) 1 [200] s = Ok d
         ∧ (∀ v, v ∈ desc.jl_sysimg_fvars data →
              v ≠ "" ∧ ∃ mi r, emitted d !! mi = Some r
                               ∧ v = functionObject (get1 r))
         ∧ (size (emitted d) ≤ length (desc.jl_sysimg_fvars data)
            ≤ 2 * size (emitted d))%nat.
Proof.
  intros s data. split; [reflexivity|].
  apply (function_table_contents (eng := Scenario.plain) 1 [200] s data s).
  reflexivity.
Defined.

(** X16 on the same session: both functions of root [200] are defined
    with external linkage by the code generator. *)
Lemma session_functions_internal_witness :
  let s := Scenario.interned in
  let data := Scenario.session200 in
  jl_create_native (eng := Scenario.plain) 1 [200] s = Ok (data, s)
  ∧ (fn_linkage <$> mod_functions (Scenario.fragment ["julia_g_2"; "jfptr_g_2"]))
      = [ExternalLinkage; ExternalLinkage]
  ∧ ∀ F, F ∈ mod_functions (desc.M data) → fn_hasBody F = true →
      fn_linkage F = InternalLinkage
      ∧ (OS_WINDOWS = true → imaging_mode s = true →
         fn_dllStorage F = DefaultStorageClass).
Proof.
  intros s data. split; [reflexivity|]. split; [reflexivity|].
  apply (session_functions_internal (eng := Scenario.plain) 1 [200] s data s).
  reflexivity.
Defined.

(** X17 on a session of the roots [200] and [300]. *)
Lemma function_indices_distinct_witness :
  let eng := Scenario.engine Scenario.mutual_callers [] false in
  let s := Scenario.process false
             [(200, Scenario.instance 50); (300, Scenario.instance 51)] in
  ∃ data,
    jl_create_native (eng := eng) 4 [200; 300] s = Ok (data, s)
    ∧ desc.jl_fvar_map data !! 200 = Some (1, 1, 2)
    ∧ desc.jl_fvar_map data !! 300 = Some (1, 3, 4)
    ∧ ∀ mi1 mi2 api1 c1 f1 api2 c2 f2,
        desc.jl_fvar_map data !! mi1 = Some (api1, c1, f1) →
        desc.jl_fvar_map data !! mi2 = Some (api2, c2, f2) →
        mi1 ≠ mi2 →
        f1 ≠ f2 ∧ (c1 ≠ 0 → c1 ≠ f2 ∧ c1 ≠ c2).
Proof.
  intros eng s.
  destruct (jl_create_native (eng := eng) 4 [200; 300] s)
    as [[data s']|] eqn:Hc; [|discriminate Hc].
  assert (s' = s) as -> by (injection Hc as _ <-; reflexivity).
  exists data. split; [reflexivity|].
  split; [injection Hc as <-; reflexivity|].
  split; [injection Hc as <-; reflexivity|].
  apply (function_indices_distinct (eng := eng) 4 [200; 300] s data s).
  - exact Hc.
  - injection Hc as <-. reflexivity.
Defined.

(** X18 on a call with three destinations of which the optimized
    bitcode file cannot be opened. *)
Lemma written_in_pipeline_order_witness :
  let eng := Scenario.engine Scenario.with_specialized ["sys.bc"] false in
  let s := Scenario.process false [(200, Scenario.instance 50)] in
  ∃ e s1,
    jl_dump_native (eng := eng) Scenario.session200
      (Some "sys.bc") (Some "sys-unopt.bc") (Some "sys.o") None 0 s = Ok (e, s1)
    ∧ written e
      = [("sys-unopt.bc", Bitcode (emitted_module e));
         ("sys.o", ObjectFile (run_optimization jl_options_opt_level
                                 (emitted_module e)))].
Proof.
  intros eng s. do 2 eexists. split; [reflexivity|].
  exact (written_in_pipeline_order (eng := eng) Scenario.session200
           (Some "sys.bc") (Some "sys-unopt.bc") (Some "sys.o") None 0 s
           _ _ eq_refl).
Defined.

(** X19 on the emission of the session of root [200]. *)
Lemma emission_retargets_witness :
  let s := Scenario.interned in
  ∃ e s1,
    jl_dump_native (eng := Scenario.plain) Scenario.session200
      None None (Some "sys.o") None 0 s = Ok (e, s1)
    ∧ mod_targetTriple (emitted_module e) = "x86_64-unknown-linux-gnu"
    ∧ mod_dataLayout (emitted_module e)
        = "e-m:e-i64:64-f80:128-n8:16:32:64-S128-ni:10:11:12"
    ∧ mod_functions (emitted_module e)
        = mod_functions (desc.M Scenario.session200)
    ∧ s1 = set_imaging_mode false s.
Proof.
  intros s. do 2 eexists. split; [reflexivity|].
  exact (emission_retargets (eng := Scenario.plain) Scenario.session200
           None None (Some "sys.o") None 0 s _ _ eq_refl).
Defined.

(** X20 on the same emission, with a payload of which 3 bytes are
    taken. *)
Lemma emission_metadata_globals_witness :
  let s := Scenario.interned in
  let data := Scenario.session200 in
  imaging_mode s = true
  ∧ ∃ e s1,
      jl_dump_native (eng := Scenario.plain) data
        None None (Some "sys.o") (Some [1; 2; 3; 4]) 3 s = Ok (e, s1)
      ∧ ∃ gtab ftab counter hp h tail,
          getNamedValue (desc.M data) "jl_RTLD_DEFAULT_handle" = Some h
          ∧ mod_globals (emitted_module e)
              = mod_globals (desc.M data) ++ [gtab; ftab; counter; hp] ++ tail
          ∧ gv_name hp = "jl_RTLD_DEFAULT_handle_pointer"
          ∧ gv_isConstant hp = true
          ∧ gv_type hp = GlobalValue_getType h
          ∧ gv_initializer hp = Some (GlobalAddress "jl_RTLD_DEFAULT_handle")
          ∧ ∃ blob blen,
              tail = [blob; blen]
              ∧ gv_name blob = "jl_system_image_data"
              ∧ gv_isConstant blob = false
              ∧ gv_alignment blob = 64
              ∧ gv_type blob = ArrayTy (IntegerTy 8) 3
              ∧ gv_initializer blob = Some (ConstantDataArray [1; 2; 3])
              ∧ gv_name blen = "jl_system_image_size"
              ∧ gv_isConstant blen = true
              ∧ gv_type blen = T_size
              ∧ gv_initializer blen = Some (ConstantInt_get T_size 3).
Proof.
  intros s data. split; [reflexivity|]. do 2 eexists. split; [reflexivity|].
  exact (emission_metadata_globals (eng := Scenario.plain) data
           None None (Some "sys.o") (Some [1; 2; 3; 4]) 3 s _ _
           eq_refl eq_refl).
Defined.

(** X21 on a build without assertions: the module of the session has no
    value of that name. *)
Lemma emission_needs_handle_witness :
  getNamedValue (desc.M Scenario.empty_session) "jl_RTLD_DEFAULT_handle" = None
  ∧ jl_dump_native (cfg := Scenario.linux64_release) (eng := Scenario.plain)
      Scenario.empty_session None None None None 0 (initial_runtime true)
    = Abort NullDereference.
Proof.
  split; [reflexivity|].
  apply (emission_needs_handle (cfg := Scenario.linux64_release)
           (eng := Scenario.plain)).
  - reflexivity.
  - reflexivity.
  - right. reflexivity.
Defined.

(** X22 on a module with one defined function and one declaration. *)
Lemma jl_add_to_shadow_library :
  ∃ s', jl_add_to_shadow Scenario.library (Scenario.process true []) = Ok s'
        ∧ (fn_name <$> mod_functions (shadow_output s'))
            = ["julia_h_3"; "memcpy"]
        ∧ (fn_linkage <$> mod_functions (shadow_output s'))
            = [InternalLinkage; ExternalLinkage].
Proof. eexists. split; [reflexivity|]. split; reflexivity. Qed.
